(** * vsnlogger: configuration store, sink factories, logger registry, formatters

    A shallow embedding of the MISRA-style implementation
    (config_t.cpp, sinks_t.cpp, logger.cpp / logger.inl, formatters_t.cpp)
    together with the properties its specification states about it.

    Conventions
    - [std::string] is [string]; [const char*] is [option string] ([None] is
      the null pointer).
    - [std::map<std::string, T>] is [gmap string T].
    - [std::uint32_t] counters and [std::size_t] quantities are [N] with the
      wrap-around written out; [std::int32_t] values are [Z].
    - The wrapped logging engine (spdlog) is a registry of named loggers plus
      a trace of the calls made on it.  Every engine call that may throw
      consumes one [Outcome] from a script carried in the state; an exhausted
      script means the call succeeds.
    - C++ exceptions that leave a function are the [inl] side of a sum. *)

From Stdlib Require Import ZArith Lia List Ascii String Bool.
From stdpp Require Import base option gmap strings list fin_maps relations.

Local Open Scope string_scope.
Local Open Scope Z_scope.

(** ** error_codes.h *)

Inductive E_Result : Set :=
| E_SUCCESS
| E_INVALID_PARAMETER
| E_RESOURCE_UNAVAILABLE
| E_ALLOCATION_FAILED
| E_PERMISSION_DENIED
| E_PATH_CREATION_FAILED
| E_NOT_INITIALIZED
| E_CONFIG_ERROR
| E_INVALID_STATE
| E_FILE_ERROR
| E_UNKNOWN_ERROR.

Definition E_Result_code (r : E_Result) : Z :=
  match r with
  | E_SUCCESS => 0 | E_INVALID_PARAMETER => 1 | E_RESOURCE_UNAVAILABLE => 2
  | E_ALLOCATION_FAILED => 3 | E_PERMISSION_DENIED => 4
  | E_PATH_CREATION_FAILED => 5 | E_NOT_INITIALIZED => 6
  | E_CONFIG_ERROR => 7 | E_INVALID_STATE => 8 | E_FILE_ERROR => 9
  | E_UNKNOWN_ERROR => 255
  end.

Definition E_Result_eqb (a b : E_Result) : bool :=
  E_Result_code a =? E_Result_code b.

(** ** logger_t.h: severities *)

Inductive E_LogLevel : Set :=
| E_TRACE | E_DEBUG | E_INFO | E_WARN | E_ERROR | E_CRITICAL | E_OFF.

Definition E_LogLevel_code (l : E_LogLevel) : Z :=
  match l with
  | E_TRACE => 0 | E_DEBUG => 1 | E_INFO => 2 | E_WARN => 3
  | E_ERROR => 4 | E_CRITICAL => 5 | E_OFF => 6
  end.

(** ** Machine integers

    [std::uint32_t] arithmetic, and the conversion of a signed value to
    [std::size_t]. *)

Definition wrap32 (n : N) : N := (n mod 2 ^ 32)%N.
Definition to_size_t (z : Z) : N := Z.to_N (z mod 2 ^ 64).

(** [static_cast<int>] of a [std::uint32_t]: the value of the same 32 bits
    read as two's complement. *)
Definition to_int (n : N) : Z :=
  let u := Z.of_N (wrap32 n) in
  if u <? 2 ^ 31 then u else u - 2 ^ 32.

(** ** std::string helpers used by the sources *)

Module Str.

Definition empty (s : string) : bool :=
  match s with EmptyString => true | _ => false end.

Definition is_blank (c : ascii) : bool :=
  (Ascii.eqb c " " || Ascii.eqb c "009")%bool.

(** [s.find_first_not_of(" \t")]; [None] is [npos]. *)
Fixpoint find_first_not_of_blank (s : string) : option nat :=
  match s with
  | EmptyString => None
  | String c r =>
      if is_blank c then S <$> find_first_not_of_blank r else Some O
  end.

(** [s.find_last_not_of(" \t")]; [None] is [npos]. *)
Fixpoint find_last_not_of_blank (s : string) : option nat :=
  match s with
  | EmptyString => None
  | String c r =>
      match find_last_not_of_blank r with
      | Some i => Some (S i)
      | None => if is_blank c then None else Some O
      end
  end.

(** [s.substr(pos, n)] for [pos <= s.length()]. *)
Definition substr (s : string) (pos n : nat) : string :=
  String.substring pos n s.

Definition tolower (c : ascii) : ascii :=
  let n := nat_of_ascii c in
  if ((65 <=? n)%nat && (n <=? 90)%nat)%bool
  then ascii_of_nat (n + 32) else c.

Fixpoint lower (s : string) : string :=
  match s with
  | EmptyString => EmptyString
  | String c r => String (tolower c) (lower r)
  end.

Fixpoint all_chars (p : ascii -> bool) (s : string) : bool :=
  match s with
  | EmptyString => true
  | String c r => (p c && all_chars p r)%bool
  end.

(** Splits at the first occurrence of [d]: the text before and after. *)
Fixpoint split_first (d : ascii) (s : string) : option (string * string) :=
  match s with
  | EmptyString => None
  | String c r =>
      if Ascii.eqb c d then Some (EmptyString, r)
      else match split_first d r with
           | Some (a, b) => Some (String c a, b)
           | None => None
           end
  end.

(** The last character and what precedes it. *)
Fixpoint unsnoc (s : string) : option (string * ascii) :=
  match s with
  | EmptyString => None
  | String c r =>
      match unsnoc r with
      | None => Some (EmptyString, c)
      | Some (i, l) => Some (String c i, l)
      end
  end.

Fixpoint strip_prefix (p s : string) : option string :=
  match p, s with
  | EmptyString, _ => Some s
  | String a p', String b s' =>
      if Ascii.eqb a b then strip_prefix p' s' else None
  | String _ _, EmptyString => None
  end.

Fixpoint replicate (n : nat) (c : ascii) : string :=
  match n with
  | O => EmptyString
  | S k => String c (replicate k c)
  end.

End Str.

(** ** config.h / config_t.cpp *)

Module Config.

Definition k_maxSections : N := 32.
Definition k_maxEntriesPerSection : N := 64.
Definition k_maxKeyLength : nat := 64.
Definition k_maxValueLength : nat := 256.

(** The singleton's table and the file-static section counter. *)
Record LogConfig : Type := mkLogConfig {
  m_configData : gmap string (gmap string string);
  g_sectionCount : N
}.

(** [LogConfig::LogConfig]. *)
Definition LogConfig_ctor : LogConfig :=
  {| m_configData := {[ "global" := ∅ ]}; g_sectionCount := 1%N |}.

(** [m[section]] of [std::map]: the mapped value, default-constructed and
    inserted when the key is new. *)
Definition index (m : gmap string (gmap string string)) (section : string)
  : gmap string string * gmap string (gmap string string) :=
  match m !! section with
  | Some e => (e, m)
  | None => (∅, <[section := ∅]> m)
  end.

(** [std::getline] over the whole stream: the text cut at every line feed;
    a final line feed opens no further line. *)
Fixpoint getlines (text : string) : list string :=
  match text with
  | EmptyString => []
  | String c r =>
      if Ascii.eqb c "010" then EmptyString :: getlines r
      else match getlines r with
           | [] => [String c EmptyString]
           | l :: ls => String c l :: ls
           end
  end.

(** What [.] of an ECMAScript [std::regex] accepts: anything but a line
    terminator. *)
Definition regex_dot (c : ascii) : bool :=
  negb (Ascii.eqb c "010" || Ascii.eqb c "013").

(** [std::regex_match(line, m, sectionRegex)]: the whole line is an opening
    bracket, a greedy run of [.] (capture group 1, the result) and a closing
    bracket. *)
Definition match_sectionRegex (line : string) : option string :=
  match line with
  | String "[" r =>
      match Str.unsnoc r with
      | Some (inner, "]"%char) =>
          if Str.all_chars regex_dot inner then Some inner else None
      | _ => None
      end
  | _ => None
  end.

(** [std::regex_match(line, m, keyValueRegex)]: the whole line is a
    non-empty run of characters other than the equals sign (group 1), one
    equals sign, and a possibly empty run of such characters (group 2). *)
Definition match_keyValueRegex (line : string) : option (string * string) :=
  match Str.split_first "=" line with
  | Some (k, v) =>
      if (negb (Str.empty k)
          && Str.all_chars (fun c => negb (Ascii.eqb c "=")) v)%bool
      then Some (k, v) else None
  | None => None
  end.

(** [std::regex_search(key, m, envRegex)]: anchored at both ends, the
    literal VSNLOG_, a non-empty run without underscore (group 1), an
    underscore, and a non-empty run without equals sign (group 2). *)
Definition match_envRegex (envVar : string) : option (string * string) :=
  match Str.strip_prefix "VSNLOG_" envVar with
  | Some rest =>
      match Str.split_first "_" rest with
      | Some (sec, opt) =>
          if (negb (Str.empty sec) && negb (Str.empty opt)
              && Str.all_chars (fun c => negb (Ascii.eqb c "=")) opt)%bool
          then Some (sec, opt) else None
      | None => None
      end
  | None => None
  end.

(** The [substr(first, last - first + 1)] idiom of the sources, [None]
    when either index is [npos]. *)
Definition trimmed (s : string) : option string :=
  match Str.find_first_not_of_blank s, Str.find_last_not_of_blank s with
  | Some f, Some l => Some (Str.substr s f (l - f + 1))
  | _, _ => None
  end.

Definition truncate (n : nat) (s : string) : string :=
  if (n <? String.length s)%nat then Str.substr s 0 n else s.

(** Control flow of one iteration of a loop that may [return]. *)
Inductive Loop (A : Type) : Type :=
| Continue (a : A)
| Return (r : E_Result) (c : LogConfig).
Arguments Continue {A} a.
Arguments Return {A} r c.

Definition starts_comment (line : string) : bool :=
  match line with
  | String c _ => (Ascii.eqb c "#" || Ascii.eqb c ";")%bool
  | EmptyString => false
  end.

(** Body of the [while (std::getline(file, line))] loop of
    [LogConfig::LoadFromFile]. *)
Definition LoadFromFile_line (line currentSection : string) (c : LogConfig)
  : Loop (string * LogConfig) :=
  if (Str.empty line || starts_comment line)%bool
  then Continue (currentSection, c)
  else
    match Str.find_first_not_of_blank line with
    | None => Continue (currentSection, c)
    | Some firstNonSpace =>
        let lastNonSpace := default O (Str.find_last_not_of_blank line) in
        let line :=
          Str.substr line firstNonSpace (lastNonSpace - firstNonSpace + 1) in
        match match_sectionRegex line with
        | Some name =>
            if (k_maxSections <=? g_sectionCount c)%N
            then Return E_RESOURCE_UNAVAILABLE c
            else
              match m_configData c !! name with
              | None =>
                  Continue (name,
                    {| m_configData := <[name := ∅]> (m_configData c);
                       g_sectionCount := wrap32 (g_sectionCount c + 1)%N |})
              | Some _ => Continue (name, c)
              end
        | None =>
            match match_keyValueRegex line with
            | None => Continue (currentSection, c)
            | Some (key, value) =>
                match trimmed key with
                | None => Continue (currentSection, c)
                | Some key =>
                    let value := default EmptyString (trimmed value) in
                    let key := truncate k_maxKeyLength key in
                    let value := truncate k_maxValueLength value in
                    let '(entries, m) :=
                      index (m_configData c) currentSection in
                    if (k_maxEntriesPerSection <=? N.of_nat (size entries))%N
                    then Continue (currentSection,
                           {| m_configData := m;
                              g_sectionCount := g_sectionCount c |})
                    else Continue (currentSection,
                           {| m_configData :=
                                <[currentSection := <[key := value]> entries]> m;
                              g_sectionCount := g_sectionCount c |})
                end
            end
        end
    end.

Fixpoint LoadFromFile_loop (lines : list string) (currentSection : string)
  (c : LogConfig) : E_Result * LogConfig :=
  match lines with
  | [] => (E_SUCCESS, c)
  | line :: rest =>
      match LoadFromFile_line line currentSection c with
      | Continue (currentSection, c) => LoadFromFile_loop rest currentSection c
      | Return r c => (r, c)
      end
  end.

(** [LogConfig::LoadFromFile].  [fs path] is the text of the file at
    [path], [None] when [std::ifstream] cannot open it. *)
Definition LoadFromFile (fs : string -> option string) (configFile : string)
  (c : LogConfig) : E_Result * LogConfig :=
  if Str.empty configFile then (E_INVALID_PARAMETER, c)
  else
    match fs configFile with
    | None => (E_FILE_ERROR, c)
    | Some text => LoadFromFile_loop (getlines text) "global" c
    end.

Definition env_prefixes : list string := ["VSNLOG_GLOBAL_"; "VSNLOG_APP_"].
Definition env_options : list string :=
  ["LOG_LEVEL"; "FORMAT"; "FILE_PATH"; "MAX_SIZE"].

(** Body of the inner [for] loop of [LogConfig::LoadFromEnv]. *)
Definition LoadFromEnv_var (getenv : string -> option string)
  (envVar : string) (foundAny : bool) (c : LogConfig)
  : Loop (bool * LogConfig) :=
  match getenv envVar with
  | None => Continue (foundAny, c)
  | Some value =>
      match match_envRegex envVar with
      | None => Continue (foundAny, c)
      | Some (section, configKey) =>
          let section := Str.lower section in
          let configKey := Str.lower configKey in
          let created :=
            match m_configData c !! section with
            | Some _ => Continue c
            | None =>
                if (k_maxSections <=? g_sectionCount c)%N
                then Return E_RESOURCE_UNAVAILABLE c
                else Continue
                       {| m_configData := <[section := ∅]> (m_configData c);
                          g_sectionCount := wrap32 (g_sectionCount c + 1)%N |}
            end in
          match created with
          | Return r c => Return r c
          | Continue c =>
              let '(entries, m) := index (m_configData c) section in
              if (k_maxEntriesPerSection <=? N.of_nat (size entries))%N
              then Continue (foundAny,
                     {| m_configData := m;
                        g_sectionCount := g_sectionCount c |})
              else
                let configKey := truncate k_maxKeyLength configKey in
                let valueStr := truncate k_maxValueLength value in
                Continue (true,
                  {| m_configData :=
                       <[section := <[configKey := valueStr]> entries]> m;
                     g_sectionCount := g_sectionCount c |})
          end
      end
  end.

Fixpoint LoadFromEnv_loop (getenv : string -> option string)
  (vars : list string) (foundAny : bool) (c : LogConfig)
  : E_Result * LogConfig :=
  match vars with
  | [] => (if foundAny then E_SUCCESS else E_NOT_INITIALIZED, c)
  | envVar :: rest =>
      match LoadFromEnv_var getenv envVar foundAny c with
      | Continue (foundAny, c) => LoadFromEnv_loop getenv rest foundAny c
      | Return r c => (r, c)
      end
  end.

(** [LogConfig::LoadFromEnv]; [getenv] is [std::getenv]. *)
Definition LoadFromEnv (getenv : string -> option string) (c : LogConfig)
  : E_Result * LogConfig :=
  LoadFromEnv_loop getenv
    (prefix ← env_prefixes; option ← env_options; [prefix +:+ option])
    false c.

(** [LogConfig::GetString]. *)
Definition GetString (c : LogConfig) (section key defaultValue : string)
  : string :=
  if (Str.empty section || Str.empty key)%bool then defaultValue
  else
    match m_configData c !! section ≫= (.!! key) with
    | Some v => v
    | None =>
        if negb (String.eqb section "global") then
          match m_configData c !! "global" ≫= (.!! key) with
          | Some v => v
          | None => defaultValue
          end
        else defaultValue
    end.

(** [std::isspace] in the "C" locale. *)
Definition isspace (c : ascii) : bool :=
  let n := nat_of_ascii c in
  ((n =? 32)%nat || ((9 <=? n)%nat && (n <=? 13)%nat))%bool.

Fixpoint skip_space (s : string) : string :=
  match s with
  | String c r => if isspace c then skip_space r else s
  | EmptyString => s
  end.

Definition digit_value (c : ascii) : option Z :=
  let n := nat_of_ascii c in
  if ((48 <=? n)%nat && (n <=? 57)%nat)%bool
  then Some (Z.of_nat n - 48) else None.

(** The longest run of decimal digits at the front of [s], read with
    accumulator [acc]; [None] when there is no digit at all. *)
Fixpoint read_digits (s : string) (acc : option Z) : option Z :=
  match s with
  | String c r =>
      match digit_value c with
      | Some d => read_digits r (Some (10 * default 0 acc + d))
      | None => acc
      end
  | EmptyString => acc
  end.

(** [std::stoi(value)]: [None] stands for [std::invalid_argument] and
    [std::out_of_range]. *)
Definition stoi (value : string) : option Z :=
  let s := skip_space value in
  let '(neg, s) :=
    match s with
    | String "-" r => (true, r)
    | String "+" r => (false, r)
    | _ => (false, s)
    end in
  match read_digits s None with
  | None => None
  | Some n =>
      let v := if neg then - n else n in
      if ((- 2 ^ 31 <=? v) && (v <=? 2 ^ 31 - 1))%bool then Some v else None
  end.

(** [LogConfig::GetInt32]. *)
Definition GetInt32 (c : LogConfig) (section key : string) (defaultValue : Z)
  : Z :=
  let value := GetString c section key "" in
  if Str.empty value then defaultValue
  else default defaultValue (stoi value).

(** [LogConfig::GetBool]. *)
Definition GetBool (c : LogConfig) (section key : string)
  (defaultValue : bool) : bool :=
  let value := GetString c section key "" in
  if Str.empty value then defaultValue
  else
    let value := Str.lower value in
    (String.eqb value "true" || String.eqb value "yes"
     || String.eqb value "1" || String.eqb value "on")%bool.

(** [LogConfig::Set]. *)
Definition Set_ (c : LogConfig) (section key value : string)
  : E_Result * LogConfig :=
  if (Str.empty section || Str.empty key)%bool then (E_INVALID_PARAMETER, c)
  else if ((k_maxKeyLength <? String.length key)%nat
           || (k_maxValueLength <? String.length value)%nat)%bool
  then (E_INVALID_PARAMETER, c)
  else
    let created :=
      match m_configData c !! section with
      | Some _ => Continue c
      | None =>
          if (k_maxSections <=? g_sectionCount c)%N
          then Return E_RESOURCE_UNAVAILABLE c
          else Continue
                 {| m_configData := <[section := ∅]> (m_configData c);
                    g_sectionCount := wrap32 (g_sectionCount c + 1)%N |}
      end in
    match created with
    | Return r c => (r, c)
    | Continue c =>
        let '(entries, m) := index (m_configData c) section in
        if (bool_decide (entries !! key = None)
            && (k_maxEntriesPerSection <=? N.of_nat (size entries))%N)%bool
        then (E_RESOURCE_UNAVAILABLE,
              {| m_configData := m; g_sectionCount := g_sectionCount c |})
        else (E_SUCCESS,
              {| m_configData := <[section := <[key := value]> entries]> m;
                 g_sectionCount := g_sectionCount c |})
    end.

End Config.

Import Config.

(** ** formatters.h / formatters_t.cpp *)

Module Formatters.

Inductive E_FormatType : Set :=
| E_JSON | E_CONSOLE | E_SIMPLE | E_MINIMAL | E_COLORED | E_DETAILED
| E_DEFAULT.

(** The double-quote and backslash characters as one-character strings. *)
Definition dq : string := String "034" EmptyString.
Definition bs : string := String "092" EmptyString.

Definition hex_digit (d : nat) : ascii :=
  if (d <? 10)%nat then ascii_of_nat (48 + d) else ascii_of_nat (87 + d).

(** The lower-case hexadecimal digits of [n], most significant first;
    [fuel] bounds the number of digits produced. *)
Fixpoint hex_digits (fuel n : nat) (acc : string) : string :=
  match fuel with
  | O => acc
  | S f =>
      let acc := String (hex_digit (n mod 16)) acc in
      if (n / 16 =? 0)%nat then acc else hex_digits f (n / 16) acc
  end.

(** [%04x] of [snprintf]. *)
Definition printf_04x (n : nat) : string :=
  let d := hex_digits 8 n EmptyString in
  Str.replicate (4 - String.length d) "0" +:+ d.

(** One iteration of the loop of [JsonEscapeString]: what is appended to
    [output] for the character [c]. *)
Definition JsonEscapeChar (c : ascii) : string :=
  if Ascii.eqb c "034" then bs +:+ dq
  else if Ascii.eqb c "092" then bs +:+ bs
  else if Ascii.eqb c "010" then bs +:+ "n"
  else if Ascii.eqb c "013" then bs +:+ "r"
  else if Ascii.eqb c "009" then bs +:+ "t"
  else if Ascii.eqb c "008" then bs +:+ "b"
  else if Ascii.eqb c "012" then bs +:+ "f"
  else if (nat_of_ascii c <? 32)%nat
       then bs +:+ "u" +:+ printf_04x (nat_of_ascii c)
  else String c EmptyString.

Fixpoint JsonEscape_loop (input output : string) : string :=
  match input with
  | EmptyString => output
  | String c r => JsonEscape_loop r (output +:+ JsonEscapeChar c)
  end.

(** [JsonEscapeString]: the result code and the new [output]. *)
Definition JsonEscapeString (input : string) : E_Result * string :=
  (E_SUCCESS, JsonEscape_loop input EmptyString).

(** The range-for over [additionalFields] in [ToJson]; [json] is the
    stream so far. *)
Fixpoint ToJson_fields (fields : list (string * string))
  (fieldCount processedFields : nat) (json : string) : string :=
  match fields with
  | [] => json
  | (k, v) :: rest =>
      if (fieldCount <=? processedFields)%nat then json
      else
        let json := json +:+ "," +:+ dq in
        match JsonEscapeString k with
        | (E_SUCCESS, escapedKey) =>
            let json := json +:+ escapedKey +:+ dq +:+ ":" +:+ dq in
            match JsonEscapeString v with
            | (E_SUCCESS, escapedValue) =>
                ToJson_fields rest fieldCount (S processedFields)
                  (json +:+ escapedValue +:+ dq)
            | _ => ToJson_fields rest fieldCount processedFields json
            end
        | _ => ToJson_fields rest fieldCount processedFields json
        end
  end.

(** [ToJson] with additional fields.  [now] is what [GetCurrentTimestamp]
    returns at the call; [additionalFields] lists the entries of the
    [std::map] in iteration order; [result] is the out-parameter, returned
    with its new value. *)
Definition ToJson_with (now : E_Result * string)
  (message level component : string)
  (additionalFields : list (string * string)) (result : string)
  : E_Result * string :=
  if (Str.empty message || Str.empty level)%bool
  then (E_INVALID_PARAMETER, result)
  else
    match now with
    | (E_SUCCESS, timestamp) =>
        let json := "{" in
        let json :=
          json +:+ dq +:+ "timestamp" +:+ dq +:+ ":" +:+ dq +:+ timestamp
               +:+ dq +:+ "," in
        let json := json +:+ dq +:+ "level" +:+ dq +:+ ":" +:+ dq in
        match JsonEscapeString level with
        | (E_SUCCESS, escapedLevel) =>
            let json := json +:+ escapedLevel +:+ dq +:+ "," in
            let withComponent :=
              if negb (Str.empty component) then
                let json :=
                  json +:+ dq +:+ "component" +:+ dq +:+ ":" +:+ dq in
                match JsonEscapeString component with
                | (E_SUCCESS, escapedComponent) =>
                    inr (json +:+ escapedComponent +:+ dq +:+ ",")
                | (componentResult, _) => inl componentResult
                end
              else inr json in
            match withComponent with
            | inl componentResult => (componentResult, result)
            | inr json =>
                let json :=
                  json +:+ dq +:+ "message" +:+ dq +:+ ":" +:+ dq in
                match JsonEscapeString message with
                | (E_SUCCESS, escapedMessage) =>
                    let json := json +:+ escapedMessage +:+ dq in
                    let json :=
                      match additionalFields with
                      | [] => json
                      | _ =>
                          let k_maxFields := 32%nat in
                          let fieldCount :=
                            if (length additionalFields <=? k_maxFields)%nat
                            then length additionalFields else k_maxFields in
                          ToJson_fields additionalFields fieldCount O json
                      end in
                    (E_SUCCESS, json +:+ "}")
                | (messageResult, _) => (messageResult, result)
                end
            end
        | (levelResult, _) => (levelResult, result)
        end
    | (timestampResult, _) => (timestampResult, result)
    end.

(** [ToJson] without additional fields. *)
Definition ToJson (now : E_Result * string)
  (message level component result : string) : E_Result * string :=
  ToJson_with now message level component [] result.

(** [GetPattern(E_FormatType, pattern)]: result code and new [pattern]. *)
Definition GetPattern_type (formatType : E_FormatType) (pattern : string)
  : E_Result * string :=
  (E_SUCCESS,
   match formatType with
   | E_JSON =>
       "{" +:+ dq +:+ "timestamp" +:+ dq +:+ ":" +:+ dq
       +:+ "%Y-%m-%dT%H:%M:%S.%fZ" +:+ dq +:+ "," +:+ dq +:+ "level" +:+ dq
       +:+ ":" +:+ dq +:+ "%^%l%$" +:+ dq +:+ "," +:+ dq +:+ "logger" +:+ dq
       +:+ ":" +:+ dq +:+ "%n" +:+ dq +:+ "," +:+ dq +:+ "thread" +:+ dq
       +:+ ":" +:+ dq +:+ "%t" +:+ dq +:+ "," +:+ dq +:+ "message" +:+ dq
       +:+ ":" +:+ dq +:+ "%v" +:+ dq +:+ "}"
   | E_CONSOLE => "%Y-%m-%d %H:%M:%S.%f %z [%^%l%$] [%n] [%t] %v"
   | E_SIMPLE => "[%Y-%m-%d %H:%M:%S.%f] [%^%l%$] %v"
   | E_MINIMAL => "%^%l%$ %v"
   | E_COLORED =>
       "%Y-%m-%d %H:%M:%S.%f %z [%^%-8l%$] [%-10n] [%-5P %-5t] [%g:%#] %v"
   | E_DETAILED =>
       "%Y-%m-%d %H:%M:%S.%f %z [%^%-8l%$] [%-10n] [%-5P %-5t] [%g:%#:%!()] %v"
   | E_DEFAULT => "%Y-%m-%d %H:%M:%S.%f %z [%^%l%$] [%n] [%t] %v"
   end).

(** [GetPattern(formatName, pattern)]: result code and new [pattern]. *)
Definition GetPattern (formatName : string) (pattern : string)
  : E_Result * string :=
  if Str.empty formatName then (E_INVALID_PARAMETER, pattern)
  else
    let formatType :=
      if String.eqb formatName "json" then E_JSON
      else if String.eqb formatName "console" then E_CONSOLE
      else if String.eqb formatName "simple" then E_SIMPLE
      else if String.eqb formatName "minimal" then E_MINIMAL
      else if String.eqb formatName "colored" then E_COLORED
      else if String.eqb formatName "detailed" then E_DETAILED
      else E_DEFAULT in
    GetPattern_type formatType pattern.

(** The syslog priority [ToSyslog] derives from the level name. *)
Definition syslog_priority (level : string) : string :=
  if (String.eqb level "trace" || String.eqb level "debug")%bool then "7"
  else if String.eqb level "info" then "6"
  else if String.eqb level "warn" then "4"
  else if String.eqb level "error" then "3"
  else if String.eqb level "critical" then "2"
  else "6".

(** [ToSyslog]: result code and new [result]. *)
Definition ToSyslog (now : E_Result * string)
  (message level component result : string) : E_Result * string :=
  if (Str.empty message || Str.empty level)%bool
  then (E_INVALID_PARAMETER, result)
  else
    match now with
    | (E_SUCCESS, timestamp) =>
        let priority := syslog_priority level in
        let ss := "<" +:+ priority +:+ ">" +:+ timestamp +:+ " " in
        let ss :=
          if negb (Str.empty component) then
            let k_maxComponentLength := 32%nat in
            if (String.length component <=? k_maxComponentLength)%nat
            then ss +:+ component
            else ss +:+ Str.substr component 0 k_maxComponentLength
          else ss +:+ "vsnlogger" in
        (E_SUCCESS, ss +:+ ": " +:+ message)
    | (timestampResult, _) => (timestampResult, result)
    end.

(** [ToConsole]: result code and new [result]. *)
Definition ToConsole (now : E_Result * string)
  (message level component result : string) : E_Result * string :=
  if (Str.empty message || Str.empty level)%bool
  then (E_INVALID_PARAMETER, result)
  else
    match now with
    | (E_SUCCESS, timestamp) =>
        let ss := "[" +:+ timestamp +:+ "] " in
        let ss := ss +:+ "[" +:+ level +:+ "] " in
        let ss :=
          if negb (Str.empty component)
          then ss +:+ "[" +:+ component +:+ "] " else ss in
        (E_SUCCESS, ss +:+ message)
    | (timestampResult, _) => (timestampResult, result)
    end.

End Formatters.

(** ** The wrapped engine and the process state *)

Module Engine.

(** How an engine call that may throw ends. *)
Inductive Outcome : Set := Ok | ThrowSpdlogEx | ThrowStd.

(** Exceptions in flight; all derive from [std::exception]. *)
Inductive exn : Set :=
| runtime_error (what : string)
| invalid_argument (what : string)
| spdlog_ex
| std_exception.

Inductive Sink : Set :=
| stdout_color_sink_mt
| stdout_sink_mt
| rotating_file_sink_mt (filename : string) (maxSize maxFiles : N)
| basic_file_sink_mt (filename : string)
| syslog_sink_mt (ident : string) (syslogOption syslogFacility : Z)
    (enableFormatting : bool)
| null_sink_mt.

(** [spdlog::logger]. *)
Record logger : Set := mk_logger {
  name : string;
  sinks : list Sink
}.

(** [SourceLocation_t] of the library; [m_line] is a [std::uint32_t]. *)
Record SourceLocation_t : Set := mk_loc {
  m_filename : string;
  m_line : N;
  m_function : string
}.

(** [spdlog::source_loc] of the engine; [line] is an [int]. *)
Record source_loc : Set := mk_source_loc {
  filename : string;
  line : Z;
  funcname : string
}.

(** Calls made on the engine that leave no value behind. *)
Inductive Call : Set :=
| set_pattern (pattern : string)
| set_level (level : Z)
| set_color (on : string) (level : E_LogLevel) (code : string)
| log (on : string) (loc : source_loc) (level : E_LogLevel)
    (fmt : string) (args : list string)
| flush (on : string)
| shutdown.

(** Our [Logger] wrapper: its [m_logger] handle. *)
Record Logger : Set := mk_Logger { m_logger : option logger }.

Record World : Type := mk_World {
  config : LogConfig;
  g_sinkAllocationCount : N;
  ms_allocationCount : N;
  ms_defaultInstance : option Logger;
  emergencyLogger : option Logger;
  registry : gmap string logger;
  calls : list Call;
  script : list Outcome
}.

(** The state of a process before [main]. *)
Definition boot (script : list Outcome) : World :=
  {| config := LogConfig_ctor; g_sinkAllocationCount := 0%N;
     ms_allocationCount := 0%N; ms_defaultInstance := None;
     emergencyLogger := None; registry := ∅; calls := [];
     script := script |}.

Definition set_config (f : LogConfig -> LogConfig) (w : World) : World :=
  mk_World (f (config w)) (g_sinkAllocationCount w) (ms_allocationCount w)
    (ms_defaultInstance w) (emergencyLogger w) (registry w) (calls w)
    (script w).
Definition set_sinkAllocationCount (f : N -> N) (w : World) : World :=
  mk_World (config w) (f (g_sinkAllocationCount w)) (ms_allocationCount w)
    (ms_defaultInstance w) (emergencyLogger w) (registry w) (calls w)
    (script w).
Definition set_allocationCount (f : N -> N) (w : World) : World :=
  mk_World (config w) (g_sinkAllocationCount w) (f (ms_allocationCount w))
    (ms_defaultInstance w) (emergencyLogger w) (registry w) (calls w)
    (script w).
Definition set_defaultInstance (d : option Logger) (w : World) : World :=
  mk_World (config w) (g_sinkAllocationCount w) (ms_allocationCount w)
    d (emergencyLogger w) (registry w) (calls w) (script w).
Definition set_emergencyLogger (d : option Logger) (w : World) : World :=
  mk_World (config w) (g_sinkAllocationCount w) (ms_allocationCount w)
    (ms_defaultInstance w) d (registry w) (calls w) (script w).
Definition set_registry (f : gmap string logger -> gmap string logger)
  (w : World) : World :=
  mk_World (config w) (g_sinkAllocationCount w) (ms_allocationCount w)
    (ms_defaultInstance w) (emergencyLogger w) (f (registry w)) (calls w)
    (script w).
Definition set_calls (f : list Call -> list Call) (w : World) : World :=
  mk_World (config w) (g_sinkAllocationCount w) (ms_allocationCount w)
    (ms_defaultInstance w) (emergencyLogger w) (registry w) (f (calls w))
    (script w).
Definition set_script (s : list Outcome) (w : World) : World :=
  mk_World (config w) (g_sinkAllocationCount w) (ms_allocationCount w)
    (ms_defaultInstance w) (emergencyLogger w) (registry w) (calls w) s.

(** Computations over the process state that may throw. *)
Definition M (A : Type) : Type := World -> (exn + A) * World.

Definition ret {A} (a : A) : M A := fun w => (inr a, w).
Definition throw {A} (e : exn) : M A := fun w => (inl e, w).
Definition bind {A B} (m : M A) (k : A -> M B) : M B :=
  fun w =>
    match m w with
    | (inl e, w) => (inl e, w)
    | (inr a, w) => k a w
    end.
Definition catch {A} (m : M A) (h : exn -> M A) : M A :=
  fun w =>
    match m w with
    | (inl e, w) => h e w
    | (inr a, w) => (inr a, w)
    end.
Definition gets {A} (f : World -> A) : M A := fun w => (inr (f w), w).
Definition modify (f : World -> World) : M unit := fun w => (inr tt, f w).
(** A function that cannot throw, run inside [M]. *)
Definition lift {A} (f : World -> A * World) : M A :=
  fun w => let '(a, w) := f w in (inr a, w).
(** [try { m } catch (...) { return E_UNKNOWN_ERROR; }]. *)
Definition try_result (m : M E_Result) : World -> E_Result * World :=
  fun w =>
    match m w with
    | (inl _, w) => (E_UNKNOWN_ERROR, w)
    | (inr r, w) => (r, w)
    end.

Declare Scope m_scope.
Delimit Scope m_scope with M.
Notation "'let*' x := m 'in' k" := (bind m (fun x => k))
  (at level 10, x name, m at level 100, k at level 200) : m_scope.
Notation "'exec' m 'in' k" := (bind m (fun _ => k))
  (at level 10, m at level 100, k at level 200) : m_scope.

Definition exn_of (o : Outcome) : exn :=
  match o with ThrowSpdlogEx => spdlog_ex | _ => std_exception end.

(** The next scripted outcome; an exhausted script answers [Ok]. *)
Definition next_outcome (w : World) : Outcome * World :=
  match script w with
  | [] => (Ok, w)
  | o :: rest => (o, set_script rest w)
  end.

(** An engine constructor ([std::make_shared] of a sink or logger). *)
Definition construct : M unit :=
  fun w =>
    let '(o, w) := next_outcome w in
    match o with
    | Ok => (inr tt, w)
    | _ => (inl (exn_of o), w)
    end.

(** An engine call, recorded when it completes. *)
Definition call (c : Call) : M unit :=
  fun w =>
    let '(o, w) := next_outcome w in
    match o with
    | Ok => (inr tt, set_calls (cons c) w)
    | _ => (inl (exn_of o), w)
    end.

(** [spdlog::get]. *)
Definition get (n : string) : M (option logger) :=
  gets (fun w => registry w !! n).

(** [spdlog::register_logger]: refuses a name already registered. *)
Definition register_logger (l : logger) : M unit :=
  fun w =>
    match registry w !! name l with
    | Some _ => (inl spdlog_ex, w)
    | None => (inr tt, set_registry (insert (name l) l) w)
    end.

(** [spdlog::stdout_color_mt]: builds and registers a console logger. *)
Definition stdout_color_mt (n : string) : M logger :=
  (exec construct in
   let l := mk_logger n [stdout_color_sink_mt] in
   exec register_logger l in
   ret l)%M.

(** [spdlog::shutdown]: drops every registered logger. *)
Definition spdlog_shutdown : M unit :=
  (exec call shutdown in modify (set_registry (fun _ => ∅)))%M.

End Engine.

Import Engine.

(** ** sinks.h / sinks_t.cpp *)

Module Sinks.

Definition k_maxSinkAllocations : N := 64.

(** The shape shared by the four factories: the cap test, then a [try]
    block whose body builds [result] and whose handler returns null. *)
Definition allocate (result : Sink) (w : World) : option Sink * World :=
  if (k_maxSinkAllocations <=? g_sinkAllocationCount w)%N then (None, w)
  else
    match construct w with
    | (inr _, w) =>
        (Some result, set_sinkAllocationCount (fun n => wrap32 (n + 1)%N) w)
    | (inl _, w) => (None, w)
    end.

(** [CreateConsoleSink]. *)
Definition CreateConsoleSink (colored : bool) (w : World)
  : option Sink * World :=
  allocate (if colored then stdout_color_sink_mt else stdout_sink_mt) w.

Definition k_maxFileSizeLimit : N := 1024 * 1024 * 1024.
Definition k_maxFileCountLimit : N := 100.

(** [CreateFileSink].  The scripted outcome of the [try] block covers the
    directory creation as well as the sink constructor; the limits are
    computed inside that block, which no caller can tell from computing them
    ahead of the cap test as is done here. *)
Definition CreateFileSink (filename : string) (rotate : bool)
  (maxSize maxFiles : N) (w : World) : option Sink * World :=
  if Str.empty filename then (None, w)
  else
    let maxSize := if (0 =? maxSize)%N then (10 * 1024 * 1024)%N else maxSize in
    let maxFiles := if (0 =? maxFiles)%N then 5%N else maxFiles in
    let maxSize :=
      if (k_maxFileSizeLimit <? maxSize)%N then k_maxFileSizeLimit
      else maxSize in
    let maxFiles :=
      if (k_maxFileCountLimit <? maxFiles)%N then k_maxFileCountLimit
      else maxFiles in
    allocate
      (if rotate then rotating_file_sink_mt filename maxSize maxFiles
       else basic_file_sink_mt filename) w.

(** [CreateSyslogSink]. *)
Definition CreateSyslogSink (ident : string)
  (syslogOption syslogFacility : Z) (enableFormatting : bool) (w : World)
  : option Sink * World :=
  let ident := if Str.empty ident then "vsnlogger" else ident in
  let k_maxIdentLength := 32%nat in
  let ident :=
    if (k_maxIdentLength <? String.length ident)%nat
    then Str.substr ident 0 k_maxIdentLength else ident in
  allocate (syslog_sink_mt ident syslogOption syslogFacility enableFormatting)
    w.

(** [CreateNullSink]. *)
Definition CreateNullSink (w : World) : option Sink * World :=
  allocate null_sink_mt w.

(** [if (sink && sinks.size() < k_maxSinks) sinks.push_back(sink)]. *)
Definition push_below (k_maxSinks : nat) (sink : option Sink)
  (sinks : list Sink) : list Sink :=
  match sink with
  | Some s => if (length sinks <? k_maxSinks)%nat then (sinks ++ [s])%list else sinks
  | None => sinks
  end.

(** [CreateMultiSink]. *)
Definition CreateMultiSink (console : bool) (logFile : string)
  (syslog : bool) (w : World) : list Sink * World :=
  let k_maxSinks := 8%nat in
  let sinks := [] in
  let '(sinks, w) :=
    if console then
      let '(consoleSink, w) := CreateConsoleSink true w in
      (push_below k_maxSinks consoleSink sinks, w)
    else (sinks, w) in
  let '(sinks, w) :=
    if negb (Str.empty logFile) then
      (* CreateFileSink(logFile, 0, 0, true): rotate = false,
         maxSize = 0, maxFiles = 1 *)
      let '(fileSink, w) := CreateFileSink logFile false 0%N 1%N w in
      (push_below k_maxSinks fileSink sinks, w)
    else (sinks, w) in
  let '(sinks, w) :=
    if syslog then
      let '(syslogSink, w) := CreateSyslogSink "vsnlogger" 0 0 true w in
      (push_below k_maxSinks syslogSink sinks, w)
    else (sinks, w) in
  match sinks with
  | [] =>
      let '(defaultSink, w) := CreateConsoleSink true w in
      (match defaultSink with Some s => [s] | None => [] end, w)
  | _ => (sinks, w)
  end.

(** [GetSinkAllocationCount]. *)
Definition GetSinkAllocationCount (w : World) : N := g_sinkAllocationCount w.

End Sinks.

Import Sinks.

(** ** logger_t.h / logger.cpp / logger.inl

    [Logger::InitializeWithConfig] takes [g_loggerMutex] and then calls
    [Logger::Initialize], which takes the same non-recursive mutex again on
    the same thread; it has no sequential behaviour to embed and is left
    out.  [std::make_shared] never yields null, so the [E_ALLOCATION_FAILED]
    return of [Initialize] is unreachable and has no counterpart. *)

Module LoggerImpl.

Definition k_maxSinks : nat := 8.
Definition k_maxMessageLength : nat := 256.

(** [Logger::LogWithLocation] on the wrapper [self]; [fmt] is a C string,
    [None] the null pointer; [args] are the arguments as rendered.  The
    engine is handed a [spdlog::source_loc] built from [loc], the line
    number through [static_cast<int>]. *)
Definition LogWithLocation (self : Logger) (loc : SourceLocation_t)
  (level : E_LogLevel) (fmt : option string) (args : list string)
  : World -> E_Result * World :=
  try_result
    (match m_logger self with
     | None => ret E_NOT_INITIALIZED
     | Some l =>
         match fmt with
         | None => ret E_INVALID_PARAMETER
         | Some fmt =>
             let fmtLen := String.length fmt in
             if (k_maxMessageLength <? fmtLen)%nat
             then ret E_INVALID_PARAMETER
             else
               let spdlogLoc :=
                 mk_source_loc (m_filename loc) (to_int (m_line loc))
                   (m_function loc) in
               exec call (log (name l) spdlogLoc level fmt args) in
               ret E_SUCCESS
         end
     end)%M.

Definition Trace self loc fmt args := LogWithLocation self loc E_TRACE fmt args.
Definition Debug self loc fmt args := LogWithLocation self loc E_DEBUG fmt args.
Definition Info self loc fmt args := LogWithLocation self loc E_INFO fmt args.
Definition Warn self loc fmt args := LogWithLocation self loc E_WARN fmt args.
Definition Error self loc fmt args := LogWithLocation self loc E_ERROR fmt args.
Definition Critical self loc fmt args :=
  LogWithLocation self loc E_CRITICAL fmt args.

(** The handler shared by the two registering constructors:
    [catch (const spdlog::spdlog_ex&)] falls back to a console logger,
    anything else leaves the constructor. *)
Definition ctor_handler (n : string) (e : exn) : M Logger :=
  match e with
  | spdlog_ex =>
      (let* l := stdout_color_mt n in
       exec modify (set_allocationCount (fun c => wrap32 (c + 1)%N)) in
       ret (mk_Logger (Some l)))%M
  | _ => throw e
  end.

(** [Logger::Logger(const std::string& name)]. *)
Definition Logger_name (n : string) : M Logger :=
  catch
    (let* count := gets ms_allocationCount in
     if (32 <=? count)%N
     then throw (runtime_error "Maximum logger instances exceeded")
     else
       let* existing := get n in
       match existing with
       | Some l => ret (mk_Logger (Some l))
       | None =>
           let* consoleSink := lift (CreateConsoleSink true) in
           match consoleSink with
           | None => throw (runtime_error "Failed to create console sink")
           | Some s =>
               exec construct in
               let l := mk_logger n [s] in
               exec register_logger l in
               exec modify (set_allocationCount (fun c => wrap32 (c + 1)%N)) in
               ret (mk_Logger (Some l))
           end
       end)%M
    (ctor_handler n).

(** [Logger::Logger(const std::string& name, const std::string& logFilePath)]. *)
Definition Logger_name_file (n logFilePath : string) : M Logger :=
  catch
    (let* count := gets ms_allocationCount in
     if (32 <=? count)%N
     then throw (runtime_error "Maximum logger instances exceeded")
     else
       let* existing := get n in
       match existing with
       | Some l => ret (mk_Logger (Some l))
       | None =>
           let* sinksVec := lift (CreateMultiSink true logFilePath false) in
           match sinksVec with
           | [] => throw (runtime_error "Failed to create sinks")
           | _ =>
               let sinkCount :=
                 if (length sinksVec <=? k_maxSinks)%nat
                 then length sinksVec else k_maxSinks in
               exec construct in
               let l := mk_logger n (take sinkCount sinksVec) in
               exec register_logger l in
               exec modify (set_allocationCount (fun c => wrap32 (c + 1)%N)) in
               ret (mk_Logger (Some l))
           end
       end)%M
    (ctor_handler n).

(** [Logger::Logger(std::shared_ptr<spdlog::logger>)]. *)
Definition Logger_existing (existingLogger : option logger) : M Logger :=
  match existingLogger with
  | None => throw (invalid_argument "Null logger instance provided")
  | Some l => ret (mk_Logger (Some l))
  end.

Definition is_color_sink (s : Sink) : bool :=
  match s with stdout_color_sink_mt => true | _ => false end.

(** The six [set_color] calls made on the first colour console sink. *)
Definition color_table : list (E_LogLevel * string) :=
  let esc := String "027" EmptyString in
  [ (E_TRACE, esc +:+ "[36m"); (E_DEBUG, esc +:+ "[92m");
    (E_INFO, esc +:+ "[97m"); (E_WARN, esc +:+ "[93m");
    (E_ERROR, esc +:+ "[91m"); (E_CRITICAL, esc +:+ "[97;41m") ].

Fixpoint set_colors (on : string) (table : list (E_LogLevel * string))
  : M unit :=
  match table with
  | [] => ret tt
  | (lvl, code) :: rest =>
      (exec call (set_color on lvl code) in set_colors on rest)%M
  end.

(** The sink set built by [Initialize] when no logger of the name exists. *)
Definition Initialize_sinks (useConsole useColors useFile useSyslog : bool)
  (logFilePath : string) (fileMaxSize fileMaxCount : Z) (w : World)
  : list Sink * World :=
  let push (s : option Sink) (v : list Sink) :=
    match s with Some s => (v ++ [s])%list | None => v end in
  let sinkVec := [] in
  let '(sinkVec, w) :=
    if useConsole then
      let '(consoleSink, w) := CreateConsoleSink useColors w in
      (push consoleSink sinkVec, w)
    else (sinkVec, w) in
  let '(sinkVec, w) :=
    if (useFile && negb (Str.empty logFilePath))%bool then
      let '(fileSink, w) :=
        CreateFileSink logFilePath true (to_size_t fileMaxSize)
          (to_size_t fileMaxCount) w in
      (push fileSink sinkVec, w)
    else (sinkVec, w) in
  let '(sinkVec, w) :=
    if useSyslog then
      let '(syslogSink, w) := CreateSyslogSink "vsnlogger" 0 0 true w in
      (push syslogSink sinkVec, w)
    else (sinkVec, w) in
  match sinkVec with
  | [] =>
      let '(defaultSink, w) := CreateConsoleSink useColors w in
      (push defaultSink sinkVec, w)
  | _ => (sinkVec, w)
  end.

(** The part of [Initialize] that settles [ms_defaultInstance]: the logger
    registered under [appName] is wrapped, or one is built on a fresh sink
    set and registered. *)
Definition Initialize_instance (appName : string)
  (useConsole useColors useFile useSyslog : bool) (logFilePath : string)
  (fileMaxSize fileMaxCount : Z) : M Logger :=
  (let* existingLogger := get appName in
   let* instance :=
     match existingLogger with
     | Some _ => Logger_existing existingLogger
     | None =>
         let* sinkVec :=
           lift (Initialize_sinks useConsole useColors useFile useSyslog
                   logFilePath fileMaxSize fileMaxCount) in
         let sinkCount :=
           if (length sinkVec <=? k_maxSinks)%nat
           then length sinkVec else k_maxSinks in
         exec construct in
         let logger := mk_logger appName (take sinkCount sinkVec) in
         exec register_logger logger in
         Logger_existing (Some logger)
     end in
   exec modify (set_defaultInstance (Some instance)) in
   ret instance)%M.

(** The part of [Initialize] after [ms_defaultInstance] is settled:
    pattern, level, colours and the bootstrap record. *)
Definition Initialize_finish (appName patternName : string)
  (configuredLevel : Z) (useColors useConsole : bool) (instance : Logger)
  : M E_Result :=
  (let '(patternResult, pattern) :=
     Formatters.GetPattern patternName EmptyString in
   exec
     (if (E_Result_eqb E_SUCCESS patternResult
          && negb (Str.empty pattern))%bool
      then call (set_pattern pattern)
      else call (set_pattern
             "%Y-%m-%d %H:%M:%S.%f %z  [%^%-8l%$] [%-10n] [%-5P %-5t] [%g:%#] %v")) in
   exec call (set_level configuredLevel) in
   exec
     (if (useColors && useConsole)%bool then
        match m_logger instance with
        | Some l =>
            if existsb is_color_sink (sinks l)
            then set_colors (name l) color_table
            else ret tt
        | None => ret tt
        end
      else ret tt) in
   let* _ :=
     lift (Info instance (mk_loc "logger.cpp" 290 "Initialize")
             (Some "Logging initialized for application: {}")
             [appName]) in
   ret E_SUCCESS)%M.

(** The configuration [Initialize] reads, in the order it reads it. *)
Record Settings : Type := mk_Settings {
  configuredLogDir : string;
  useConsole : bool;
  useFile : bool;
  useSyslog : bool;
  patternName : string;
  useColors : bool;
  fileMaxSize : Z;
  fileMaxCount : Z;
  configuredLevel : Z
}.

Definition Initialize_settings (config : LogConfig)
  (appName logDir : string) (level : E_LogLevel) : Settings :=
  {| configuredLogDir := GetString config "global" "log_dir" logDir;
     useConsole := GetBool config appName "console_output" true;
     useFile := GetBool config appName "file_output" true;
     useSyslog := GetBool config appName "syslog_output" false;
     patternName := GetString config appName "log_pattern" "colored";
     useColors := GetBool config appName "use_colors" true;
     fileMaxSize :=
       GetInt32 config appName "max_file_size" (10 * 1024 * 1024);
     fileMaxCount := GetInt32 config appName "max_files" 5;
     (* static_cast<E_LogLevel>: the enumeration is eight bits wide *)
     configuredLevel :=
       GetInt32 config appName "log_level" (E_LogLevel_code level)
       mod 2 ^ 8 |}.

(** The [if (useFile)] block of [Initialize]: the bounds check and the
    path; [None] is the early [return E_INVALID_PARAMETER]. *)
Definition Initialize_logFilePath (s : Settings) (appName : string)
  : option string :=
  if useFile s then
    let maxPathLen := 255%nat in
    let dirLen := String.length (configuredLogDir s) in
    let appNameLen := String.length appName in
    let extensionLen := 4%nat in
    if (maxPathLen <? dirLen + appNameLen + extensionLen + 2)%nat
    then None
    else Some (configuredLogDir s +:+ "/" +:+ appName +:+ "/" +:+ appName
               +:+ ".log")
  else Some EmptyString.

(** [Logger::Initialize]; [getenv] is the process environment at the
    call. *)
Definition Initialize (getenv : string -> option string)
  (appName logDir : string) (level : E_LogLevel) : World -> E_Result * World :=
  try_result
    (if (Str.empty appName || Str.empty logDir)%bool
     then ret E_INVALID_PARAMETER
     else
       let* envResult :=
         lift (fun w =>
                 let '(r, c) := LoadFromEnv getenv (config w) in
                 (r, set_config (fun _ => c) w)) in
       let* config := gets config in
       let s := Initialize_settings config appName logDir level in
       match Initialize_logFilePath s appName with
       | None => ret E_INVALID_PARAMETER
       | Some logFilePath =>
           let* instance :=
             Initialize_instance appName (useConsole s) (useColors s)
               (useFile s) (useSyslog s) logFilePath (fileMaxSize s)
               (fileMaxCount s) in
           Initialize_finish appName (patternName s) (configuredLevel s)
             (useColors s) (useConsole s) instance
       end)%M.

(** [Logger::GetDefaultLogger]. *)
Definition GetDefaultLogger : M Logger :=
  (let* current := gets ms_defaultInstance in
   match current with
   | Some d => ret d
   | None =>
       catch
         (let* d := Logger_name "default" in
          exec modify (set_defaultInstance (Some d)) in
          let* _ :=
            lift (Warn d (mk_loc "logger.cpp" 309 "GetDefaultLogger")
                    (Some "Using uninitialized default logger. Call VSN_INIT_LOGGING first.")
                    []) in
          ret d)
         (fun _ =>
            let* e := gets emergencyLogger in
            match e with
            | Some l => ret l
            | None =>
                let* l := Logger_name "emergency" in
                exec modify (set_emergencyLogger (Some l)) in
                ret l
            end)
   end)%M.

(** [Logger::SetPattern]. *)
Definition SetPattern (patternName : string) : World -> E_Result * World :=
  try_result
    (let '(result, pattern) := Formatters.GetPattern patternName EmptyString in
     if negb (E_Result_eqb E_SUCCESS result) then ret result
     else if Str.empty pattern then ret E_INVALID_PARAMETER
     else exec call (set_pattern pattern) in ret E_SUCCESS)%M.

(** [Logger::SetLevel]. *)
Definition SetLevel (level : E_LogLevel) : World -> E_Result * World :=
  try_result
    (exec call (set_level (E_LogLevel_code level)) in ret E_SUCCESS)%M.

(** [Logger::GetNativeHandle]. *)
Definition GetNativeHandle (self : Logger) : option logger := m_logger self.

(** [Logger::Flush]. *)
Definition Flush (self : Logger) : World -> E_Result * World :=
  try_result
    (match m_logger self with
     | None => ret E_NOT_INITIALIZED
     | Some l => exec call (flush (name l)) in ret E_SUCCESS
     end)%M.

(** [Logger::Shutdown]. *)
Definition Shutdown : World -> E_Result * World :=
  try_result
    (exec spdlog_shutdown in
     exec modify (set_defaultInstance None) in
     ret E_SUCCESS)%M.

End LoggerImpl.

Import LoggerImpl.

(** ** Vocabulary of the statements *)

(** The value stored under [key] in [section], if any. *)
Definition stored (c : LogConfig) (section key : string) : option string :=
  m_configData c !! section ≫= (.!! key).

(** The section a line of a configuration file opens, if it is a header:
    the tests [LoadFromFile_line] makes before it reaches the section
    branch. *)
Definition header_name (line : string) : option string :=
  if (Str.empty line || starts_comment line)%bool then None
  else
    match Str.find_first_not_of_blank line with
    | None => None
    | Some firstNonSpace =>
        let lastNonSpace := default O (Str.find_last_not_of_blank line) in
        match_sectionRegex
          (Str.substr line firstNonSpace (lastNonSpace - firstNonSpace + 1))
    end.

(** The format names [GetPattern] tells apart. *)
Definition recognised_formats : list string :=
  ["json"; "console"; "simple"; "minimal"; "colored"; "detailed"].

(** The control characters [JsonEscapeString] writes in short form. *)
Definition short_escaped : list ascii :=
  ["010"; "013"; "009"; "008"; "012"]%char.

(** The operations of the sink factories, the logger and the store, as a
    client may issue them one after the other. *)
Inductive Op : Type :=
| OpCreateConsoleSink (colored : bool)
| OpCreateFileSink (filename : string) (rotate : bool) (maxSize maxFiles : N)
| OpCreateSyslogSink (ident : string) (syslogOption syslogFacility : Z)
    (enableFormatting : bool)
| OpCreateNullSink
| OpCreateMultiSink (console : bool) (logFile : string) (syslog : bool)
| OpLogger_name (n : string)
| OpLogger_name_file (n logFilePath : string)
| OpLogger_existing (existingLogger : option logger)
| OpInitialize (getenv : string -> option string) (appName logDir : string)
    (level : E_LogLevel)
| OpGetDefaultLogger
| OpLogWithLocation (self : Logger) (loc : SourceLocation_t)
    (level : E_LogLevel) (fmt : option string) (args : list string)
| OpSetPattern (patternName : string)
| OpSetLevel (level : E_LogLevel)
| OpFlush (self : Logger)
| OpLoadFromFile (fs : string -> option string) (configFile : string)
| OpLoadFromEnv (getenv : string -> option string)
| OpSet (section key value : string)
| OpShutdown.

Definition is_Shutdown (op : Op) : bool :=
  match op with OpShutdown => true | _ => false end.

(** The state an operation leaves behind, whatever it returns or throws. *)
Definition step (op : Op) (w : World) : World :=
  match op with
  | OpCreateConsoleSink colored => (CreateConsoleSink colored w).2
  | OpCreateFileSink f r s n => (CreateFileSink f r s n w).2
  | OpCreateSyslogSink i o f e => (CreateSyslogSink i o f e w).2
  | OpCreateNullSink => (CreateNullSink w).2
  | OpCreateMultiSink c f s => (CreateMultiSink c f s w).2
  | OpLogger_name n => (Logger_name n w).2
  | OpLogger_name_file n f => (Logger_name_file n f w).2
  | OpLogger_existing l => (Logger_existing l w).2
  | OpInitialize getenv a d l => (Initialize getenv a d l w).2
  | OpGetDefaultLogger => (GetDefaultLogger w).2
  | OpLogWithLocation self loc l fmt args =>
      (LogWithLocation self loc l fmt args w).2
  | OpSetPattern p => (SetPattern p w).2
  | OpSetLevel l => (SetLevel l w).2
  | OpFlush self => (Flush self w).2
  | OpLoadFromFile fs f =>
      set_config (fun c => (LoadFromFile fs f c).2) w
  | OpLoadFromEnv getenv =>
      set_config (fun c => (LoadFromEnv getenv c).2) w
  | OpSet s k v => set_config (fun c => (Set_ c s k v).2) w
  | OpShutdown => (Shutdown w).2
  end.

Definition run (ops : list Op) (w : World) : World :=
  fold_left (fun w op => step op w) ops w.

(** What the contract of a sink factory says of one call. *)
Definition at_cap_refuses (f : World -> option Sink * World) : Prop :=
  ∀ w, (k_maxSinkAllocations ≤ g_sinkAllocationCount w)%N →
       f w = (None, w).

(** Below the cap the outcome of the engine constructor decides: when it
    succeeds the call returns the sink [built] and the counter is one
    higher; when it throws the call returns the null handle and the counter
    is as it was. *)
Definition below_cap_counts (built : Sink)
  (f : World -> option Sink * World) : Prop :=
  ∀ w, (g_sinkAllocationCount w < k_maxSinkAllocations)%N →
       match (next_outcome w).1 with
       | Ok =>
           (f w).1 = Some built
           ∧ g_sinkAllocationCount (f w).2 = (g_sinkAllocationCount w + 1)%N
       | _ =>
           (f w).1 = None
           ∧ g_sinkAllocationCount (f w).2 = g_sinkAllocationCount w
       end.

(** The text obtained by writing [f c] for every character [c] of [s]. *)
Fixpoint expand (f : ascii -> string) (s : string) : string :=
  match s with
  | EmptyString => EmptyString
  | String c r => f c +:+ expand f r
  end.

(** No character of [s] is a raw control character. *)
Definition printable (s : string) : Prop :=
  Str.all_chars (fun c => (32 <=? nat_of_ascii c)%nat) s = true.

(** The JSON object [ToJson] writes for already escaped fields. *)
Definition json_object (timestamp level component message : string)
  : string :=
  "{" +:+ Formatters.dq +:+ "timestamp" +:+ Formatters.dq +:+ ":"
  +:+ Formatters.dq +:+ timestamp +:+ Formatters.dq +:+ ","
  +:+ Formatters.dq +:+ "level" +:+ Formatters.dq +:+ ":"
  +:+ Formatters.dq +:+ level +:+ Formatters.dq +:+ ","
  +:+ Formatters.dq +:+ "component" +:+ Formatters.dq +:+ ":"
  +:+ Formatters.dq +:+ component +:+ Formatters.dq +:+ ","
  +:+ Formatters.dq +:+ "message" +:+ Formatters.dq +:+ ":"
  +:+ Formatters.dq +:+ message +:+ Formatters.dq +:+ "}".

(** [m] keeps the state property [I]: whatever [m] returns or throws, a
    state in [I] is left in [I]. *)
Definition keeps {X : Type} (I : World -> Prop) (m : World -> X * World)
  : Prop :=
  ∀ w, I w → I (m w).2.

(** State properties that do not look at the configuration, the engine
    trace or the script. *)
Class Insensitive (I : World -> Prop) : Prop := {
  ins_config : ∀ f w, I w → I (set_config f w);
  ins_calls : ∀ f w, I w → I (set_calls f w);
  ins_script : ∀ s w, I w → I (set_script s w)
}.

(** The sink allocation counter is at least [c]. *)
Definition at_least (c : N) (w : World) : Prop :=
  (c ≤ g_sinkAllocationCount w)%N.

(** The two allocation counters and the engine registry are [c], [a] and
    [reg]. *)
Definition accounted (c a : N) (reg : gmap string logger) (w : World)
  : Prop :=
  g_sinkAllocationCount w = c ∧ ms_allocationCount w = a ∧ registry w = reg.

(** The state once [LoadFromEnv] has merged the environment [getenv] into
    the configuration. *)
Definition merged (getenv : string -> option string) (w : World) : World :=
  set_config (fun _ => (LoadFromEnv getenv (config w)).2) w.

(** The default instance is the wrapper [d]. *)
Definition default_is (d : Logger) (w : World) : Prop :=
  ms_defaultInstance w = Some d.

(** The engine has a logger registered under [n]. *)
Definition registered (n : string) (w : World) : Prop :=
  is_Some (registry w !! n).

(** ** Inputs used below *)

Definition nl : string := String "010" EmptyString.

(** A table holding [k = v] in the global section only. *)
Definition table_global_k : LogConfig :=
  {| m_configData := {[ "global" := {[ "k" := "v" ]} ]};
     g_sectionCount := 1%N |}.

(** A file of [n] header lines naming the sections s, ss, sss, ... *)
Definition headers_text (n : nat) : string :=
  String.concat EmptyString
    (map (fun i => "[" +:+ Str.replicate i "s" +:+ "]" +:+ nl) (seq 1 n)).

Definition one_file (text : string) (path : string) : option string :=
  if String.eqb path "vsnlogger.conf" then Some text else None.

Definition no_env (_ : string) : option string := None.

Definition long_appName : string := Str.replicate 125 "a".

(** ** The earlier interface (config.cpp, formatters.cpp) *)

Module Legacy.

(** [Config::get_string] on the table [config_data_]. *)
Definition get_string (config_data_ : gmap string (gmap string string))
  (section key default_value : string) : string :=
  match config_data_ !! section ≫= (.!! key) with
  | Some v => v
  | None =>
      if negb (String.eqb section "global") then
        match config_data_ !! "global" ≫= (.!! key) with
        | Some v => v
        | None => default_value
        end
      else default_value
  end.

(** [formatters::get_pattern]. *)
Definition get_pattern (format_name : string) : string :=
  if String.eqb format_name "json" then
    "{" +:+ Formatters.dq +:+ "timestamp" +:+ Formatters.dq +:+ ":"
    +:+ Formatters.dq +:+ "%Y-%m-%dT%H:%M:%S.%fZ" +:+ Formatters.dq +:+ ","
    +:+ Formatters.dq +:+ "level" +:+ Formatters.dq +:+ ":" +:+ Formatters.dq
    +:+ "%^%l%$" +:+ Formatters.dq +:+ "," +:+ Formatters.dq +:+ "logger"
    +:+ Formatters.dq +:+ ":" +:+ Formatters.dq +:+ "%n" +:+ Formatters.dq
    +:+ "," +:+ Formatters.dq +:+ "thread" +:+ Formatters.dq +:+ ":"
    +:+ Formatters.dq +:+ "%t" +:+ Formatters.dq +:+ "," +:+ Formatters.dq
    +:+ "message" +:+ Formatters.dq +:+ ":" +:+ Formatters.dq +:+ "%v"
    +:+ Formatters.dq +:+ "}"
  else if String.eqb format_name "console" then
    "%Y-%m-%d %H:%M:%S.%f %z [%^%l%$] [%n] [%t] %v"
  else if String.eqb format_name "simple" then
    "[%Y-%m-%d %H:%M:%S.%f] [%^%l%$] %v"
  else if String.eqb format_name "minimal" then "%^%l%$ %v"
  else if String.eqb format_name "colored" then
    "%Y-%m-%d %H:%M:%S.%f %z [%^%-8l%$] [%-10n] [%-5P %-5t] [%g:%#] %v"
  else if String.eqb format_name "detailed" then
    "%Y-%m-%d %H:%M:%S.%f %z [%^%-8l%$] [%-10n] [%-5P %-5t] [%g:%#:%!()] %v"
  else "%Y-%m-%d %H:%M:%S.%f %z [%^%l%$] [%n] [%t] %v".

End Legacy.

(** ** Vocabulary of the further statements *)

(** The operations that write the configuration store. *)
Inductive ConfigOp : Type :=
| CLoadFromFile (fs : string -> option string) (configFile : string)
| CLoadFromEnv (getenv : string -> option string)
| CSet (section key value : string).

Definition config_step (op : ConfigOp) (c : LogConfig) : LogConfig :=
  match op with
  | CLoadFromFile fs f => (LoadFromFile fs f c).2
  | CLoadFromEnv getenv => (LoadFromEnv getenv c).2
  | CSet s k v => (Set_ c s k v).2
  end.

Definition config_run (ops : list ConfigOp) (c : LogConfig) : LogConfig :=
  fold_left (fun c op => config_step op c) ops c.

(** The section counter tells the number of sections, the cap holds, and
    the global section is there. *)
Definition sections_accounted (c : LogConfig) : Prop :=
  g_sectionCount c = N.of_nat (size (m_configData c))
  ∧ (g_sectionCount c ≤ k_maxSections)%N
  ∧ is_Some (m_configData c !! "global").

(** No section holds more than 64 entries, no key is longer than 64
    characters and no value longer than 256. *)
Definition entries_bounded (c : LogConfig) : Prop :=
  ∀ section entries,
    m_configData c !! section = Some entries →
    (N.of_nat (size entries) ≤ k_maxEntriesPerSection)%N
    ∧ ∀ key value,
        entries !! key = Some value →
        (String.length key <= k_maxKeyLength)%nat
        ∧ (String.length value <= k_maxValueLength)%nat.

(** Everything stored in [c] is still stored in [c'], possibly with a new
    value. *)
Definition nothing_deleted (c c' : LogConfig) : Prop :=
  ∀ section key, is_Some (stored c section key) →
                 is_Some (stored c' section key).

(** The names [LoadFromEnv] asks the environment for. *)
Definition env_names : list string :=
  prefix ← env_prefixes; option ← env_options; [prefix +:+ option].

(** The keys [LoadFromEnv] may write. *)
Definition env_keys : list string :=
  ["log_level"; "format"; "file_path"; "max_size"].

(** What [ToJson_with] appends for the additional fields it keeps. *)
Fixpoint json_fields (fields : list (string * string)) : string :=
  match fields with
  | [] => EmptyString
  | (k, v) :: rest =>
      "," +:+ Formatters.dq +:+ expand Formatters.JsonEscapeChar k
      +:+ Formatters.dq +:+ ":" +:+ Formatters.dq
      +:+ expand Formatters.JsonEscapeChar v +:+ Formatters.dq
      +:+ json_fields rest
  end.

(** What [ToJson] writes ahead of the additional fields and the closing
    brace. *)
Definition json_open (timestamp level component message : string) : string :=
  "{" +:+ Formatters.dq +:+ "timestamp" +:+ Formatters.dq +:+ ":"
  +:+ Formatters.dq +:+ timestamp +:+ Formatters.dq +:+ ","
  +:+ Formatters.dq +:+ "level" +:+ Formatters.dq +:+ ":"
  +:+ Formatters.dq +:+ expand Formatters.JsonEscapeChar level
  +:+ Formatters.dq +:+ ","
  +:+ (if Str.empty component then ""
       else Formatters.dq +:+ "component" +:+ Formatters.dq +:+ ":"
            +:+ Formatters.dq +:+ expand Formatters.JsonEscapeChar component
            +:+ Formatters.dq +:+ ",")
  +:+ Formatters.dq +:+ "message" +:+ Formatters.dq +:+ ":"
  +:+ Formatters.dq +:+ expand Formatters.JsonEscapeChar message
  +:+ Formatters.dq.

(** The sinks [CreateMultiSink] is asked for, in the order it builds them. *)
Definition requested_sinks (console : bool) (logFile : string) (syslog : bool)
  : list Sink :=
  ((if console then [stdout_color_sink_mt] else [])
   ++ (if Str.empty logFile then [] else [basic_file_sink_mt logFile])
   ++ (if syslog then [syslog_sink_mt "vsnlogger" 0 0 true] else []))%list.

(** The factory is called on each sink description in turn; the ones that
    could be built are kept, in order. *)
Fixpoint try_each (requested : list Sink) (w : World) : list Sink * World :=
  match requested with
  | [] => ([], w)
  | s :: rest =>
      let '(built, w) := allocate s w in
      let '(others, w) := try_each rest w in
      (match built with Some s' => s' :: others | None => others end, w)
  end.

(** The last-resort console sink of [CreateMultiSink] and [Initialize]:
    tried when nothing else was built. *)
Definition or_fallback (fallback : Sink) (r : list Sink * World)
  : list Sink * World :=
  match r.1 with
  | [] =>
      let '(built, w) := allocate fallback r.2 in
      (match built with Some s => [s] | None => [] end, w)
  | _ => r
  end.

(** A rotation limit as [CreateFileSink] applies it: [fallback] for 0, at
    most [cap]. *)
Definition rotation_limit (fallback cap n : N) : N :=
  N.min cap (if (n =? 0)%N then fallback else n).

(** The sinks [Initialize] asks for, in the order it builds them. *)
Definition Initialize_requested (useConsole useColors useFile useSyslog : bool)
  (logFilePath : string) (fileMaxSize fileMaxCount : Z) : list Sink :=
  ((if useConsole
    then [if useColors then stdout_color_sink_mt else stdout_sink_mt]
    else [])
   ++ (if (useFile && negb (Str.empty logFilePath))%bool
       then [rotating_file_sink_mt logFilePath
               (rotation_limit 10485760 1073741824 (to_size_t fileMaxSize))
               (rotation_limit 5 100 (to_size_t fileMaxCount))]
       else [])
   ++ (if useSyslog then [syslog_sink_mt "vsnlogger" 0 0 true] else []))%list.

(** The identifier [CreateSyslogSink] opens syslog with. *)
Definition syslog_ident (ident : string) : string :=
  if Str.empty ident then "vsnlogger"
  else if (32 <? String.length ident)%nat then Str.substr ident 0 32
  else ident.

(** Whenever [m] returns rather than throws, what it returns is in [P]. *)
Definition returns {A : Type} (P : A -> Prop) (m : M A) : Prop :=
  ∀ w, match (m w).1 with inr a => P a | inl _ => True end.

(** The logger [lg] is registered under [n] and its wrapper is the default
    instance. *)
Definition serving (n : string) (lg : logger) (w : World) : Prop :=
  registry w !! n = Some lg
  ∧ ms_defaultInstance w = Some (mk_Logger (Some lg)).

(** The engine is scripted never to throw, and the registry is [reg]. *)
Definition quiet (reg : gmap string logger) (w : World) : Prop :=
  script w = [] ∧ registry w = reg.

(** From a quiet state [m] returns, and leaves a quiet state with the same
    registry. *)
Definition safe {A : Type} (reg : gmap string logger) (m : M A) : Prop :=
  ∀ w, quiet reg w → (∃ a, (m w).1 = inr a) ∧ quiet reg (m w).2.

(** Every wrapper held by one of the two singleton slots has a native
    handle. *)
Definition handles (w : World) : Prop :=
  (∀ d, ms_defaultInstance w = Some d → m_logger d ≠ None)
  ∧ (∀ d, emergencyLogger w = Some d → m_logger d ≠ None).

(** Only blanks: spaces and tabs. *)
Definition blanks (s : string) : Prop :=
  Str.all_chars Str.is_blank s = true.

(** The character [d] does not occur in [s]. *)
Definition lacks (d : ascii) (s : string) : Prop :=
  Str.all_chars (fun c => negb (Ascii.eqb c d)) s = true.

(** [s] starts and ends with a character that is no blank. *)
Definition tight (s : string) : Prop :=
  Str.find_first_not_of_blank s = Some O
  ∧ Str.find_last_not_of_blank s = Some (String.length s - 1)%nat.

(** A key as a line of a configuration file can spell it: no blank at
    either end, no equals sign, no line feed, and no bracket or comment mark
    in front. *)
Definition file_key (key : string) : Prop :=
  tight key ∧ lacks "=" key ∧ lacks "010" key
  ∧ match key with
    | String c _ => c ≠ "["%char ∧ c ≠ "#"%char ∧ c ≠ ";"%char
    | EmptyString => False
    end.

(** A value likewise; it may be empty. *)
Definition file_value (value : string) : Prop :=
  (value = "" ∨ tight value) ∧ lacks "=" value ∧ lacks "010" value.

(** The text of a file with a section header and one assignment below it,
    written with [p], [q], [r] and [t] around the key and the value. *)
Definition assignment_text (section key value p q r t : string) : string :=
  ("[" +:+ section +:+ "]") +:+ nl
  +:+ (p +:+ key +:+ q +:+ "=" +:+ r +:+ value +:+ t) +:+ nl.

(** The two singleton slots hold [d] and [e]. *)
Definition slots (d e : option Logger) (w : World) : Prop :=
  ms_defaultInstance w = d ∧ emergencyLogger w = e.

(** From a state in [I], [m] leaves a state in [I], and what it returns is
    in [P]. *)
Definition ensures {A : Type} (I : World -> Prop) (P : A -> Prop) (m : M A)
  : Prop :=
  ∀ w, I w →
       I (m w).2 ∧ match (m w).1 with inr a => P a | inl _ => True end.

(** State properties that look at neither allocation counter nor at the
    engine registry. *)
Class Uncounted (I : World -> Prop) : Prop := {
  unc_sinks : ∀ f w, I w → I (set_sinkAllocationCount f w);
  unc_loggers : ∀ f w, I w → I (set_allocationCount f w);
  unc_registry : ∀ f w, I w → I (set_registry f w)
}.

(** The section and key under which [LoadFromEnv] stores the variable
    [envVar]. *)
Definition env_cell (envVar : string) : string * string :=
  match match_envRegex envVar with
  | Some (section, configKey) =>
      (Str.lower section, truncate k_maxKeyLength (Str.lower configKey))
  | None => (EmptyString, EmptyString)
  end.

(** The store has room for [n] more sections and [n] more entries in every
    section. *)
Definition has_room (n : nat) (c : LogConfig) : Prop :=
  (g_sectionCount c + N.of_nat n ≤ k_maxSections)%N
  ∧ ∀ section entries,
      m_configData c !! section = Some entries →
      (N.of_nat (size entries + n) ≤ k_maxEntriesPerSection)%N.

(** The two ways the store ever changes: a section is created empty, under
    the section cap, or a value is put under a key of an existing section,
    within the length bounds and the entry cap. *)
Inductive config_move (c : LogConfig) : LogConfig -> Prop :=
| move_create (section : string) :
    m_configData c !! section = None →
    (g_sectionCount c < k_maxSections)%N →
    config_move c
      {| m_configData := <[section := ∅]> (m_configData c);
         g_sectionCount := (g_sectionCount c + 1)%N |}
| move_put (section : string) (entries : gmap string string)
    (key value : string) :
    m_configData c !! section = Some entries →
    (String.length key <= k_maxKeyLength)%nat →
    (String.length value <= k_maxValueLength)%nat →
    (N.of_nat (size entries) < k_maxEntriesPerSection)%N
    ∨ is_Some (entries !! key) →
    config_move c
      {| m_configData :=
           <[section := <[key := value]> entries]> (m_configData c);
         g_sectionCount := g_sectionCount c |}.

(** * Properties *)

(** ** ConfigurationStore: lookup *)

Section GetString_props.

Variable c : LogConfig.
Variables section key defaultValue : string.

Lemma Str_empty_false (s : string) : s ≠ "" → Str.empty s = false.
Proof. by destruct s. Qed.

Lemma GetString_guard :
  section = "" ∨ key = "" →
  GetString c section key defaultValue = defaultValue.
Proof.
  unfold GetString. intros [-> | ->]; simpl; [done|].
  by rewrite orb_true_r.
Qed.

Lemma GetString_found (v : string) :
  section ≠ "" → key ≠ "" → stored c section key = Some v →
  GetString c section key defaultValue = v.
Proof.
  intros Hs Hk Hv. unfold GetString, stored in *.
  by rewrite !Str_empty_false, Hv.
Qed.

Lemma GetString_fallback :
  section ≠ "" → key ≠ "" → stored c section key = None →
  GetString c section key defaultValue
  = default defaultValue (stored c "global" key).
Proof.
  intros Hs Hk Hv. unfold GetString, stored in *.
  rewrite !Str_empty_false, Hv by done. simpl.
  destruct (String.eqb_spec section "global") as [->|Hne]; simpl.
  - by rewrite Hv.
  - by destruct (m_configData c !! "global" ≫= _).
Qed.

End GetString_props.

(** C1 (as amended).  For every table, every non-empty section name and
    non-empty key, and every default: when the key is not stored in the named
    section, [GetString] returns the value stored under the key in the
    global section if there is one, and the caller's default if there is
    none. *)
Theorem C1_GetString_global_fallback
  (c : LogConfig) (section key defaultValue : string) :
  section ≠ "" → key ≠ "" → stored c section key = None →
  (∀ v, stored c "global" key = Some v →
        GetString c section key defaultValue = v)
  ∧ (stored c "global" key = None →
     GetString c section key defaultValue = defaultValue).
Proof.
  intros Hs Hk Hn.
  pose proof (GetString_fallback c section key defaultValue Hs Hk Hn) as E.
  split; intros; rewrite E; by simplify_option_eq.
Qed.

Lemma C1_GetString_global_fallback_witness :
  GetString table_global_k "app" "k" "d" = "v".
Proof.
  refine (proj1 (C1_GetString_global_fallback table_global_k "app" "k" "d"
                   _ _ _) "v" _);
    [discriminate | discriminate | reflexivity | reflexivity].
Defined.

(** C1, as first stated, fails for the empty section name: the key is not
    stored in it, it is stored in the global section, and [GetString] still
    returns the default. *)
Lemma C1_empty_section_counterexample :
  stored table_global_k "" "k" = None
  ∧ stored table_global_k "global" "k" = Some "v"
  ∧ GetString table_global_k "" "k" "d" = "d"
  ∧ "d" ≠ "v".
Proof. repeat split; try reflexivity. discriminate. Qed.

(** ** Formatter: pattern lookup *)

Lemma GetPattern_type_ok (t : Formatters.E_FormatType) (pattern : string) :
  ∃ p, Formatters.GetPattern_type t pattern = (E_SUCCESS, p) ∧ p ≠ "".
Proof. destruct t; eexists; split; try reflexivity; discriminate. Qed.

Lemma GetPattern_unrecognised (formatName pattern : string) :
  formatName ≠ "" → formatName ∉ recognised_formats →
  Formatters.GetPattern formatName pattern
  = Formatters.GetPattern_type Formatters.E_DEFAULT pattern.
Proof.
  intros Hne Hnot. unfold Formatters.GetPattern.
  rewrite Str_empty_false by done.
  repeat match goal with
  | |- context [String.eqb formatName ?s] =>
      destruct (String.eqb_spec formatName s) as [->|_];
      [exfalso; apply Hnot; unfold recognised_formats; set_solver|]
  end.
  reflexivity.
Qed.

(** C7 (as amended).  On every non-empty format name [GetPattern] succeeds
    and yields a non-empty pattern that does not depend on what the
    out-parameter held; every non-empty name it does not recognise yields
    the pattern of "default"; and "unknown-name" yields the same pattern as
    "default". *)
Theorem C7_GetPattern_total_on_nonempty (formatName pattern : string) :
  formatName ≠ "" →
  ∃ p, Formatters.GetPattern formatName pattern = (E_SUCCESS, p)
       ∧ p ≠ ""
       ∧ (∀ pattern', Formatters.GetPattern formatName pattern'
                      = (E_SUCCESS, p))
       ∧ (formatName ∉ recognised_formats →
          p = (Formatters.GetPattern "default" pattern).2)
       ∧ Formatters.GetPattern "unknown-name" pattern
         = Formatters.GetPattern "default" pattern.
Proof.
  intros Hne.
  assert (∀ q, Formatters.GetPattern formatName q
               = Formatters.GetPattern_type
                   (if String.eqb formatName "json" then Formatters.E_JSON
                    else if String.eqb formatName "console"
                         then Formatters.E_CONSOLE
                    else if String.eqb formatName "simple"
                         then Formatters.E_SIMPLE
                    else if String.eqb formatName "minimal"
                         then Formatters.E_MINIMAL
                    else if String.eqb formatName "colored"
                         then Formatters.E_COLORED
                    else if String.eqb formatName "detailed"
                         then Formatters.E_DETAILED
                    else Formatters.E_DEFAULT) q) as Hunf.
  { intros q. unfold Formatters.GetPattern.
    by rewrite Str_empty_false. }
  set (t := if String.eqb formatName "json" then _ else _) in Hunf.
  destruct (GetPattern_type_ok t pattern) as (p & Hp & Hnz).
  exists p. split_and!; try done.
  - by rewrite Hunf.
  - intros pattern'. rewrite Hunf. by destruct t; inversion Hp.
  - intros Hnot.
    pose proof (GetPattern_unrecognised formatName pattern Hne Hnot) as E.
    rewrite Hunf, Hp in E. by inversion E.
Qed.

Lemma C7_GetPattern_total_on_nonempty_witness :
  ∃ p, Formatters.GetPattern "syslog" "" = (E_SUCCESS, p) ∧ p ≠ "".
Proof.
  destruct (C7_GetPattern_total_on_nonempty "syslog" "") as (p & H1 & H2 & _);
    [discriminate|].
  exists p. split; assumption.
Defined.

(** C7, as first stated, fails on the empty name: [GetPattern] returns
    [E_INVALID_PARAMETER] and leaves the out-parameter as it was. *)
Lemma C7_empty_name_counterexample :
  Formatters.GetPattern "" "" = (E_INVALID_PARAMETER, "")
  ∧ (Formatters.GetPattern "" "").1 ≠ E_SUCCESS.
Proof. split; [reflexivity | discriminate]. Qed.

(** ** Formatter: JSON escaping *)

Section Json.

Import Formatters.

Lemma append_cons (a : ascii) (s t : string) :
  String a s +:+ t = String a (s +:+ t).
Proof. reflexivity. Qed.

Lemma append_nil_r (s : string) : s +:+ "" = s.
Proof. induction s; [done|]. rewrite append_cons. congruence. Qed.

Lemma append_assoc (a b c : string) : (a +:+ b) +:+ c = a +:+ b +:+ c.
Proof. induction a; [done|]. rewrite !append_cons. congruence. Qed.

Lemma JsonEscape_loop_expand (input output : string) :
  JsonEscape_loop input output = output +:+ expand JsonEscapeChar input.
Proof.
  revert output. induction input as [|c r IH]; intros output; simpl.
  - by rewrite append_nil_r.
  - by rewrite IH, append_assoc.
Qed.

Lemma JsonEscapeString_expand (input : string) :
  JsonEscapeString input = (E_SUCCESS, expand JsonEscapeChar input).
Proof. unfold JsonEscapeString. by rewrite JsonEscape_loop_expand. Qed.

Lemma all_chars_append (p : ascii -> bool) (a b : string) :
  Str.all_chars p (a +:+ b) = (Str.all_chars p a && Str.all_chars p b)%bool.
Proof.
  induction a; [done|]. rewrite append_cons. simpl.
  by rewrite IHa, andb_assoc.
Qed.

Lemma JsonEscapeChar_printable (c : ascii) : printable (JsonEscapeChar c).
Proof. destruct c as [[] [] [] [] [] [] [] []]; reflexivity. Qed.

Lemma expand_printable (s : string) : printable (expand JsonEscapeChar s).
Proof.
  unfold printable. induction s as [|c r IH]; [done|].
  change (expand JsonEscapeChar (String c r))
    with (JsonEscapeChar c +:+ expand JsonEscapeChar r).
  rewrite all_chars_append, IH, andb_true_r.
  apply JsonEscapeChar_printable.
Qed.

Lemma JsonEscapeChar_control (c : ascii) :
  (nat_of_ascii c < 32)%nat → c ∉ short_escaped →
  JsonEscapeChar c
  = bs +:+ "u00"
    +:+ String (hex_digit (nat_of_ascii c / 16))
          (String (hex_digit (nat_of_ascii c mod 16)) "").
Proof.
  intros Hlt Hnot.
  destruct c as [[] [] [] [] [] [] [] []];
    first [ reflexivity
          | exfalso; vm_compute in Hlt; lia
          | exfalso; apply Hnot; unfold short_escaped; set_solver ].
Qed.

Lemma JsonEscapeChar_plain (c : ascii) :
  (32 <= nat_of_ascii c)%nat → c ≠ "034"%char → c ≠ "092"%char →
  JsonEscapeChar c = String c "".
Proof.
  intros Hge Hq Hb.
  destruct c as [[] [] [] [] [] [] [] []];
    first [ reflexivity | exfalso; vm_compute in Hge; lia | done ].
Qed.

Lemma ToJson_object (timestamp message level component result : string) :
  message ≠ "" → level ≠ "" → component ≠ "" →
  ToJson (E_SUCCESS, timestamp) message level component result
  = (E_SUCCESS,
     json_object timestamp (expand JsonEscapeChar level)
       (expand JsonEscapeChar component) (expand JsonEscapeChar message)).
Proof.
  intros Hm Hl Hc. unfold ToJson, ToJson_with.
  rewrite !JsonEscapeString_expand, !Str_empty_false by done.
  cbn [orb negb]. unfold json_object. f_equal.
  rewrite !append_assoc. reflexivity.
Qed.

End Json.

(** C8 (as amended).  [JsonEscapeString] always succeeds and rewrites its
    input character by character: the quote and the backslash get a
    backslash in front; line feed, carriage return, tab, backspace and form
    feed become the two-character escapes n, r, t, b, f; every other
    character below 0x20 becomes a backslash, u, and its code as four
    lower-case hexadecimal digits; everything else is copied.  No raw
    control character is left in the output.  [ToJson] applies it to the
    level, component and message fields, and on the message a, quote, b with
    level info and component X (and a readable clock) it succeeds with one
    object whose message reads a, backslash, quote, b. *)
Theorem C8_ToJson_escaping :
  (∀ input,
     Formatters.JsonEscapeString input
     = (E_SUCCESS, expand Formatters.JsonEscapeChar input)
     ∧ printable (expand Formatters.JsonEscapeChar input))
  ∧ Formatters.JsonEscapeChar "034" = Formatters.bs +:+ Formatters.dq
  ∧ Formatters.JsonEscapeChar "092" = Formatters.bs +:+ Formatters.bs
  ∧ Formatters.JsonEscapeChar "010" = Formatters.bs +:+ "n"
  ∧ Formatters.JsonEscapeChar "013" = Formatters.bs +:+ "r"
  ∧ Formatters.JsonEscapeChar "009" = Formatters.bs +:+ "t"
  ∧ Formatters.JsonEscapeChar "008" = Formatters.bs +:+ "b"
  ∧ Formatters.JsonEscapeChar "012" = Formatters.bs +:+ "f"
  ∧ (∀ c, (nat_of_ascii c < 32)%nat → c ∉ short_escaped →
          Formatters.JsonEscapeChar c
          = Formatters.bs +:+ "u00"
            +:+ String (Formatters.hex_digit (nat_of_ascii c / 16))
                  (String (Formatters.hex_digit (nat_of_ascii c mod 16)) ""))
  ∧ (∀ c, (32 <= nat_of_ascii c)%nat → c ≠ "034"%char → c ≠ "092"%char →
          Formatters.JsonEscapeChar c = String c "")
  ∧ (∀ timestamp message level component result,
       message ≠ "" → level ≠ "" → component ≠ "" →
       Formatters.ToJson (E_SUCCESS, timestamp) message level component result
       = (E_SUCCESS,
          json_object timestamp (expand Formatters.JsonEscapeChar level)
            (expand Formatters.JsonEscapeChar component)
            (expand Formatters.JsonEscapeChar message)))
  ∧ (∀ timestamp result,
       Formatters.ToJson (E_SUCCESS, timestamp)
         ("a" +:+ Formatters.dq +:+ "b") "info" "X" result
       = (E_SUCCESS,
          json_object timestamp "info" "X"
            ("a" +:+ Formatters.bs +:+ Formatters.dq +:+ "b"))).
Proof.
  split_and!; try reflexivity.
  - intros input. split;
      [apply JsonEscapeString_expand | apply expand_printable].
  - apply JsonEscapeChar_control.
  - apply JsonEscapeChar_plain.
  - apply ToJson_object.
  - intros. by rewrite ToJson_object.
Qed.

Lemma C8_ToJson_escaping_witness :
  Formatters.JsonEscapeChar "001"
  = Formatters.bs +:+ "u0001"
  ∧ Formatters.JsonEscapeChar "A" = "A"
  ∧ Formatters.ToJson (E_SUCCESS, "2026-01-01T00:00:00.000Z") "m" "info" "X" ""
    = (E_SUCCESS,
       json_object "2026-01-01T00:00:00.000Z" "info" "X" "m").
Proof.
  destruct C8_ToJson_escaping
    as (_ & _ & _ & _ & _ & _ & _ & _ & Hctl & Hplain & Hobj & _).
  split_and!.
  - apply (Hctl "001"%char); [vm_compute; lia |].
    unfold short_escaped. intros H.
    repeat (apply elem_of_cons in H as [H|H]; [discriminate H|]).
    by apply elem_of_nil in H.
  - apply (Hplain "A"%char); [vm_compute; lia | discriminate | discriminate].
  - apply (Hobj _ "m" "info" "X" ""); discriminate.
Defined.

(** C8, as first stated, fails at the line feed: its code is below 0x20 and
    it is written as backslash n, not as a u escape. *)
Lemma C8_line_feed_counterexample :
  (nat_of_ascii "010" < 32)%nat
  ∧ Formatters.JsonEscapeString (String "010" "")
    = (E_SUCCESS, Formatters.bs +:+ "n")
  ∧ Formatters.bs +:+ "n" ≠ Formatters.bs +:+ "u000a".
Proof. split_and!; [vm_compute; lia | reflexivity | discriminate]. Qed.

(** ** SinkFactory *)

Section Factories.

Lemma wrap32_succ (n : N) : (n < 64)%N → wrap32 (n + 1) = (n + 1)%N.
Proof. intros H. unfold wrap32. apply N.mod_small. lia. Qed.

Lemma next_outcome_count (w : World) :
  g_sinkAllocationCount (next_outcome w).2 = g_sinkAllocationCount w.
Proof. unfold next_outcome. by destruct (script w). Qed.

Lemma construct_count (w : World) :
  g_sinkAllocationCount (construct w).2 = g_sinkAllocationCount w.
Proof.
  unfold construct, next_outcome.
  by destruct (script w) as [|[] ?].
Qed.

(** What [allocate] returns, by cases on the cap and on the outcome of the
    engine constructor. *)
Lemma allocate_unfold (result : Sink) (w : World) :
  allocate result w
  = if (k_maxSinkAllocations <=? g_sinkAllocationCount w)%N then (None, w)
    else match (next_outcome w).1 with
         | Ok => (Some result,
                  set_sinkAllocationCount (fun n => wrap32 (n + 1)%N)
                    (next_outcome w).2)
         | _ => (None, (next_outcome w).2)
         end.
Proof.
  unfold allocate, construct.
  destruct (_ <=? _)%N; [done|].
  by destruct (next_outcome w) as [[] ?].
Qed.

Lemma allocate_at_cap (result : Sink) : at_cap_refuses (allocate result).
Proof.
  intros w H. rewrite allocate_unfold.
  by destruct (N.leb_spec k_maxSinkAllocations (g_sinkAllocationCount w));
    [|lia].
Qed.

Lemma allocate_below_cap (result : Sink) :
  below_cap_counts result (allocate result).
Proof.
  intros w H. rewrite allocate_unfold.
  destruct (N.leb_spec k_maxSinkAllocations (g_sinkAllocationCount w));
    [lia|].
  pose proof (next_outcome_count w) as Hc.
  destruct (next_outcome w) as [[] w']; simpl in *; split; try done.
  rewrite Hc. apply wrap32_succ. exact H.
Qed.

Lemma CreateFileSink_empty rotate maxSize maxFiles (w : World) :
  CreateFileSink "" rotate maxSize maxFiles w = (None, w).
Proof. reflexivity. Qed.

(** With a name, [CreateFileSink] is the shared shape on a rotating sink
    with its limits normalized, or on a plain one. *)
Lemma CreateFileSink_nonempty filename rotate maxSize maxFiles (w : World) :
  filename ≠ "" →
  CreateFileSink filename rotate maxSize maxFiles w
  = allocate
      (if rotate
       then rotating_file_sink_mt filename
              (rotation_limit 10485760 1073741824 maxSize)
              (rotation_limit 5 100 maxFiles)
       else basic_file_sink_mt filename) w.
Proof.
  intros H. unfold CreateFileSink, rotation_limit.
  rewrite Str_empty_false by done.
  destruct rotate; [|done].
  unfold k_maxFileSizeLimit, k_maxFileCountLimit.
  rewrite (N.eqb_sym 0 maxSize), (N.eqb_sym 0 maxFiles).
  change (1024 * 1024 * 1024)%N with 1073741824%N.
  change (10 * 1024 * 1024)%N with 10485760%N.
  f_equal. f_equal.
  - destruct (maxSize =? 0)%N;
      match goal with
      | |- context [(?a <? ?b)%N] => destruct (N.ltb_spec a b)
      end; lia.
  - destruct (maxFiles =? 0)%N;
      match goal with
      | |- context [(?a <? ?b)%N] => destruct (N.ltb_spec a b)
      end; lia.
Qed.

Lemma CreateFileSink_at_cap filename rotate maxSize maxFiles :
  at_cap_refuses (CreateFileSink filename rotate maxSize maxFiles).
Proof.
  intros w H. destruct (decide (filename = "")) as [->|Hne]; [done|].
  rewrite CreateFileSink_nonempty by done.
  by apply allocate_at_cap.
Qed.

Lemma CreateFileSink_below_cap (filename : string) (rotate : bool)
  (maxSize maxFiles : N) :
  filename ≠ "" →
  below_cap_counts
    (if rotate
     then rotating_file_sink_mt filename
            (rotation_limit 10485760 1073741824 maxSize)
            (rotation_limit 5 100 maxFiles)
     else basic_file_sink_mt filename)
    (CreateFileSink filename rotate maxSize maxFiles).
Proof.
  intros Hne w H. rewrite CreateFileSink_nonempty by done.
  by apply allocate_below_cap.
Qed.

End Factories.

(** C5.  With the allocation counter at the cap of 64 or beyond, each of
    [CreateConsoleSink], [CreateFileSink], [CreateSyslogSink] and
    [CreateNullSink] returns the null handle and leaves the whole state, the
    counter included, as it was.  Below the cap a call returns a handle and
    leaves the counter one higher exactly when construction succeeds, and
    returns the null handle with the counter as it was when construction
    fails: that is, when the engine constructor throws or, for
    [CreateFileSink], when the file name is empty.  The handle is the sink
    asked for: the coloured or the plain console sink; a rotating file sink
    with its limits normalized or a plain file sink on the given name; a
    syslog sink under the identifier [CreateSyslogSink] settles on; the null
    sink. *)
Theorem C5_sink_factories_respect_cap :
  (∀ colored,
     at_cap_refuses (CreateConsoleSink colored)
     ∧ below_cap_counts
         (if colored then stdout_color_sink_mt else stdout_sink_mt)
         (CreateConsoleSink colored))
  ∧ (∀ filename rotate maxSize maxFiles,
       at_cap_refuses (CreateFileSink filename rotate maxSize maxFiles)
       ∧ (filename = "" →
          ∀ w, CreateFileSink filename rotate maxSize maxFiles w = (None, w))
       ∧ (filename ≠ "" →
          below_cap_counts
            (if rotate
             then rotating_file_sink_mt filename
                    (rotation_limit 10485760 1073741824 maxSize)
                    (rotation_limit 5 100 maxFiles)
             else basic_file_sink_mt filename)
            (CreateFileSink filename rotate maxSize maxFiles)))
  ∧ (∀ ident syslogOption syslogFacility enableFormatting,
       at_cap_refuses
         (CreateSyslogSink ident syslogOption syslogFacility enableFormatting)
       ∧ below_cap_counts
           (syslog_sink_mt (syslog_ident ident) syslogOption syslogFacility
              enableFormatting)
           (CreateSyslogSink ident syslogOption syslogFacility
              enableFormatting))
  ∧ at_cap_refuses CreateNullSink
  ∧ below_cap_counts null_sink_mt CreateNullSink.
Proof.
  split_and!.
  - intros colored. split;
      [apply allocate_at_cap | apply allocate_below_cap].
  - intros. split_and!;
      [apply CreateFileSink_at_cap | by intros -> |
       apply CreateFileSink_below_cap].
  - intros. split; [apply allocate_at_cap|].
    assert (CreateSyslogSink ident syslogOption syslogFacility
              enableFormatting
            = allocate
                (syslog_sink_mt (syslog_ident ident) syslogOption
                   syslogFacility enableFormatting)) as ->.
    { unfold CreateSyslogSink, syslog_ident.
      by destruct (Str.empty ident). }
    apply allocate_below_cap.
  - apply allocate_at_cap.
  - apply allocate_below_cap.
Qed.

Lemma C5_sink_factories_respect_cap_witness :
  let full := set_sinkAllocationCount (fun _ => 64%N) (boot []) in
  CreateConsoleSink true full = (None, full)
  ∧ CreateFileSink "/tmp/a.log" true 0 0 full = (None, full)
  ∧ CreateSyslogSink "" 0 0 true full = (None, full)
  ∧ CreateNullSink full = (None, full)
  ∧ (CreateNullSink (boot [])).1 = Some null_sink_mt
  ∧ g_sinkAllocationCount (CreateNullSink (boot [])).2 = 1%N
  ∧ (CreateFileSink "/tmp/a.log" true 0 0 (boot [Ok])).1
    = Some (rotating_file_sink_mt "/tmp/a.log"
              (rotation_limit 10485760 1073741824 0)
              (rotation_limit 5 100 0))
  ∧ (CreateConsoleSink true (boot [ThrowStd])).1 = None
  ∧ g_sinkAllocationCount (CreateConsoleSink true (boot [ThrowStd])).2 = 0%N.
Proof.
  intros full.
  destruct C5_sink_factories_respect_cap as (Hc & Hf & Hs & Hn & Hnb).
  assert (k_maxSinkAllocations ≤ g_sinkAllocationCount full)%N as Hfull
    by (vm_compute; discriminate).
  assert (∀ script,
            (g_sinkAllocationCount (boot script) < k_maxSinkAllocations)%N)
    as Hroom by (intros script; vm_compute; reflexivity).
  split_and!.
  - exact (proj1 (Hc true) full Hfull).
  - exact (proj1 (Hf "/tmp/a.log" true 0%N 0%N) full Hfull).
  - exact (proj1 (Hs "" 0 0 true) full Hfull).
  - exact (Hn full Hfull).
  - exact (proj1 (Hnb (boot []) (Hroom []))).
  - exact (proj2 (Hnb (boot []) (Hroom []))).
  - refine (proj1 (proj2 (proj2 (Hf "/tmp/a.log" true 0%N 0%N)) _
                     (boot [Ok]) (Hroom [Ok]))).
    discriminate.
  - exact (proj1 (proj2 (Hc true) (boot [ThrowStd]) (Hroom [ThrowStd]))).
  - exact (proj2 (proj2 (Hc true) (boot [ThrowStd]) (Hroom [ThrowStd]))).
Defined.

(** C10.  [CreateFileSink] with an empty file name returns the null handle
    and leaves the state as it was.  With a non-empty name, below the cap,
    and the engine constructor succeeding, a rotating sink is built on the
    given name with limits normalized first: a size of 0 becomes 10485760
    and a count of 0 becomes 5, a size above 1073741824 becomes 1073741824
    and a count above 100 becomes 100, and any other value is kept; the
    counter goes up by one. *)
Theorem C10_CreateFileSink_normalizes_limits
  (filename : string) (rotate : bool) (maxSize maxFiles : N) (w : World) :
  (filename = "" →
   CreateFileSink filename rotate maxSize maxFiles w = (None, w))
  ∧ (filename ≠ "" →
     (g_sinkAllocationCount w < k_maxSinkAllocations)%N →
     (next_outcome w).1 = Ok →
     ∃ size files,
       CreateFileSink filename true maxSize maxFiles w
       = (Some (rotating_file_sink_mt filename size files),
          set_sinkAllocationCount (fun n => (n + 1)%N) (next_outcome w).2)
       ∧ (maxSize = 0 → size = 10485760)%N
       ∧ (maxFiles = 0 → files = 5)%N
       ∧ (1073741824 < maxSize → size = 1073741824)%N
       ∧ (100 < maxFiles → files = 100)%N
       ∧ (0 < maxSize ≤ 1073741824 → size = maxSize)%N
       ∧ (0 < maxFiles ≤ 100 → files = maxFiles)%N).
Proof.
  split; [by intros -> |].
  intros Hne Hcap Hok. unfold CreateFileSink.
  rewrite Str_empty_false by done. rewrite allocate_unfold, Hok.
  destruct (N.leb_spec k_maxSinkAllocations (g_sinkAllocationCount w));
    [lia|].
  eexists _, _. split.
  { f_equal. unfold set_sinkAllocationCount. f_equal.
    rewrite next_outcome_count in *. by apply wrap32_succ. }
  unfold k_maxFileSizeLimit, k_maxFileCountLimit.
  repeat match goal with
  | |- context [(?a =? ?b)%N] => destruct (N.eqb_spec a b)
  | |- context [(?a <? ?b)%N] => destruct (N.ltb_spec a b)
  end; split_and!; intros; lia.
Qed.

Lemma C10_CreateFileSink_normalizes_limits_witness :
  CreateFileSink "/tmp/a.log" true 0 2000 (boot [])
  = (Some (rotating_file_sink_mt "/tmp/a.log" 10485760 100),
     set_sinkAllocationCount (fun n => (n + 1)%N) (boot [])).
Proof.
  destruct (C10_CreateFileSink_normalizes_limits "/tmp/a.log" true 0 2000
              (boot [])) as [_ H].
  destruct H as (size & files & E & Hs & _ & _ & Hf & _);
    [discriminate | reflexivity | reflexivity |].
  rewrite E. rewrite Hs, Hf by (reflexivity || (vm_compute; reflexivity)).
  reflexivity.
Defined.

(** ** LoggerRegistry: logging calls *)

Section Logging.

Variables (self : Logger) (l : logger).
Hypothesis live : m_logger self = Some l.
Variables (loc : SourceLocation_t) (level : E_LogLevel) (args : list string).

Lemma LogWithLocation_null (w : World) :
  LogWithLocation self loc level None args w = (E_INVALID_PARAMETER, w).
Proof. unfold LogWithLocation. by rewrite live. Qed.

Lemma LogWithLocation_too_long (fmt : string) (w : World) :
  (k_maxMessageLength < String.length fmt)%nat →
  LogWithLocation self loc level (Some fmt) args w
  = (E_INVALID_PARAMETER, w).
Proof.
  intros H. unfold LogWithLocation. rewrite live.
  by destruct (Nat.ltb_spec k_maxMessageLength (String.length fmt)); [|lia].
Qed.

Lemma LogWithLocation_dispatch (fmt : string) (w : World) :
  (String.length fmt <= k_maxMessageLength)%nat →
  LogWithLocation self loc level (Some fmt) args w
  = match (next_outcome w).1 with
    | Ok => (E_SUCCESS,
             set_calls
               (cons (log (name l)
                        (mk_source_loc (m_filename loc) (to_int (m_line loc))
                           (m_function loc))
                        level fmt args))
               (next_outcome w).2)
    | _ => (E_UNKNOWN_ERROR, (next_outcome w).2)
    end.
Proof.
  intros H. unfold LogWithLocation. rewrite live.
  destruct (Nat.ltb_spec k_maxMessageLength (String.length fmt)); [lia|].
  unfold try_result, bind, call, ret.
  by destruct (next_outcome w) as [[] ?].
Qed.

End Logging.

(** C6.  On a logger with a live handle, each of Trace, Debug, Info, Warn,
    Error and Critical (that is, [LogWithLocation] at that severity)
    returns [E_INVALID_PARAMETER] for a null format pointer and for a format
    string longer than 256 characters, leaving the whole state untouched,
    so that the engine is not called; and when the engine throws during
    dispatch, whatever it throws, the call returns [E_UNKNOWN_ERROR]. *)
Theorem C6_logging_calls_reject_and_swallow
  (self : Logger) (l : logger) (loc : SourceLocation_t)
  (args : list string) (w : World) :
  m_logger self = Some l →
  Forall
    (fun sev : Logger -> SourceLocation_t -> option string -> list string ->
               World -> E_Result * World =>
       sev self loc None args w = (E_INVALID_PARAMETER, w)
       ∧ (∀ fmt, (256 < String.length fmt)%nat →
                 sev self loc (Some fmt) args w = (E_INVALID_PARAMETER, w))
       ∧ (∀ fmt, (String.length fmt <= 256)%nat →
                 (next_outcome w).1 ≠ Ok →
                 (sev self loc (Some fmt) args w).1 = E_UNKNOWN_ERROR
                 ∧ calls (sev self loc (Some fmt) args w).2 = calls w))
    [Trace; Debug; Info; Warn; Error; Critical].
Proof.
  intros live.
  repeat apply Forall_cons_2; try apply Forall_nil_2;
    (split_and!;
     [ by apply LogWithLocation_null with l
     | intros fmt H; by apply LogWithLocation_too_long with l
     | intros fmt H Hthrow;
       unfold Trace, Debug, Info, Warn, Error, Critical;
       rewrite (LogWithLocation_dispatch self l live) by exact H;
       unfold next_outcome in *;
       destruct (script w) as [|[] ?]; simpl in *; done ]).
Qed.

Lemma C6_logging_calls_reject_and_swallow_witness :
  let self := mk_Logger (Some (mk_logger "svc" [stdout_color_sink_mt])) in
  let loc := mk_loc "main.cpp" 10 "main" in
  let w := boot [ThrowStd] in
  Info self loc None [] w = (E_INVALID_PARAMETER, w)
  ∧ Info self loc (Some (Str.replicate 257 "x")) [] w
    = (E_INVALID_PARAMETER, w)
  ∧ (Info self loc (Some "hello {}") ["x"] w).1 = E_UNKNOWN_ERROR.
Proof.
  intros self loc w.
  pose proof (C6_logging_calls_reject_and_swallow self
                (mk_logger "svc" [stdout_color_sink_mt]) loc [] w eq_refl)
    as H.
  pose proof (C6_logging_calls_reject_and_swallow self
                (mk_logger "svc" [stdout_color_sink_mt]) loc ["x"] w eq_refl)
    as H'.
  apply Forall_cons_1 in H as [_ H]. apply Forall_cons_1 in H as [_ H].
  apply Forall_cons_1 in H as [(Hnull & Hlong & _) _].
  apply Forall_cons_1 in H' as [_ H']. apply Forall_cons_1 in H' as [_ H'].
  apply Forall_cons_1 in H' as [(_ & _ & Hthrow) _].
  split_and!.
  - exact Hnull.
  - apply Hlong. vm_compute. lia.
  - apply Hthrow; [vm_compute; lia | discriminate].
Defined.

(** ** State properties kept by the operations *)

Section Keeps.

Context {I : World -> Prop}.

Lemma keeps_ret {A} (a : A) : keeps I (ret a).
Proof. by intros w H. Qed.

Lemma keeps_throw {A} (e : exn) : keeps I (@throw A e).
Proof. by intros w H. Qed.

Lemma keeps_gets {A} (f : World -> A) : keeps I (gets f).
Proof. by intros w H. Qed.

Lemma keeps_modify (f : World -> World) :
  (∀ w, I w → I (f w)) → keeps I (modify f).
Proof. intros Hf w H. by apply Hf. Qed.

Lemma keeps_bind {A B} (m : M A) (k : A -> M B) :
  keeps I m → (∀ a, keeps I (k a)) → keeps I (bind m k).
Proof.
  intros Hm Hk w H. unfold bind. specialize (Hm w H).
  destruct (m w) as [[e|a] w']; simpl in *; [done|].
  by apply Hk.
Qed.

(** As [keeps_bind], when the continuation is only known to keep [I] on
    the value read from a state in [I]. *)
Lemma keeps_bind_gets {A B} (f : World -> A) (k : A -> M B) :
  (∀ w, I w → I (k (f w) w).2) → keeps I (bind (gets f) k).
Proof. intros Hk w H. by apply Hk. Qed.

Lemma keeps_catch {A} (m : M A) (h : exn -> M A) :
  keeps I m → (∀ e, keeps I (h e)) → keeps I (catch m h).
Proof.
  intros Hm Hh w H. unfold catch. specialize (Hm w H).
  destruct (m w) as [[e|a] w']; simpl in *; [|done].
  by apply Hh.
Qed.

Lemma keeps_lift {A} (f : World -> A * World) : keeps I f → keeps I (lift f).
Proof.
  intros Hf w H. unfold lift. specialize (Hf w H).
  by destruct (f w).
Qed.

Lemma keeps_try_result (m : M E_Result) : keeps I m → keeps I (try_result m).
Proof.
  intros Hm w H. unfold try_result. specialize (Hm w H).
  by destruct (m w) as [[e|a] w'].
Qed.

Context `{!Insensitive I}.

Lemma keeps_next_outcome : keeps I next_outcome.
Proof.
  intros w H. unfold next_outcome.
  destruct (script w); [done|]. by apply ins_script.
Qed.

Lemma keeps_construct : keeps I construct.
Proof.
  intros w H. unfold construct. pose proof (keeps_next_outcome w H) as H'.
  by destruct (next_outcome w) as [[] ?].
Qed.

Lemma keeps_call (c : Call) : keeps I (call c).
Proof.
  intros w H. unfold call. pose proof (keeps_next_outcome w H) as H'.
  destruct (next_outcome w) as [[] ?]; simpl in *; try done.
  by apply ins_calls.
Qed.

Lemma keeps_set_colors (on : string) (table : list (E_LogLevel * string)) :
  keeps I (set_colors on table).
Proof.
  induction table as [|[lvl code] rest IH]; simpl; [apply keeps_ret|].
  apply keeps_bind; [apply keeps_call | by intros _].
Qed.

Lemma keeps_LogWithLocation self loc level fmt args :
  keeps I (LogWithLocation self loc level fmt args).
Proof.
  unfold LogWithLocation. apply keeps_try_result.
  destruct (m_logger self); [|apply keeps_ret].
  destruct fmt; [|apply keeps_ret].
  destruct (_ <? _)%nat; [apply keeps_ret|].
  apply keeps_bind; [apply keeps_call | intros _; apply keeps_ret].
Qed.

Lemma keeps_LoadFromEnv (getenv : string -> option string) :
  keeps I (fun w => let '(r, c) := LoadFromEnv getenv (config w) in
                    (r, set_config (fun _ => c) w)).
Proof.
  intros w H. destruct (LoadFromEnv getenv (config w)). by apply ins_config.
Qed.

Lemma keeps_Initialize_finish appName patternName configuredLevel
  useColors useConsole instance :
  keeps I (Initialize_finish appName patternName configuredLevel useColors
             useConsole instance).
Proof.
  unfold Initialize_finish.
  destruct (Formatters.GetPattern patternName "") as [patternResult pattern].
  apply keeps_bind; [destruct (_ && _)%bool; apply keeps_call | intros _].
  apply keeps_bind; [apply keeps_call | intros _].
  apply keeps_bind.
  { destruct (_ && _)%bool; [|apply keeps_ret].
    destruct (m_logger instance); [|apply keeps_ret].
    destruct (existsb _ _); [apply keeps_set_colors | apply keeps_ret]. }
  intros _. apply keeps_bind; [|intros _; apply keeps_ret].
  apply keeps_lift, keeps_LogWithLocation.
Qed.

Lemma keeps_SetPattern patternName : keeps I (SetPattern patternName).
Proof.
  unfold SetPattern. apply keeps_try_result.
  destruct (Formatters.GetPattern patternName "") as [result pattern].
  destruct (negb _); [apply keeps_ret|].
  destruct (Str.empty pattern); [apply keeps_ret|].
  apply keeps_bind; [apply keeps_call | intros _; apply keeps_ret].
Qed.

Lemma keeps_SetLevel level : keeps I (SetLevel level).
Proof.
  unfold SetLevel. apply keeps_try_result.
  apply keeps_bind; [apply keeps_call | intros _; apply keeps_ret].
Qed.

Lemma keeps_Flush self : keeps I (Flush self).
Proof.
  unfold Flush. apply keeps_try_result.
  destruct (m_logger self); [|apply keeps_ret].
  apply keeps_bind; [apply keeps_call | intros _; apply keeps_ret].
Qed.

End Keeps.

#[local] Instance at_least_insensitive (c : N) : Insensitive (at_least c).
Proof. by split; intros ? w H. Qed.

#[local] Instance accounted_insensitive c a reg :
  Insensitive (accounted c a reg).
Proof. by split; intros ? w H. Qed.

#[local] Instance registered_insensitive n : Insensitive (registered n).
Proof. by split; intros ? w H. Qed.

#[local] Instance default_is_insensitive d : Insensitive (default_is d).
Proof. by split; intros ? w H. Qed.

(** ** The sink allocation counter only grows *)

Section Monotone.

Variable c : N.

Lemma allocate_grows (result : Sink) (w : World) :
  (g_sinkAllocationCount w ≤ g_sinkAllocationCount (allocate result w).2)%N.
Proof.
  rewrite allocate_unfold.
  destruct (N.leb_spec k_maxSinkAllocations (g_sinkAllocationCount w));
    [done|].
  pose proof (next_outcome_count w) as Hc.
  destruct (next_outcome w) as [[] w']; simpl in *; rewrite Hc; [|done..].
  rewrite wrap32_succ by done. lia.
Qed.

Lemma keeps_allocate (result : Sink) : keeps (at_least c) (allocate result).
Proof.
  intros w H. unfold at_least in *.
  etrans; [exact H | apply allocate_grows].
Qed.

Lemma keeps_CreateConsoleSink colored :
  keeps (at_least c) (CreateConsoleSink colored).
Proof. apply keeps_allocate. Qed.

Lemma keeps_CreateFileSink filename rotate maxSize maxFiles :
  keeps (at_least c) (CreateFileSink filename rotate maxSize maxFiles).
Proof.
  unfold CreateFileSink. destruct (Str.empty filename);
    [by intros w H | apply keeps_allocate].
Qed.

Lemma keeps_CreateSyslogSink ident o f e :
  keeps (at_least c) (CreateSyslogSink ident o f e).
Proof. apply keeps_allocate. Qed.

Lemma keeps_CreateNullSink : keeps (at_least c) CreateNullSink.
Proof. apply keeps_allocate. Qed.

(** Runs the factory calls of a let-chain one after the other, carrying
    [at_least c] along. *)
Ltac factory_chain :=
  repeat match goal with
  | H : at_least c ?w |- context [CreateConsoleSink ?b ?w] =>
      let H' := fresh "H" in
      pose proof (keeps_CreateConsoleSink b w H) as H';
      destruct (CreateConsoleSink b w) as [? ?]; simpl in H'
  | H : at_least c ?w |- context [CreateFileSink ?f ?r ?s ?n ?w] =>
      let H' := fresh "H" in
      pose proof (keeps_CreateFileSink f r s n w H) as H';
      destruct (CreateFileSink f r s n w) as [? ?]; simpl in H'
  | H : at_least c ?w |- context [CreateSyslogSink ?i ?o ?f ?e ?w] =>
      let H' := fresh "H" in
      pose proof (keeps_CreateSyslogSink i o f e w H) as H';
      destruct (CreateSyslogSink i o f e w) as [? ?]; simpl in H'
  | |- context [match ?l with [] => _ | _ :: _ => _ end] =>
      destruct l; simpl
  end.

Lemma keeps_CreateMultiSink console logFile syslog :
  keeps (at_least c) (CreateMultiSink console logFile syslog).
Proof.
  intros w H. unfold CreateMultiSink.
  destruct console, (negb (Str.empty logFile)), syslog;
    factory_chain; simpl; factory_chain; simpl; assumption.
Qed.

Lemma keeps_Initialize_sinks useConsole useColors useFile useSyslog
  logFilePath fileMaxSize fileMaxCount :
  keeps (at_least c)
    (Initialize_sinks useConsole useColors useFile useSyslog logFilePath
       fileMaxSize fileMaxCount).
Proof.
  intros w H. unfold Initialize_sinks.
  destruct useConsole, (useFile && negb (Str.empty logFilePath))%bool,
    useSyslog;
    factory_chain; simpl; factory_chain; simpl; assumption.
Qed.

Lemma keeps_register_logger l : keeps (at_least c) (register_logger l).
Proof.
  intros w H. unfold register_logger. by destruct (registry w !! name l).
Qed.

Lemma keeps_bump : keeps (at_least c)
                     (modify (set_allocationCount (fun n => wrap32 (n + 1)%N))).
Proof. by intros w H. Qed.

Lemma keeps_stdout_color_mt n : keeps (at_least c) (stdout_color_mt n).
Proof.
  unfold stdout_color_mt.
  apply keeps_bind; [apply keeps_construct | intros _].
  apply keeps_bind; [apply keeps_register_logger | intros _].
  apply keeps_ret.
Qed.

Lemma keeps_ctor_handler n e : keeps (at_least c) (ctor_handler n e).
Proof.
  destruct e; simpl; try apply keeps_throw.
  apply keeps_bind; [apply keeps_stdout_color_mt | intros l].
  apply keeps_bind; [apply keeps_bump | intros _; apply keeps_ret].
Qed.

Lemma keeps_Logger_name n : keeps (at_least c) (Logger_name n).
Proof.
  unfold Logger_name. apply keeps_catch; [|apply keeps_ctor_handler].
  apply keeps_bind; [apply keeps_gets | intros count].
  destruct (_ <=? _)%N; [apply keeps_throw|].
  apply keeps_bind; [apply keeps_gets | intros [l|]]; [apply keeps_ret|].
  apply keeps_bind;
    [apply keeps_lift, keeps_CreateConsoleSink | intros [s|]];
    [|apply keeps_throw].
  apply keeps_bind; [apply keeps_construct | intros _].
  apply keeps_bind; [apply keeps_register_logger | intros _].
  apply keeps_bind; [apply keeps_bump | intros _; apply keeps_ret].
Qed.

Lemma keeps_Logger_name_file n logFilePath :
  keeps (at_least c) (Logger_name_file n logFilePath).
Proof.
  unfold Logger_name_file. apply keeps_catch; [|apply keeps_ctor_handler].
  apply keeps_bind; [apply keeps_gets | intros count].
  destruct (_ <=? _)%N; [apply keeps_throw|].
  apply keeps_bind; [apply keeps_gets | intros [l|]]; [apply keeps_ret|].
  apply keeps_bind;
    [apply keeps_lift, keeps_CreateMultiSink | intros [|s sinksVec]];
    [apply keeps_throw|].
  apply keeps_bind; [apply keeps_construct | intros _].
  apply keeps_bind; [apply keeps_register_logger | intros _].
  apply keeps_bind; [apply keeps_bump | intros _; apply keeps_ret].
Qed.

Lemma keeps_Logger_existing l : keeps (at_least c) (Logger_existing l).
Proof. destruct l; [apply keeps_ret | apply keeps_throw]. Qed.

Lemma keeps_Initialize_instance appName useConsole useColors useFile
  useSyslog logFilePath fileMaxSize fileMaxCount :
  keeps (at_least c)
    (Initialize_instance appName useConsole useColors useFile useSyslog
       logFilePath fileMaxSize fileMaxCount).
Proof.
  unfold Initialize_instance.
  apply keeps_bind; [apply keeps_gets | intros existing].
  apply keeps_bind.
  { destruct existing; [apply keeps_Logger_existing|].
    apply keeps_bind;
      [apply keeps_lift, keeps_Initialize_sinks | intros sinkVec].
    apply keeps_bind; [apply keeps_construct | intros _].
    apply keeps_bind; [apply keeps_register_logger | intros _].
    apply keeps_Logger_existing. }
  intros instance.
  apply keeps_bind; [by apply keeps_modify | intros _; apply keeps_ret].
Qed.

Lemma keeps_Initialize getenv appName logDir level :
  keeps (at_least c) (Initialize getenv appName logDir level).
Proof.
  unfold Initialize. apply keeps_try_result.
  destruct (_ || _)%bool; [apply keeps_ret|].
  apply keeps_bind; [apply keeps_lift, keeps_LoadFromEnv | intros _].
  apply keeps_bind; [apply keeps_gets | intros config].
  simpl. destruct (Initialize_logFilePath _ _); [|apply keeps_ret].
  apply keeps_bind; [apply keeps_Initialize_instance | intros instance].
  apply keeps_Initialize_finish.
Qed.

Lemma keeps_GetDefaultLogger : keeps (at_least c) GetDefaultLogger.
Proof.
  unfold GetDefaultLogger.
  apply keeps_bind; [apply keeps_gets | intros [d|]]; [apply keeps_ret|].
  apply keeps_catch.
  - apply keeps_bind; [apply keeps_Logger_name | intros d].
    apply keeps_bind; [by apply keeps_modify | intros _].
    apply keeps_bind; [|intros _; apply keeps_ret].
    apply keeps_lift, keeps_LogWithLocation.
  - intros _. apply keeps_bind; [apply keeps_gets | intros [l|]];
      [apply keeps_ret|].
    apply keeps_bind; [apply keeps_Logger_name | intros l].
    apply keeps_bind; [by apply keeps_modify | intros _; apply keeps_ret].
Qed.

Lemma keeps_Shutdown : keeps (at_least c) Shutdown.
Proof.
  unfold Shutdown, spdlog_shutdown. apply keeps_try_result.
  apply keeps_bind.
  { apply keeps_bind; [apply keeps_call | intros _].
    by apply keeps_modify. }
  intros _. apply keeps_bind; [by apply keeps_modify | intros _].
  apply keeps_ret.
Qed.

Lemma step_keeps (op : Op) (w : World) :
  at_least c w → at_least c (step op w).
Proof.
  intros H. destruct op; simpl.
  - by apply keeps_CreateConsoleSink.
  - by apply keeps_CreateFileSink.
  - by apply keeps_CreateSyslogSink.
  - by apply keeps_CreateNullSink.
  - by apply keeps_CreateMultiSink.
  - by apply keeps_Logger_name.
  - by apply keeps_Logger_name_file.
  - by apply keeps_Logger_existing.
  - by apply keeps_Initialize.
  - by apply keeps_GetDefaultLogger.
  - by apply keeps_LogWithLocation.
  - by apply keeps_SetPattern.
  - by apply keeps_SetLevel.
  - by apply keeps_Flush.
  - exact H.
  - exact H.
  - exact H.
  - by apply keeps_Shutdown.
Qed.

End Monotone.

(** C9.  No operation of the sink factories, the logger or the store other
    than [Shutdown] lowers the sink allocation counter, and so no sequence
    of such operations does: after any run without [Shutdown] the counter is
    at least what it was. *)
Theorem C9_sink_counter_never_decreases :
  (∀ op w, is_Shutdown op = false →
           (g_sinkAllocationCount w ≤ g_sinkAllocationCount (step op w))%N)
  ∧ (∀ ops w, Forall (fun op => is_Shutdown op = false) ops →
              (g_sinkAllocationCount w ≤ g_sinkAllocationCount (run ops w))%N).
Proof.
  assert (∀ op w,
            (g_sinkAllocationCount w ≤ g_sinkAllocationCount (step op w))%N)
    as Hstep.
  { intros op w.
    apply (step_keeps (g_sinkAllocationCount w) op w). unfold at_least. lia. }
  split; [by intros op w _|].
  intros ops. induction ops as [|op ops IH]; intros w Hall; simpl; [done|].
  apply Forall_cons_1 in Hall as [_ Hall].
  etrans; [apply (Hstep op w) | by apply IH].
Qed.

Lemma C9_sink_counter_never_decreases_witness :
  let ops := [ OpInitialize no_env "svc" "/tmp" E_INFO;
               OpCreateNullSink;
               OpLogger_name "worker";
               OpGetDefaultLogger;
               OpInitialize no_env "svc" "/tmp" E_INFO ] in
  (g_sinkAllocationCount (boot [Ok; ThrowStd])
   ≤ g_sinkAllocationCount (run ops (boot [Ok; ThrowStd])))%N.
Proof.
  intros ops.
  apply (proj2 C9_sink_counter_never_decreases ops (boot [Ok; ThrowStd])).
  repeat apply Forall_cons_2; try apply Forall_nil_2; reflexivity.
Defined.

(** ** LoggerRegistry: Initialize *)

Section Initialize_props.

Variables (getenv : string -> option string) (appName logDir : string)
  (level : E_LogLevel).

(** [Initialize] by cases on its two validations. *)
Lemma Initialize_cases (w : World) :
  Initialize getenv appName logDir level w
  = if (Str.empty appName || Str.empty logDir)%bool
    then (E_INVALID_PARAMETER, w)
    else
      let s :=
        Initialize_settings (config (merged getenv w)) appName logDir level in
      match Initialize_logFilePath s appName with
      | None => (E_INVALID_PARAMETER, merged getenv w)
      | Some logFilePath =>
          try_result
            (bind
               (Initialize_instance appName (useConsole s) (useColors s)
                  (useFile s) (useSyslog s) logFilePath (fileMaxSize s)
                  (fileMaxCount s))
               (Initialize_finish appName (patternName s)
                  (configuredLevel s) (useColors s) (useConsole s)))
            (merged getenv w)
      end.
Proof.
  unfold Initialize, merged.
  destruct (_ || _)%bool; [done|].
  unfold try_result at 1, bind at 1 2, lift, gets.
  destruct (LoadFromEnv getenv (config w)) as [r c]. simpl.
  destruct (Initialize_logFilePath _ _); reflexivity.
Qed.

(** With a logger already registered under [appName], the instance part
    wraps it and touches nothing but [ms_defaultInstance]. *)
Lemma Initialize_instance_existing (lg : logger) (w : World)
  useConsole useColors useFile useSyslog logFilePath fileMaxSize
  fileMaxCount :
  registry w !! appName = Some lg →
  Initialize_instance appName useConsole useColors useFile useSyslog
    logFilePath fileMaxSize fileMaxCount w
  = (inr (mk_Logger (Some lg)),
     set_defaultInstance (Some (mk_Logger (Some lg))) w).
Proof.
  intros H. unfold Initialize_instance, bind, get, gets. by rewrite H.
Qed.

(** When the instance part returns, [appName] is registered. *)
Lemma Initialize_instance_registers (w : World)
  useConsole useColors useFile useSyslog logFilePath fileMaxSize
  fileMaxCount :
  match Initialize_instance appName useConsole useColors useFile useSyslog
          logFilePath fileMaxSize fileMaxCount w with
  | (inr _, w') => registered appName w'
  | (inl _, _) => True
  end.
Proof.
  unfold Initialize_instance, bind at 1, get, gets.
  destruct (registry w !! appName) as [lg|] eqn:Hreg.
  { simpl. unfold registered. simpl. by rewrite Hreg. }
  unfold bind at 1 2, lift.
  destruct (Initialize_sinks _ _ _ _ _ _ _ w) as [sinkVec w1].
  unfold bind at 1. destruct (construct w1) as [[e|[]] w2]; [done|].
  unfold bind at 1, register_logger. simpl.
  destruct (registry w2 !! appName) eqn:Hreg2; [done|].
  simpl. unfold registered. simpl. rewrite lookup_insert_eq. eauto.
Qed.

Lemma Initialize_success_registered (w w1 : World) :
  Initialize getenv appName logDir level w = (E_SUCCESS, w1) →
  appName ≠ "" ∧ registered appName w1.
Proof.
  rewrite Initialize_cases.
  destruct appName as [|a n] eqn:Hn; [discriminate|]. rewrite <- Hn.
  destruct (_ || _)%bool; [discriminate|]. simpl.
  destruct (Initialize_logFilePath _ _) as [p|]; [|discriminate].
  unfold try_result, bind.
  match goal with
  | |- context [Initialize_instance ?a ?b ?c ?d ?e ?f ?g ?h ?w] =>
      pose proof (Initialize_instance_registers w b c d e f g h) as Hi;
      destruct (Initialize_instance a b c d e f g h w) as [[e'|inst] w']
  end; [discriminate|].
  match goal with
  | |- context [Initialize_finish ?a ?b ?c ?d ?e ?f ?w] =>
      pose proof (keeps_Initialize_finish (I := registered appName)
                    a b c d e f w Hi) as Hf;
      destruct (Initialize_finish a b c d e f w) as [[e'|r] w'']
  end; [discriminate|].
  intros [= -> ->]. split; [by rewrite Hn | exact Hf].
Qed.

(** With a logger registered under [appName], [Initialize] leaves both
    allocation counters and the registry as they were. *)
Lemma Initialize_keeps_accounted (c a : N) (reg : gmap string logger)
  (lg : logger) :
  reg !! appName = Some lg →
  keeps (accounted c a reg) (Initialize getenv appName logDir level).
Proof.
  intros Hlg w Hw. rewrite Initialize_cases.
  destruct (_ || _)%bool; [exact Hw|]. simpl.
  destruct (Initialize_logFilePath _ _) as [p|]; [|exact Hw].
  apply keeps_try_result; [|exact Hw].
  apply keeps_bind; [|intros inst; apply keeps_Initialize_finish].
  intros w' Hw'. rewrite (Initialize_instance_existing lg).
  - exact Hw'.
  - destruct Hw' as (_ & _ & ->). exact Hlg.
Qed.

(** With a logger registered under [appName], a successful [Initialize]
    leaves the wrapper of that logger as the default instance. *)
Lemma Initialize_success_wraps (lg : logger) (w w2 : World) :
  registry w !! appName = Some lg →
  Initialize getenv appName logDir level w = (E_SUCCESS, w2) →
  default_is (mk_Logger (Some lg)) w2.
Proof.
  intros Hlg. rewrite Initialize_cases.
  destruct (_ || _)%bool; [discriminate|]. simpl.
  destruct (Initialize_logFilePath _ _) as [p|]; [|discriminate].
  unfold try_result, bind.
  rewrite (Initialize_instance_existing lg) by exact Hlg.
  match goal with
  | |- context [Initialize_finish ?a ?b ?c ?d ?e ?f ?w] =>
      pose proof (keeps_Initialize_finish
                    (I := default_is (mk_Logger (Some lg)))
                    a b c d e f w eq_refl) as Hf;
      destruct (Initialize_finish a b c d e f w) as [[e'|r] w'']
  end; [discriminate|].
  by intros [= -> ->].
Qed.

End Initialize_props.

(** C4.  After an [Initialize] that succeeded, the application name is
    non-empty and registered in the engine, and a second [Initialize] with
    the same application name, whatever its other arguments and the
    environment, changes neither the sink allocation counter nor the logger
    allocation counter nor the registry; when it succeeds, the default
    instance is the wrapper of the logger that was already registered. *)
Theorem C4_repeat_Initialize_reuses_logger
  (getenv : string -> option string) (appName logDir : string)
  (level : E_LogLevel) (w w1 : World) :
  Initialize getenv appName logDir level w = (E_SUCCESS, w1) →
  appName ≠ ""
  ∧ ∃ lg, registry w1 !! appName = Some lg
          ∧ ∀ getenv' logDir' level',
              let second := Initialize getenv' appName logDir' level' w1 in
              g_sinkAllocationCount second.2 = g_sinkAllocationCount w1
              ∧ ms_allocationCount second.2 = ms_allocationCount w1
              ∧ registry second.2 = registry w1
              ∧ (second.1 = E_SUCCESS →
                 ms_defaultInstance second.2 = Some (mk_Logger (Some lg))).
Proof.
  intros Hfirst.
  destruct (Initialize_success_registered _ _ _ _ _ _ Hfirst)
    as [Hne [lg Hlg]].
  split; [exact Hne|]. exists lg. split; [exact Hlg|].
  intros getenv' logDir' level' second.
  pose proof (Initialize_keeps_accounted getenv' appName logDir' level'
                (g_sinkAllocationCount w1) (ms_allocationCount w1)
                (registry w1) lg Hlg w1) as Hacc.
  destruct Hacc as (Hc & Ha & Hr); [done|].
  split_and!; try done.
  intros Hok. subst second.
  destruct (Initialize getenv' appName logDir' level' w1) as [r w2] eqn:E.
  simpl in Hok. subst r.
  exact (Initialize_success_wraps getenv' appName logDir' level' lg w1 w2
           Hlg E).
Qed.

Lemma C4_repeat_Initialize_reuses_logger_witness :
  let first := Initialize no_env "svc" "/tmp" E_INFO (boot []) in
  let second := Initialize no_env "svc" "/tmp" E_INFO first.2 in
  first.1 = E_SUCCESS
  ∧ g_sinkAllocationCount first.2 = 2%N
  ∧ g_sinkAllocationCount second.2 = g_sinkAllocationCount first.2
  ∧ ms_allocationCount second.2 = ms_allocationCount first.2
  ∧ registry second.2 = registry first.2.
Proof.
  intros first second.
  destruct (C4_repeat_Initialize_reuses_logger no_env "svc" "/tmp" E_INFO
              (boot []) first.2) as [_ (lg & _ & H)];
    [vm_compute; reflexivity|].
  destruct (H no_env "/tmp" E_INFO) as (Hc & Ha & Hr & _).
  split_and!; [vm_compute; reflexivity | vm_compute; reflexivity | ..];
    assumption.
Defined.

(** *** The log-file path *)

Lemma length_append (a b : string) :
  String.length (a +:+ b) = (String.length a + String.length b)%nat.
Proof. induction a; [done|]. rewrite append_cons. simpl. by rewrite IHa. Qed.

(** What the bounds check of [Initialize] lets through, and how long the
    path it then builds is: the application name is counted once by the
    check and occurs twice in the path. *)
Lemma Initialize_logFilePath_length (s : Settings) (appName path : string) :
  useFile s = true →
  Initialize_logFilePath s appName = Some path →
  (String.length (configuredLogDir s) + String.length appName + 6 <= 255)%nat
  ∧ String.length path
    = (String.length (configuredLogDir s) + 2 * String.length appName + 6)%nat.
Proof.
  intros Hf. unfold Initialize_logFilePath. rewrite Hf.
  destruct (Nat.ltb_spec 255
              (String.length (configuredLogDir s) + String.length appName
               + 4 + 2)); [discriminate|].
  intros [= <-]. split; [lia|].
  rewrite !length_append. simpl. lia.
Qed.

(** C3.  At an application name of 125 characters and the directory /tmp,
    on a fresh process with no environment, [Initialize] passes its bounds
    check, succeeds, and registers a logger whose file sink is opened on a
    path of 260 characters, beyond the bound of 255. *)
Lemma C3_Initialize_path_exceeds_255 :
  let r := Initialize no_env long_appName "/tmp" E_INFO (boot []) in
  let path := "/tmp/" +:+ long_appName +:+ "/" +:+ long_appName +:+ ".log" in
  r.1 = E_SUCCESS
  ∧ registry r.2 !! long_appName
    = Some (mk_logger long_appName
              [stdout_color_sink_mt; rotating_file_sink_mt path 10485760 5])
  ∧ String.length path = 260%nat
  ∧ (255 < String.length path)%nat.
Proof. vm_compute. split_and!; try reflexivity. lia. Qed.

(** ** ConfigurationStore: the section cap *)

Section LoadFromFile_props.

Lemma LoadFromFile_line_header (line cur n : string) (c : LogConfig) :
  header_name line = Some n →
  LoadFromFile_line line cur c
  = if (k_maxSections <=? g_sectionCount c)%N
    then Return E_RESOURCE_UNAVAILABLE c
    else match m_configData c !! n with
         | None =>
             Continue (n,
               {| m_configData := <[n := ∅]> (m_configData c);
                  g_sectionCount := wrap32 (g_sectionCount c + 1) |})
         | Some _ => Continue (n, c)
         end.
Proof.
  unfold header_name, LoadFromFile_line.
  destruct (_ || _)%bool; [discriminate|].
  destruct (Str.find_first_not_of_blank line); [|discriminate].
  simpl. by intros ->.
Qed.

Lemma index_present (m : gmap string (gmap string string)) (s : string) :
  is_Some (m !! s) → ∃ e, index m s = (e, m) ∧ m !! s = Some e.
Proof. intros [e He]. exists e. unfold index. by rewrite He. Qed.

(** A line that is no header leaves the current section, the counter and
    the set of sections as they are. *)
Lemma LoadFromFile_line_other (line cur : string) (c : LogConfig) :
  header_name line = None → is_Some (m_configData c !! cur) →
  ∃ c', LoadFromFile_line line cur c = Continue (cur, c')
        ∧ g_sectionCount c' = g_sectionCount c
        ∧ dom (m_configData c') = dom (m_configData c).
Proof.
  intros Hh Hcur. unfold header_name in Hh. unfold LoadFromFile_line.
  destruct (_ || _)%bool; [by eauto|].
  destruct (Str.find_first_not_of_blank line); [|by eauto].
  simpl in *. rewrite Hh.
  destruct (match_keyValueRegex _) as [[key value]|]; [|by eauto].
  destruct (trimmed key); [|by eauto].
  destruct (index_present _ _ Hcur) as (e & -> & He).
  destruct (_ <=? _)%N; eexists; split_and!; try reflexivity.
  simpl. apply dom_insert_lookup_L. exact Hcur.
Qed.

Lemma names_fresh_after_insert (m : gmap string (gmap string string))
  (n : string) (names : list string) :
  NoDup (n :: names) →
  (∀ x, x ∈ n :: names → m !! x = None) →
  ∀ x, x ∈ names → <[n := ∅]> m !! x = None.
Proof.
  intros Hnd Hfresh x Hx. apply NoDup_cons in Hnd as [Hn _].
  rewrite lookup_insert_ne; [|by intros ->].
  apply Hfresh. by right.
Qed.

Lemma omap_header_cons (line : string) (rest : list string) :
  omap header_name (line :: rest)
  = match header_name line with
    | Some n => n :: omap header_name rest
    | None => omap header_name rest
    end.
Proof. reflexivity. Qed.

Lemma LoadFromFile_loop_cons (line : string) (rest : list string)
  (cur : string) (c : LogConfig) :
  LoadFromFile_loop (line :: rest) cur c
  = match LoadFromFile_line line cur c with
    | Continue (cur, c) => LoadFromFile_loop rest cur c
    | Return r c => (r, c)
    end.
Proof. reflexivity. Qed.

(** From a store whose counter is within the cap, a file with more new,
    pairwise distinct headers than there is room for is read up to the
    first header that no longer fits. *)
Lemma LoadFromFile_loop_overflows (lines : list string) :
  ∀ (cur : string) (c : LogConfig),
    is_Some (m_configData c !! cur) →
    (g_sectionCount c ≤ k_maxSections)%N →
    NoDup (omap header_name lines) →
    (∀ n, n ∈ omap header_name lines → m_configData c !! n = None) →
    (N.to_nat (k_maxSections - g_sectionCount c)
     < length (omap header_name lines))%nat →
    ∃ pre h post c',
      lines = (pre ++ h :: post)%list
      ∧ omap header_name pre
        = take (N.to_nat (k_maxSections - g_sectionCount c))
            (omap header_name lines)
      ∧ is_Some (header_name h)
      ∧ LoadFromFile_loop pre cur c = (E_SUCCESS, c')
      ∧ LoadFromFile_loop lines cur c = (E_RESOURCE_UNAVAILABLE, c')
      ∧ dom (m_configData c')
        = dom (m_configData c)
          ∪ list_to_set
              (take (N.to_nat (k_maxSections - g_sectionCount c))
                 (omap header_name lines)).
Proof.
  induction lines as [|line rest IH]; intros cur c Hcur Hle Hnd Hfresh Hlen.
  { simpl in Hlen. lia. }
  rewrite omap_header_cons in *.
  rewrite LoadFromFile_loop_cons.
  destruct (header_name line) as [n|] eqn:Hh.
  - (* a header *)
    rewrite (LoadFromFile_line_header line cur n c Hh).
    destruct (N.leb_spec k_maxSections (g_sectionCount c)) as [Hfull|Hroom].
    + (* no room: this is the line that fails *)
      exists [], line, rest, c.
      replace (k_maxSections - g_sectionCount c)%N with 0%N by lia.
      rewrite Hh. simpl. split_and!; try done.
      by rewrite (right_id_L ∅ (∪)).
    + (* room: the section is created *)
      rewrite (Hfresh n) by left.
      set (c1 := {| m_configData := <[n := ∅]> (m_configData c);
                    g_sectionCount := wrap32 (g_sectionCount c + 1) |}).
      assert (g_sectionCount c1 = (g_sectionCount c + 1)%N) as Hc1.
      { simpl. unfold wrap32, k_maxSections in *.
        apply N.mod_small. lia. }
      assert (N.to_nat (k_maxSections - g_sectionCount c)
              = S (N.to_nat (k_maxSections - g_sectionCount c1))) as Hk.
      { rewrite Hc1. unfold k_maxSections in *. lia. }
      destruct (IH n c1) as (pre & h & post & c' & -> & Hpre & Hhh & Hp
                              & Hl & Hdom).
      * simpl. rewrite lookup_insert_eq. eauto.
      * rewrite Hc1. unfold k_maxSections in *. lia.
      * by apply NoDup_cons in Hnd as [_ ?].
      * simpl. by apply names_fresh_after_insert.
      * rewrite Hk in Hlen. cbn [length] in Hlen. lia.
      * exists (line :: pre), h, post, c'.
        rewrite Hk, omap_header_cons, Hh, LoadFromFile_loop_cons,
          (LoadFromFile_line_header line cur n c Hh).
        destruct (N.leb_spec k_maxSections (g_sectionCount c)); [lia|].
        rewrite (Hfresh n) by left. fold c1.
        rewrite firstn_cons.
        split_and!; try done.
        -- by rewrite Hpre.
        -- rewrite Hdom. simpl. rewrite dom_insert_L.
           rewrite (comm_L (∪) {[n]} (dom (m_configData c))).
           by rewrite <- (assoc_L (∪)).
  - (* any other line *)
    destruct (LoadFromFile_line_other line cur c Hh Hcur)
      as (c1 & Hstep & Hcount & Hdom1).
    rewrite Hstep.
    assert (∀ x, m_configData c1 !! x = None ↔ m_configData c !! x = None)
      as Hsame.
    { intros x. rewrite <- !not_elem_of_dom. by rewrite Hdom1. }
    destruct (IH cur c1) as (pre & h & post & c' & -> & Hpre & Hhh & Hp
                             & Hl & Hdom).
    + apply elem_of_dom. rewrite Hdom1. by apply elem_of_dom.
    + by rewrite Hcount.
    + done.
    + intros x Hx. apply Hsame. by apply Hfresh.
    + by rewrite Hcount.
    + rewrite Hcount in Hpre, Hdom.
      exists (line :: pre), h, post, c'.
      rewrite omap_header_cons, Hh, LoadFromFile_loop_cons, Hstep.
      split_and!; try done. by rewrite Hdom, Hdom1.
Qed.

End LoadFromFile_props.

(** C2 (as amended).  The store is created holding the global section, which
    counts as the first of its 32 sections.  For every configuration file
    whose section headers name pairwise distinct sections other than global
    and number more than 31, [LoadFromFile] on the newly created store
    accepts exactly the first 31 of them, returns [E_RESOURCE_UNAVAILABLE]
    at the 32nd header, and returns the store exactly as the lines before
    that header left it: 32 sections, nothing rolled back. *)
Theorem C2_LoadFromFile_section_cap
  (fs : string -> option string) (configFile text : string) :
  configFile ≠ "" → fs configFile = Some text →
  NoDup (omap header_name (getlines text)) →
  "global" ∉ omap header_name (getlines text) →
  (31 < length (omap header_name (getlines text)))%nat →
  ∃ pre h post c',
    getlines text = (pre ++ h :: post)%list
    ∧ omap header_name pre = take 31 (omap header_name (getlines text))
    ∧ header_name h = omap header_name (getlines text) !! 31%nat
    ∧ LoadFromFile_loop pre "global" LogConfig_ctor = (E_SUCCESS, c')
    ∧ LoadFromFile fs configFile LogConfig_ctor = (E_RESOURCE_UNAVAILABLE, c')
    ∧ dom (m_configData c')
      = {["global"]}
        ∪ list_to_set (take 31 (omap header_name (getlines text)))
    ∧ size (m_configData c') = 32%nat.
Proof.
  intros Hne Hfs Hnd Hglobal Hlen.
  assert (is_Some (m_configData LogConfig_ctor !! "global")) as Hcur
    by (simpl; rewrite lookup_singleton_eq; eauto).
  assert (g_sectionCount LogConfig_ctor ≤ k_maxSections)%N as Hle
    by (vm_compute; discriminate).
  assert (∀ n, n ∈ omap header_name (getlines text) →
               m_configData LogConfig_ctor !! n = None) as Hfresh.
  { intros n Hn. simpl. apply lookup_singleton_ne. by intros <-. }
  assert (N.to_nat (k_maxSections - g_sectionCount LogConfig_ctor) = 31%nat)
    as Hk by reflexivity.
  destruct (LoadFromFile_loop_overflows (getlines text) "global"
              LogConfig_ctor Hcur Hle Hnd Hfresh)
    as (pre & h & post & c' & Hsplit & Hpre & [n Hh] & Hp & Hl & Hdom).
  { rewrite Hk. exact Hlen. }
  rewrite Hk in Hpre, Hdom.
  simpl in Hdom. rewrite dom_singleton_L in Hdom.
  {     exists pre, h, post, c'. split_and!; try done.
    + rewrite Hh. symmetry.
      rewrite Hsplit, omap_app. simpl. rewrite Hh, Hpre.
      rewrite lookup_app_r; rewrite length_take_le by lia; [|lia].
      by rewrite Nat.sub_diag.
    + unfold LoadFromFile. by rewrite Str_empty_false, Hfs.
    + rewrite <- size_dom, Hdom.
      rewrite size_union, size_singleton.
      * rewrite size_list_to_set
          by (eapply sublist_NoDup; [exact Hnd | apply sublist_take]).
        rewrite length_take_le by lia. done.
      * apply disjoint_singleton_l. rewrite elem_of_list_to_set.
        intros Hin. apply Hglobal.
        apply elem_of_take in Hin as (i & Hi & _).
        by eapply list_elem_of_lookup_2. }
Qed.

Lemma C2_LoadFromFile_section_cap_witness :
  (LoadFromFile (one_file (headers_text 32)) "vsnlogger.conf" LogConfig_ctor).1
  = E_RESOURCE_UNAVAILABLE.
Proof.
  destruct (C2_LoadFromFile_section_cap (one_file (headers_text 32))
              "vsnlogger.conf" (headers_text 32))
    as (pre & h & post & c' & _ & _ & _ & _ & E & _);
    [discriminate | reflexivity | compute_done | compute_done
    | vm_compute; lia |].
  by rewrite E.
Defined.

(** C2, as first stated, fails on a file of 33 distinct headers loaded into
    the newly created store: [LoadFromFile] returns
    [E_RESOURCE_UNAVAILABLE] and the section named by the 32nd header has
    not been accepted. *)
Lemma C2_33_headers_counterexample :
  let names := omap header_name (getlines (headers_text 33)) in
  let r := LoadFromFile (one_file (headers_text 33)) "vsnlogger.conf"
             LogConfig_ctor in
  length names = 33%nat
  ∧ NoDup names
  ∧ r.1 = E_RESOURCE_UNAVAILABLE
  ∧ names !! 31%nat = Some (Str.replicate 32 "s")
  ∧ m_configData r.2 !! Str.replicate 32 "s" = None
  ∧ size (m_configData r.2) = 32%nat.
Proof.
  intros names r. split_and!; try (vm_compute; reflexivity).
  compute_done.
Qed.

(** * Further properties *)

(** Membership and non-membership in a list written out. *)
Ltac in_list :=
  repeat first [apply list_elem_of_here | apply list_elem_of_further].
Ltac not_in_list H :=
  repeat (apply elem_of_cons in H as [H|H];
          [first [done | discriminate H | congruence]|]);
  by apply elem_of_nil in H.

(** ** ConfigurationStore: how the store changes *)

Section Moves.

Lemma LogConfig_eta (c : LogConfig) :
  {| m_configData := m_configData c; g_sectionCount := g_sectionCount c |} = c.
Proof. by destruct c. Qed.

Lemma length_substr_0 (n : nat) (s : string) :
  (String.length (Str.substr s 0 n) <= n)%nat.
Proof.
  unfold Str.substr. revert n.
  induction s as [|a s IH]; intros [|n]; simpl; try lia.
  specialize (IH n). lia.
Qed.

Lemma truncate_length (n : nat) (s : string) :
  (String.length (truncate n s) <= n)%nat.
Proof.
  unfold truncate. destruct (Nat.ltb_spec n (String.length s)); [|lia].
  apply length_substr_0.
Qed.

(** The section-creation step shared by [LoadFromEnv] and [Set]. *)
Lemma create_moves (c : LogConfig) (section : string) :
  m_configData c !! section = None →
  (g_sectionCount c < k_maxSections)%N →
  config_move c
    {| m_configData := <[section := ∅]> (m_configData c);
       g_sectionCount := wrap32 (g_sectionCount c + 1) |}.
Proof.
  intros Hn Hlt.
  replace (wrap32 (g_sectionCount c + 1)) with (g_sectionCount c + 1)%N.
  - by apply move_create.
  - symmetry. unfold wrap32, k_maxSections in *. apply N.mod_small. lia.
Qed.

(** One line of a configuration file makes at most one move, and keeps the
    current section an existing one. *)
Lemma LoadFromFile_line_moves (line cur : string) (c : LogConfig) :
  is_Some (m_configData c !! cur) →
  match LoadFromFile_line line cur c with
  | Continue (cur', c') =>
      rtc config_move c c' ∧ is_Some (m_configData c' !! cur')
  | Return r c' => r = E_RESOURCE_UNAVAILABLE ∧ c' = c
  end.
Proof.
  intros Hcur. unfold LoadFromFile_line.
  destruct (_ || _)%bool; [done|].
  destruct (Str.find_first_not_of_blank line); [|done].
  destruct (match_sectionRegex _) as [sec|].
  - destruct (N.leb_spec k_maxSections (g_sectionCount c)); [done|].
    destruct (m_configData c !! sec) eqn:Hsec; [by eauto|].
    split; [apply rtc_once; by apply create_moves|].
    simpl. rewrite lookup_insert_eq. eauto.
  - destruct (match_keyValueRegex _) as [[key value]|]; [|done].
    destruct (trimmed key) as [key'|]; [|done].
    destruct (index_present _ _ Hcur) as (e & -> & He).
    destruct (N.leb_spec k_maxEntriesPerSection (N.of_nat (size e))).
    + rewrite LogConfig_eta. done.
    + split.
      * apply rtc_once. apply move_put; try done;
          [apply truncate_length | apply truncate_length | by left].
      * simpl. rewrite lookup_insert_eq. eauto.
Qed.

Lemma LoadFromFile_loop_moves (lines : list string) :
  ∀ (cur : string) (c : LogConfig),
    is_Some (m_configData c !! cur) →
    rtc config_move c (LoadFromFile_loop lines cur c).2.
Proof.
  induction lines as [|line rest IH]; intros cur c Hcur; [done|].
  rewrite LoadFromFile_loop_cons.
  pose proof (LoadFromFile_line_moves line cur c Hcur) as H.
  destruct (LoadFromFile_line line cur c) as [[cur' c']|r c'].
  - destruct H as [H1 H2]. etrans; [exact H1 | by apply IH].
  - by destruct H as [_ ->].
Qed.

Lemma LoadFromFile_moves fs configFile (c : LogConfig) :
  is_Some (m_configData c !! "global") →
  rtc config_move c (LoadFromFile fs configFile c).2.
Proof.
  intros Hg. unfold LoadFromFile.
  destruct (Str.empty configFile); [done|].
  destruct (fs configFile); [|done].
  by apply LoadFromFile_loop_moves.
Qed.

Lemma LoadFromEnv_var_moves getenv envVar foundAny (c : LogConfig) :
  match LoadFromEnv_var getenv envVar foundAny c with
  | Continue (_, c') => rtc config_move c c'
  | Return r c' => r = E_RESOURCE_UNAVAILABLE ∧ c' = c
  end.
Proof.
  unfold LoadFromEnv_var.
  destruct (getenv envVar) as [value|]; [|done].
  destruct (match_envRegex envVar) as [[section configKey]|]; [|done].
  destruct (m_configData c !! Str.lower section) as [e|] eqn:Hs.
  - unfold index. rewrite Hs.
    destruct (N.leb_spec k_maxEntriesPerSection (N.of_nat (size e))).
    + by rewrite LogConfig_eta.
    + apply rtc_once. apply move_put; try done;
        [apply truncate_length | apply truncate_length | by left].
  - destruct (N.leb_spec k_maxSections (g_sectionCount c)); [done|].
    unfold index. simpl. rewrite lookup_insert_eq. simpl.
    eapply rtc_l; [by apply create_moves|].
    match goal with
    | |- rtc config_move ?c1 _ =>
        apply rtc_once; apply (move_put c1 (Str.lower section) ∅); simpl
    end;
      [apply lookup_insert_eq | apply truncate_length | apply truncate_length
      | left; rewrite map_size_empty; done].
Qed.

Lemma LoadFromEnv_loop_moves getenv (vars : list string) :
  ∀ foundAny (c : LogConfig),
    rtc config_move c (LoadFromEnv_loop getenv vars foundAny c).2.
Proof.
  induction vars as [|v rest IH]; intros foundAny c; simpl.
  { by destruct foundAny. }
  pose proof (LoadFromEnv_var_moves getenv v foundAny c) as H.
  destruct (LoadFromEnv_var getenv v foundAny c) as [[f c']|r c'].
  - etrans; [exact H | apply IH].
  - by destruct H as [_ ->].
Qed.

Lemma LoadFromEnv_moves getenv (c : LogConfig) :
  rtc config_move c (LoadFromEnv getenv c).2.
Proof. apply LoadFromEnv_loop_moves. Qed.

Lemma Set_moves (c : LogConfig) (section key value : string) :
  rtc config_move c (Set_ c section key value).2.
Proof.
  unfold Set_. destruct (_ || _)%bool; [done|].
  destruct (Nat.ltb_spec k_maxKeyLength (String.length key)); [done|].
  destruct (Nat.ltb_spec k_maxValueLength (String.length value)); [done|].
  simpl. destruct (m_configData c !! section) as [e|] eqn:Hs.
  - unfold index. rewrite Hs.
    destruct (e !! key) as [old|] eqn:Hk.
    + rewrite bool_decide_eq_false_2 by done. simpl.
      apply rtc_once. apply move_put; try done. right. eauto.
    + rewrite bool_decide_eq_true_2 by done. simpl.
      destruct (N.leb_spec k_maxEntriesPerSection (N.of_nat (size e))).
      * by rewrite LogConfig_eta.
      * apply rtc_once. apply move_put; try done. by left.
  - destruct (N.leb_spec k_maxSections (g_sectionCount c)); [done|].
    unfold index. simpl. rewrite lookup_insert_eq. simpl.
    rewrite bool_decide_eq_true_2 by done. simpl.
    eapply rtc_l; [by apply create_moves|].
    match goal with
    | |- rtc config_move ?c1 _ =>
        apply rtc_once; apply (move_put c1 section ∅); simpl
    end;
      [apply lookup_insert_eq | done | done
      | left; rewrite map_size_empty; done].
Qed.

Lemma config_move_keeps_global (c c' : LogConfig) :
  config_move c c' →
  is_Some (m_configData c !! "global") →
  is_Some (m_configData c' !! "global").
Proof.
  intros [s Hn Hlt | s e k v Hs Hk Hv Hroom] Hg; simpl.
  - rewrite lookup_insert_ne; [done | by intros ->; rewrite Hn in Hg; destruct Hg].
  - destruct (decide (s = "global")) as [->|Hne].
    + rewrite lookup_insert_eq. eauto.
    + by rewrite lookup_insert_ne.
Qed.

Lemma config_step_moves (op : ConfigOp) (c : LogConfig) :
  is_Some (m_configData c !! "global") →
  rtc config_move c (config_step op c).
Proof.
  intros Hg. destruct op; simpl.
  - by apply LoadFromFile_moves.
  - apply LoadFromEnv_moves.
  - apply Set_moves.
Qed.

Lemma rtc_config_move_keeps_global (c c' : LogConfig) :
  rtc config_move c c' →
  is_Some (m_configData c !! "global") →
  is_Some (m_configData c' !! "global").
Proof.
  induction 1 as [|c c1 c' Hm _ IH]; [done|].
  intros Hg. apply IH. by eapply config_move_keeps_global.
Qed.

Lemma config_run_moves (ops : list ConfigOp) :
  ∀ c, is_Some (m_configData c !! "global") →
       rtc config_move c (config_run ops c).
Proof.
  induction ops as [|op ops IH]; intros c Hg; simpl; [done|].
  pose proof (config_step_moves op c Hg) as H1.
  etrans; [exact H1|]. apply IH.
  by eapply rtc_config_move_keeps_global.
Qed.

End Moves.

(** ** ConfigurationStore: what every change keeps *)

Section Store_invariants.

Lemma stored_create (c : LogConfig) (section s k : string) :
  m_configData c !! section = None →
  (<[section := ∅]> (m_configData c) !! s ≫= (.!! k))
  = stored c s k.
Proof.
  intros Hn. unfold stored. destruct (decide (section = s)) as [->|Hne].
  - by rewrite lookup_insert_eq, Hn.
  - by rewrite lookup_insert_ne.
Qed.

Lemma stored_put (c : LogConfig) (section key value s k : string)
  (entries : gmap string string) :
  m_configData c !! section = Some entries →
  (<[section := <[key := value]> entries]> (m_configData c) !! s ≫= (.!! k))
  = if decide (s = section ∧ k = key) then Some value else stored c s k.
Proof.
  intros Hs. unfold stored. destruct (decide (section = s)) as [<-|Hne].
  - rewrite lookup_insert_eq, Hs. simpl.
    destruct (decide (key = k)) as [<-|Hk].
    + rewrite lookup_insert_eq. by rewrite decide_True.
    + rewrite lookup_insert_ne by done. rewrite decide_False; [done|].
      intros [_ ->]. done.
  - rewrite lookup_insert_ne by done. rewrite decide_False; [done|].
    intros [-> _]. done.
Qed.

Lemma config_move_sections (c c' : LogConfig) :
  config_move c c' → sections_accounted c → sections_accounted c'.
Proof.
  intros Hm (Hcount & Hcap & Hg).
  split_and!; [| |by eapply config_move_keeps_global].
  - destruct Hm as [s Hn Hlt | s e k v Hs Hk Hv Hroom]; simpl.
    + rewrite map_size_insert_None by done. lia.
    + rewrite map_size_insert_Some by eauto. done.
  - destruct Hm as [s Hn Hlt | s e k v Hs Hk Hv Hroom]; simpl; lia.
Qed.

Lemma config_move_entries (c c' : LogConfig) :
  config_move c c' → entries_bounded c → entries_bounded c'.
Proof.
  intros [s Hn Hlt | s e k v Hs Hk Hv Hroom] Hb s' e' He'; simpl in He'.
  - destruct (decide (s = s')) as [->|Hne].
    + rewrite lookup_insert_eq in He'. injection He' as <-.
      split; [rewrite map_size_empty; done | by intros ? ? ?].
    + rewrite lookup_insert_ne in He' by done. by apply (Hb s').
  - destruct (decide (s = s')) as [->|Hne].
    + rewrite lookup_insert_eq in He'. injection He' as <-.
      destruct (Hb _ _ Hs) as [Hsize Hlen]. split.
      * rewrite map_size_insert. destruct (e !! k) eqn:Hek; simpl; [done|].
        destruct Hroom as [Hroom|[? ?]]; [|congruence].
        unfold k_maxEntriesPerSection in *. lia.
      * intros k' v' Hkv. destruct (decide (k = k')) as [->|Hk'].
        -- rewrite lookup_insert_eq in Hkv. by injection Hkv as <-.
        -- rewrite lookup_insert_ne in Hkv by done. by eapply Hlen.
    + rewrite lookup_insert_ne in He' by done. by apply (Hb s').
Qed.

Lemma config_move_nothing_deleted (c c' : LogConfig) :
  config_move c c' → nothing_deleted c c'.
Proof.
  intros [s Hn Hlt | s e k v Hs Hk Hv Hroom] s' k' Hsome;
    unfold stored at 1; simpl.
  - by rewrite stored_create.
  - rewrite (stored_put c s k v s' k' e Hs). case_decide; eauto.
Qed.

Lemma rtc_config_move_ind (P : LogConfig -> Prop) (c c' : LogConfig) :
  (∀ a b, config_move a b → P a → P b) →
  rtc config_move c c' → P c → P c'.
Proof. intros Hstep. induction 1; eauto. Qed.

Lemma rtc_nothing_deleted (c c' : LogConfig) :
  rtc config_move c c' → nothing_deleted c c'.
Proof.
  induction 1 as [|c c1 c' Hm _ IH]; [by intros ? ?|].
  intros s k H. apply IH. by apply (config_move_nothing_deleted c c1).
Qed.

End Store_invariants.

(** X1.  The store as constructed has its section counter equal to the
    number of sections, at most 32 of them, and a global section; and every
    sequence of [LoadFromFile], [LoadFromEnv] and [Set] calls keeps it so. *)
Theorem X1_section_count_is_number_of_sections :
  sections_accounted LogConfig_ctor
  ∧ ∀ ops c, sections_accounted c → sections_accounted (config_run ops c).
Proof.
  split.
  - split_and!; [reflexivity | vm_compute; discriminate |].
    simpl. rewrite lookup_singleton_eq. eauto.
  - intros ops c H.
    eapply (rtc_config_move_ind sections_accounted);
      [apply config_move_sections | | exact H].
    apply config_run_moves. apply H.
Qed.

Lemma X1_section_count_is_number_of_sections_witness :
  sections_accounted
    (config_run [CSet "app" "k" "v";
                 CLoadFromFile (one_file (headers_text 40)) "vsnlogger.conf";
                 CSet "late" "k" "v"]
       LogConfig_ctor).
Proof.
  destruct X1_section_count_is_number_of_sections as [H0 H].
  apply H. exact H0.
Defined.

(** X2.  Every sequence of [LoadFromFile], [LoadFromEnv] and [Set] calls
    keeps every section at 64 entries at most, every stored key at 64
    characters at most and every stored value at 256 characters at most. *)
Theorem X2_entries_stay_bounded (ops : list ConfigOp) (c : LogConfig) :
  is_Some (m_configData c !! "global") →
  entries_bounded c → entries_bounded (config_run ops c).
Proof.
  intros Hg H.
  eapply (rtc_config_move_ind entries_bounded);
    [apply config_move_entries | | exact H].
  by apply config_run_moves.
Qed.

Lemma X2_entries_stay_bounded_witness :
  entries_bounded
    (config_run [CSet "app" (Str.replicate 64 "k") (Str.replicate 256 "v");
                 CLoadFromFile
                   (one_file (Str.replicate 100 "k" +:+ "="
                              +:+ Str.replicate 300 "v"))
                   "vsnlogger.conf"]
       LogConfig_ctor).
Proof.
  apply X2_entries_stay_bounded.
  - simpl. rewrite lookup_singleton_eq. eauto.
  - intros s e He. simpl in He.
    apply lookup_singleton_Some in He as [_ <-].
    split; [rewrite map_size_empty; done | by intros ? ? ?].
Defined.

(** X3.  No sequence of [LoadFromFile], [LoadFromEnv] and [Set] calls ever
    deletes an entry: a key stored in a section stays stored in it, whatever
    becomes of its value. *)
Theorem X3_store_never_deletes (ops : list ConfigOp) (c : LogConfig) :
  is_Some (m_configData c !! "global") →
  nothing_deleted c (config_run ops c).
Proof. intros Hg. apply rtc_nothing_deleted. by apply config_run_moves. Qed.

Lemma X3_store_never_deletes_witness :
  is_Some (stored (config_run [CLoadFromEnv no_env; CSet "global" "j" "w"]
                     table_global_k) "global" "k").
Proof.
  apply (X3_store_never_deletes [CLoadFromEnv no_env; CSet "global" "j" "w"]
           table_global_k).
  - simpl. rewrite lookup_singleton_eq. eauto.
  - by exists "v".
Defined.

(** ** ConfigurationStore: Set *)

Section Set_props.

Variables (c : LogConfig) (section key value : string).

Lemma Set_success (c' : LogConfig) :
  Set_ c section key value = (E_SUCCESS, c') →
  section ≠ "" ∧ key ≠ ""
  ∧ m_configData c'
    = <[section := <[key := value]> (default ∅ (m_configData c !! section))]>
        (m_configData c).
Proof.
  unfold Set_.
  destruct section as [|a s] eqn:Es; [discriminate|].
  destruct key as [|b k] eqn:Ek; [discriminate|].
  rewrite <- Es, <- Ek. replace (Str.empty section) with false by by subst.
  replace (Str.empty key) with false by by subst. simpl.
  destruct (_ || _)%bool; [discriminate|].
  destruct (m_configData c !! section) as [e|] eqn:Hs; simpl.
  - unfold index. rewrite Hs.
    destruct (_ && _)%bool; [discriminate|].
    intros [= <-]. simpl. split_and!; by subst.
  - destruct (_ <=? _)%N; [discriminate|].
    unfold index. simpl. rewrite lookup_insert_eq.
    destruct (_ && _)%bool; [discriminate|].
    intros [= <-]. simpl. rewrite insert_insert_eq. split_and!; by subst.
Qed.

Lemma Set_failure (r : E_Result) (c' : LogConfig) :
  Set_ c section key value = (r, c') → r ≠ E_SUCCESS →
  c' = c ∧ (r = E_INVALID_PARAMETER ∨ r = E_RESOURCE_UNAVAILABLE).
Proof.
  unfold Set_.
  destruct (_ || _)%bool; [intros [= <- <-]; eauto|].
  destruct (_ || _)%bool; [intros [= <- <-]; eauto|].
  destruct (m_configData c !! section) as [e|] eqn:Hs; simpl.
  - unfold index. rewrite Hs.
    destruct (_ && _)%bool; intros [= <- <-]; [|done].
    rewrite LogConfig_eta. eauto.
  - destruct (_ <=? _)%N; [intros [= <- <-]; eauto|].
    unfold index. simpl. rewrite lookup_insert_eq.
    rewrite lookup_empty. rewrite bool_decide_eq_true_2 by done.
    rewrite map_size_empty. simpl. intros [= <- <-]. done.
Qed.

End Set_props.

(** X4.  A [Set] that succeeds is a map update: afterwards the key of the
    section holds the value, [GetString] returns it whatever the default,
    and every other key of every section holds what it held before. *)
Theorem X4_Set_then_lookup
  (c c' : LogConfig) (section key value : string) :
  Set_ c section key value = (E_SUCCESS, c') →
  stored c' section key = Some value
  ∧ (∀ d, GetString c' section key d = value)
  ∧ (∀ s k, ¬ (s = section ∧ k = key) → stored c' s k = stored c s k).
Proof.
  intros H. destruct (Set_success _ _ _ _ _ H) as (Hs & Hk & Hm).
  assert (∀ s k, stored c' s k
                 = if decide (s = section ∧ k = key) then Some value
                   else stored c s k) as Hst.
  { intros s k. unfold stored at 1. rewrite Hm.
    destruct (m_configData c !! section) as [e|] eqn:He; simpl.
    - by apply stored_put.
    - unfold stored. destruct (decide (section = s)) as [<-|Hne].
      + rewrite lookup_insert_eq, He. simpl.
        destruct (decide (key = k)) as [<-|Hk'].
        * rewrite lookup_insert_eq. by rewrite decide_True.
        * rewrite lookup_insert_ne by done. rewrite decide_False; [done|].
          by intros [_ ->].
      + rewrite lookup_insert_ne by done. rewrite decide_False; [done|].
        by intros [-> _]. }
  assert (stored c' section key = Some value) as Hv.
  { rewrite Hst. by rewrite decide_True. }
  split_and!.
  - exact Hv.
  - intros d. by apply GetString_found.
  - intros s k Hne. rewrite Hst. by rewrite decide_False.
Qed.

Lemma X4_Set_then_lookup_witness :
  GetString (Set_ table_global_k "app" "level" "3").2 "app" "level" "0" = "3"
  ∧ stored (Set_ table_global_k "app" "level" "3").2 "global" "k" = Some "v".
Proof.
  destruct (X4_Set_then_lookup table_global_k
              (Set_ table_global_k "app" "level" "3").2 "app" "level" "3")
    as (_ & Hg & Hf); [reflexivity|].
  split; [apply Hg|]. rewrite Hf; [reflexivity|].
  intros [H _]. discriminate H.
Defined.

(** X5.  A [Set] that does not succeed returns [E_INVALID_PARAMETER] or
    [E_RESOURCE_UNAVAILABLE] and leaves the store exactly as it was: no
    section is created on the way to a refusal.  An empty section or key, a
    key longer than 64 characters and a value longer than 256 characters are
    refused with [E_INVALID_PARAMETER]. *)
Theorem X5_Set_refusal_changes_nothing
  (c : LogConfig) (section key value : string) :
  (∀ r c', Set_ c section key value = (r, c') → r ≠ E_SUCCESS →
           c' = c ∧ (r = E_INVALID_PARAMETER ∨ r = E_RESOURCE_UNAVAILABLE))
  ∧ (section = "" ∨ key = ""
     ∨ (k_maxKeyLength < String.length key)%nat
     ∨ (k_maxValueLength < String.length value)%nat →
     Set_ c section key value = (E_INVALID_PARAMETER, c)).
Proof.
  split; [apply Set_failure|].
  unfold Set_. intros [-> | [-> | [H | H]]]; simpl; [done | | |].
  - by rewrite orb_true_r.
  - destruct (_ || _)%bool; [done|].
    by destruct (Nat.ltb_spec k_maxKeyLength (String.length key)); [|lia].
  - destruct (_ || _)%bool; [done|].
    destruct (Nat.ltb_spec k_maxValueLength (String.length value)); [|lia].
    by rewrite orb_true_r.
Qed.

Lemma X5_Set_refusal_changes_nothing_witness :
  Set_ table_global_k "app" (Str.replicate 65 "k") "v"
  = (E_INVALID_PARAMETER, table_global_k).
Proof.
  apply (proj2 (X5_Set_refusal_changes_nothing table_global_k "app"
                  (Str.replicate 65 "k") "v")).
  right. right. left. vm_compute. lia.
Defined.

(** ** ConfigurationStore: LoadFromEnv *)

Section LoadFromEnv_props.

Variable getenv : string -> option string.

(** [LoadFromEnv] reads nothing but the eight names. *)
Lemma LoadFromEnv_loop_unset (vars : list string) (c : LogConfig) :
  Forall (fun v => getenv v = None) vars →
  LoadFromEnv_loop getenv vars false c = (E_NOT_INITIALIZED, c).
Proof.
  induction 1 as [|v rest Hv _ IH]; simpl; [done|].
  unfold LoadFromEnv_var. by rewrite Hv.
Qed.

Variable cells : string -> string -> Prop.

Lemma LoadFromEnv_var_frame (envVar : string) (foundAny : bool)
  (c : LogConfig) :
  (∀ sec key, match_envRegex envVar = Some (sec, key) →
              cells (Str.lower sec) (truncate k_maxKeyLength (Str.lower key))) →
  ∀ s k, ¬ cells s k →
    match LoadFromEnv_var getenv envVar foundAny c with
    | Continue (_, c') => stored c' s k = stored c s k
    | Return _ c' => stored c' s k = stored c s k
    end.
Proof.
  intros Hcell s k Hout. unfold LoadFromEnv_var.
  destruct (getenv envVar) as [value|]; [|done].
  destruct (match_envRegex envVar) as [[sec key]|]; [|done].
  specialize (Hcell sec key eq_refl).
  destruct (m_configData c !! Str.lower sec) as [e|] eqn:Hs.
  - unfold index. rewrite Hs.
    destruct (_ <=? _)%N; [done|].
    unfold stored at 1. simpl. rewrite (stored_put c _ _ _ s k e Hs).
    rewrite decide_False; [done|]. by intros [-> ->].
  - destruct (_ <=? _)%N; [done|].
    unfold index. simpl. rewrite lookup_insert_eq. simpl.
    unfold stored at 1. simpl. rewrite insert_insert_eq.
    rewrite map_size_empty. simpl.
    unfold stored. destruct (decide (Str.lower sec = s)) as [<-|Hne].
    + rewrite lookup_insert_eq, Hs. simpl.
      rewrite lookup_insert_ne; [done|]. by intros <-.
    + by rewrite lookup_insert_ne.
Qed.

Lemma LoadFromEnv_loop_frame (vars : list string) :
  Forall (fun v => ∀ sec key, match_envRegex v = Some (sec, key) →
                     cells (Str.lower sec)
                       (truncate k_maxKeyLength (Str.lower key))) vars →
  ∀ foundAny c s k, ¬ cells s k →
    stored (LoadFromEnv_loop getenv vars foundAny c).2 s k = stored c s k.
Proof.
  induction 1 as [|v rest Hv _ IH]; intros foundAny c s k Hout; simpl.
  { by destruct foundAny. }
  pose proof (LoadFromEnv_var_frame v foundAny c Hv s k Hout) as H.
  destruct (LoadFromEnv_var getenv v foundAny c) as [[f c']|r c']; [|done].
  rewrite IH by done. exact H.
Qed.

End LoadFromEnv_props.

Lemma env_names_cells :
  Forall (fun v => ∀ sec key, match_envRegex v = Some (sec, key) →
                     (fun s k => s ∈ ["global"; "app"] ∧ k ∈ env_keys)
                       (Str.lower sec)
                       (truncate k_maxKeyLength (Str.lower key)))
    env_names.
Proof.
  repeat apply Forall_cons_2; try apply Forall_nil_2;
    intros sec key [= <- <-]; vm_compute; split; in_list.
Qed.

Lemma LoadFromEnv_frame (getenv : string -> option string) (c : LogConfig)
  (s k : string) :
  s ∉ ["global"; "app"] ∨ k ∉ env_keys →
  stored (LoadFromEnv getenv c).2 s k = stored c s k.
Proof.
  intros Hout. unfold LoadFromEnv.
  apply (LoadFromEnv_loop_frame getenv _ _ env_names_cells).
  intros [? ?]. destruct Hout; done.
Qed.

(** X6.  [LoadFromEnv] writes nowhere but under the keys log_level, format,
    file_path and max_size of the sections global and app: every other
    stored value is what it was.  When none of the eight variables is set
    it returns [E_NOT_INITIALIZED] and the store is untouched. *)
Theorem X6_LoadFromEnv_writes_only_its_keys
  (getenv : string -> option string) (c : LogConfig) :
  (∀ s k, s ∉ ["global"; "app"] ∨ k ∉ env_keys →
          stored (LoadFromEnv getenv c).2 s k = stored c s k)
  ∧ (Forall (fun v => getenv v = None) env_names →
     LoadFromEnv getenv c = (E_NOT_INITIALIZED, c)).
Proof.
  split.
  - intros s k. apply LoadFromEnv_frame.
  - apply LoadFromEnv_loop_unset.
Qed.

Lemma X6_LoadFromEnv_writes_only_its_keys_witness :
  stored
    (LoadFromEnv (fun v => if String.eqb v "VSNLOG_GLOBAL_FORMAT"
                           then Some "json" else None) table_global_k).2
    "global" "k" = Some "v"
  ∧ LoadFromEnv no_env table_global_k = (E_NOT_INITIALIZED, table_global_k).
Proof.
  split.
  - rewrite (proj1 (X6_LoadFromEnv_writes_only_its_keys _ table_global_k));
      [reflexivity|].
    right. unfold env_keys. intros H.
    repeat (apply elem_of_cons in H as [H|H]; [discriminate H|]).
    by apply elem_of_nil in H.
  - apply (proj2 (X6_LoadFromEnv_writes_only_its_keys no_env table_global_k)).
    repeat apply Forall_cons_2; try apply Forall_nil_2; reflexivity.
Defined.
Section LoadFromEnv_stores.

Variable getenv : string -> option string.

(** A variable that is set is stored, given room for it. *)
Lemma LoadFromEnv_var_set (envVar value : string) (foundAny : bool)
  (n : nat) (c : LogConfig) :
  getenv envVar = Some value →
  is_Some (match_envRegex envVar) →
  has_room (S n) c →
  ∃ c1, LoadFromEnv_var getenv envVar foundAny c = Continue (true, c1)
        ∧ stored c1 (env_cell envVar).1 (env_cell envVar).2
          = Some (truncate k_maxValueLength value)
        ∧ (∀ s k, (s, k) ≠ env_cell envVar → stored c1 s k = stored c s k)
        ∧ has_room n c1.
Proof.
  intros Hv [[sec key] Hm] [Hsec Hent].
  unfold LoadFromEnv_var, env_cell. rewrite Hv, Hm. simpl.
  unfold k_maxSections, k_maxEntriesPerSection in *.
  destruct (m_configData c !! Str.lower sec) as [e|] eqn:Hs.
  - unfold index. rewrite Hs.
    pose proof (Hent _ _ Hs) as He.
    destruct (N.leb_spec 64 (N.of_nat (size e))); [lia|].
    eexists. split_and!; [reflexivity | | |].
    + unfold stored. simpl. rewrite lookup_insert_eq. simpl.
      by rewrite lookup_insert_eq.
    + intros s k Hne. unfold stored at 1. simpl.
      rewrite (stored_put c _ _ _ s k e Hs).
      rewrite decide_False; [done|]. intros [-> ->]. done.
    + split; simpl; unfold k_maxSections, k_maxEntriesPerSection; [lia|].
      intros s e' He'.
      destruct (decide (Str.lower sec = s)) as [<-|Hne].
      * rewrite lookup_insert_eq in He'. injection He' as <-.
        pose proof (map_size_insert
                      (truncate k_maxKeyLength (Str.lower key))
                      (truncate k_maxValueLength value) e) as Hsz.
        destruct (e !! _); simpl in Hsz; lia.
      * rewrite lookup_insert_ne in He' by done.
        specialize (Hent _ _ He'). lia.
  - destruct (N.leb_spec 32 (g_sectionCount c)); [lia|].
    unfold index. simpl. rewrite lookup_insert_eq. simpl.
    rewrite map_size_empty. simpl. rewrite insert_insert_eq.
    eexists. split_and!; [reflexivity | | |].
    + unfold stored. simpl. rewrite lookup_insert_eq. simpl.
      by rewrite lookup_insert_eq.
    + intros s k Hne. unfold stored. simpl.
      destruct (decide (Str.lower sec = s)) as [<-|Hne'].
      * rewrite lookup_insert_eq, Hs. simpl.
        rewrite lookup_insert_ne; [done|]. by intros <-.
      * by rewrite lookup_insert_ne.
    + split; simpl; unfold k_maxSections, k_maxEntriesPerSection.
      * unfold wrap32. rewrite N.mod_small by lia. lia.
      * intros s e' He'.
        destruct (decide (Str.lower sec = s)) as [<-|Hne].
        -- rewrite lookup_insert_eq in He'. injection He' as <-.
           rewrite map_size_insert_None by apply lookup_empty.
           rewrite map_size_empty. lia.
        -- rewrite lookup_insert_ne in He' by done.
           specialize (Hent _ _ He'). lia.
Qed.

Lemma has_room_less (n : nat) (c : LogConfig) :
  has_room (S n) c → has_room n c.
Proof.
  intros [H1 H2]. unfold has_room, k_maxSections, k_maxEntriesPerSection in *.
  split; [lia|]. intros s e He. specialize (H2 s e He). lia.
Qed.

Lemma LoadFromEnv_loop_stores (vars : list string) :
  Forall (fun v => is_Some (match_envRegex v)) vars →
  NoDup (env_cell <$> vars) →
  ∀ foundAny c,
    has_room (length vars) c →
    let r := LoadFromEnv_loop getenv vars foundAny c in
    (r.1 = E_SUCCESS ∨ r.1 = E_NOT_INITIALIZED)
    ∧ ∀ v, v ∈ vars →
        stored r.2 (env_cell v).1 (env_cell v).2
        = match getenv v with
          | Some value => Some (truncate k_maxValueLength value)
          | None => stored c (env_cell v).1 (env_cell v).2
          end.
Proof.
  induction 1 as [|v rest Hv Hrest IH]; intros Hnd foundAny c Hroom r;
    subst r.
  { simpl. split; [destruct foundAny; eauto|]. intros v Hin.
    by apply elem_of_nil in Hin. }
  rewrite fmap_cons in Hnd. apply NoDup_cons in Hnd as [Hfresh Hnd].
  assert (∀ f c0, stored (LoadFromEnv_loop getenv rest f c0).2
                    (env_cell v).1 (env_cell v).2
                  = stored c0 (env_cell v).1 (env_cell v).2) as Hframe.
  { intros f c0.
    apply (LoadFromEnv_loop_frame getenv
             (fun s k => (s, k) ∈ env_cell <$> rest)).
    - apply Forall_forall. intros v' Hin sec key Hm.
      apply list_elem_of_fmap. exists v'. split; [|done].
      unfold env_cell. by rewrite Hm.
    - by rewrite <- surjective_pairing. }
  simpl length in Hroom. simpl LoadFromEnv_loop.
  destruct (getenv v) as [value|] eqn:Hget.
  - destruct (LoadFromEnv_var_set v value foundAny (length rest) c Hget Hv
                Hroom) as (c1 & -> & Hst & Hother & Hroom1).
    destruct (IH Hnd true c1 Hroom1) as [Hr Hcells].
    split; [exact Hr|]. intros v' Hin.
    apply elem_of_cons in Hin as [->|Hin].
    + by rewrite Hget, Hframe.
    + rewrite (Hcells v' Hin). destruct (getenv v'); [done|].
      apply Hother. rewrite <- surjective_pairing. intros Heq.
      apply Hfresh. rewrite <- Heq. apply list_elem_of_fmap. eauto.
  - assert (LoadFromEnv_var getenv v foundAny c = Continue (foundAny, c))
      as -> by (unfold LoadFromEnv_var; by rewrite Hget).
    destruct (IH Hnd foundAny c (has_room_less _ _ Hroom)) as [Hr Hcells].
    split; [exact Hr|]. intros v' Hin.
    apply elem_of_cons in Hin as [->|Hin].
    + by rewrite Hget, Hframe.
    + by apply Hcells.
Qed.

End LoadFromEnv_stores.

(** X7.  On a store with room for eight more sections and eight more
    entries in every section (the store as constructed is one),
    [LoadFromEnv] returns [E_SUCCESS] or [E_NOT_INITIALIZED], and
    afterwards, for each of the eight variables, the key it maps to holds
    the variable's value cut to 256 characters when the variable is set, and
    what it held before when it is not. *)
Theorem X7_LoadFromEnv_stores_every_variable
  (getenv : string -> option string) (c : LogConfig) :
  has_room 8 c →
  let r := LoadFromEnv getenv c in
  (r.1 = E_SUCCESS ∨ r.1 = E_NOT_INITIALIZED)
  ∧ (∀ v, v ∈ env_names →
       stored r.2 (env_cell v).1 (env_cell v).2
       = match getenv v with
         | Some value => Some (truncate k_maxValueLength value)
         | None => stored c (env_cell v).1 (env_cell v).2
         end)
  ∧ zip env_names (env_cell <$> env_names)
    = [ ("VSNLOG_GLOBAL_LOG_LEVEL", ("global", "log_level"));
        ("VSNLOG_GLOBAL_FORMAT", ("global", "format"));
        ("VSNLOG_GLOBAL_FILE_PATH", ("global", "file_path"));
        ("VSNLOG_GLOBAL_MAX_SIZE", ("global", "max_size"));
        ("VSNLOG_APP_LOG_LEVEL", ("app", "log_level"));
        ("VSNLOG_APP_FORMAT", ("app", "format"));
        ("VSNLOG_APP_FILE_PATH", ("app", "file_path"));
        ("VSNLOG_APP_MAX_SIZE", ("app", "max_size")) ].
Proof.
  intros Hroom r.
  destruct (LoadFromEnv_loop_stores getenv env_names) with (foundAny := false)
    (c := c) as [Hr Hcells].
  - repeat apply Forall_cons_2; try apply Forall_nil_2;
      vm_compute; eauto.
  - compute_done.
  - exact Hroom.
  - split_and!; [exact Hr | exact Hcells | reflexivity].
Qed.

Lemma X7_LoadFromEnv_stores_every_variable_witness :
  let getenv := fun v => if String.eqb v "VSNLOG_GLOBAL_LOG_LEVEL"
                         then Some "4" else None in
  env_cell "VSNLOG_GLOBAL_LOG_LEVEL" = ("global", "log_level")
  ∧ stored (LoadFromEnv getenv LogConfig_ctor).2 "global" "log_level"
    = Some "4".
Proof.
  intros getenv. split; [reflexivity|].
  assert (has_room 8 LogConfig_ctor) as Hroom.
  { split; [vm_compute; discriminate|]. intros s e He. simpl in He.
    apply lookup_singleton_Some in He as [_ <-].
    rewrite map_size_empty. vm_compute. discriminate. }
  destruct (X7_LoadFromEnv_stores_every_variable getenv LogConfig_ctor Hroom)
    as (_ & H & _).
  apply (H "VSNLOG_GLOBAL_LOG_LEVEL").
  unfold env_names. vm_compute. left.
Defined.

(** ** ConfigurationStore: typed getters *)

Section Getters.

Lemma GetString_ext (c c' : LogConfig) (section key d : string) :
  stored c' section key = stored c section key →
  stored c' "global" key = stored c "global" key →
  GetString c' section key d = GetString c section key d.
Proof.
  unfold GetString, stored. intros -> ->. reflexivity.
Qed.

Lemma GetBool_ext (c c' : LogConfig) (section key : string) (d : bool) :
  stored c' section key = stored c section key →
  stored c' "global" key = stored c "global" key →
  GetBool c' section key d = GetBool c section key d.
Proof. intros H1 H2. unfold GetBool. by rewrite (GetString_ext c c'). Qed.

Lemma GetInt32_ext (c c' : LogConfig) (section key : string) (d : Z) :
  stored c' section key = stored c section key →
  stored c' "global" key = stored c "global" key →
  GetInt32 c' section key d = GetInt32 c section key d.
Proof. intros H1 H2. unfold GetInt32. by rewrite (GetString_ext c c'). Qed.

Lemma GetString_missing (c : LogConfig) (section key d : string) :
  stored c section key = None → stored c "global" key = None →
  GetString c section key d = d.
Proof.
  unfold GetString, stored. intros -> ->.
  destruct (_ || _)%bool; [done|]. by destruct (negb _).
Qed.

Lemma stoi_range (value : string) (z : Z) :
  stoi value = Some z → - 2 ^ 31 ≤ z ≤ 2 ^ 31 - 1.
Proof.
  unfold stoi.
  destruct (match skip_space value with
            | String "-" r => (true, r)
            | String "+" r => (false, r)
            | _ => (false, skip_space value)
            end) as [neg s].
  destruct (read_digits s None) as [n|]; [|discriminate].
  destruct (_ && _)%bool eqn:Hb; [|discriminate].
  intros [= <-]. apply andb_true_iff in Hb as [H1 H2]. lia.
Qed.

End Getters.

(** X8.  [GetInt32] and [GetBool] never fail.  For a key stored neither in
    the section nor in the global section both return the caller's default.
    [GetInt32] returns the default or a number that fits 32 signed bits.
    [GetBool], once a non-empty text is stored under the key of a non-empty
    section, ignores the default: it is true exactly when the text, in
    lower case, is one of true, yes, 1, on. *)
Theorem X8_typed_getters_fall_back
  (c : LogConfig) (section key : string) :
  (stored c section key = None → stored c "global" key = None →
   ∀ z b, GetInt32 c section key z = z ∧ GetBool c section key b = b)
  ∧ (∀ z, GetInt32 c section key z = z
          ∨ - 2 ^ 31 ≤ GetInt32 c section key z ≤ 2 ^ 31 - 1)
  ∧ (∀ v b, section ≠ "" → key ≠ "" → v ≠ "" →
            stored c section key = Some v →
            GetBool c section key b
            = bool_decide (Str.lower v ∈ ["true"; "yes"; "1"; "on"])).
Proof.
  split_and!.
  - intros H1 H2 z b. unfold GetInt32, GetBool.
    by rewrite (GetString_missing c section key "" H1 H2).
  - intros z. unfold GetInt32.
    destruct (Str.empty _); [by left|].
    destruct (stoi _) as [n|] eqn:Hn; [|by left].
    right. simpl. by apply stoi_range in Hn.
  - intros v b Hs Hk Hv Hst. unfold GetBool.
    rewrite (GetString_found c section key "" v Hs Hk Hst).
    rewrite Str_empty_false by done.
    repeat match goal with
    | |- context [String.eqb ?a ?b] =>
        let E := fresh "E" in destruct (String.eqb_spec a b) as [E|E]
    end; simpl; symmetry;
      first [ apply bool_decide_eq_true_2;
              match goal with H : Str.lower v = _ |- _ => rewrite H end;
              in_list
            | apply bool_decide_eq_false_2; intros Hin; not_in_list Hin ].
Qed.

Lemma X8_typed_getters_fall_back_witness :
  GetInt32 table_global_k "app" "max_files" 5 = 5
  ∧ GetBool table_global_k "app" "k" true = false.
Proof.
  destruct (X8_typed_getters_fall_back table_global_k "app" "max_files")
    as (Hmiss & _ & _).
  destruct (X8_typed_getters_fall_back table_global_k "global" "k")
    as (_ & _ & Hbool).
  split.
  - apply (Hmiss eq_refl eq_refl 5 true).
  - assert (GetBool table_global_k "app" "k" true
            = GetBool table_global_k "global" "k" true) as -> by reflexivity.
    rewrite (Hbool "v" true); [reflexivity | discriminate..| reflexivity].
Defined.

(** X9.  The environment reaches [Initialize] through the level only: the
    log directory, the console, file and syslog toggles, the pattern name,
    the colour flag and the rotation size and count that [Initialize]
    settles on are the same after [LoadFromEnv] as before it, whatever the
    environment holds. *)
Theorem X9_environment_changes_only_the_level
  (getenv : string -> option string) (w : World)
  (appName logDir : string) (level : E_LogLevel) :
  let before := Initialize_settings (config w) appName logDir level in
  let after :=
    Initialize_settings (config (merged getenv w)) appName logDir level in
  configuredLogDir after = configuredLogDir before
  ∧ useConsole after = useConsole before
  ∧ useFile after = useFile before
  ∧ useSyslog after = useSyslog before
  ∧ patternName after = patternName before
  ∧ useColors after = useColors before
  ∧ fileMaxSize after = fileMaxSize before
  ∧ fileMaxCount after = fileMaxCount before.
Proof.
  intros before after. subst before after. unfold merged. simpl.
  assert (∀ s k, k ∉ env_keys →
            stored (LoadFromEnv getenv (config w)).2 s k
            = stored (config w) s k) as Hkeep.
  { intros s k Hk. apply LoadFromEnv_frame. by right. }
  assert (∀ k, k ∈ ["log_dir"; "console_output"; "file_output";
                    "syslog_output"; "log_pattern"; "use_colors";
                    "max_file_size"; "max_files"] → k ∉ env_keys) as Hout.
  { intros k Hk Hin. unfold env_keys in Hin.
    repeat (apply elem_of_cons in Hk as [->|Hk]; [not_in_list Hin|]).
    by apply elem_of_nil in Hk. }
  split_and!;
    first [ apply GetString_ext | apply GetBool_ext | apply GetInt32_ext ];
    apply Hkeep, Hout; in_list.
Qed.

(** ** The earlier interface against the current one *)

(** X10.  On every non-empty section name and key the current [GetString]
    returns what the earlier [get_string] returns on the same table; the
    earlier one has no guard, so on the empty section name it still falls
    back to the global section where the current one returns the default. *)
Theorem X10_GetString_agrees_with_get_string
  (c : LogConfig) (section key d : string) :
  (section ≠ "" → key ≠ "" →
   GetString c section key d
   = Legacy.get_string (m_configData c) section key d)
  ∧ (∀ v, stored c "" key = None → stored c "global" key = Some v →
          Legacy.get_string (m_configData c) "" key d = v
          ∧ GetString c "" key d = d).
Proof.
  split.
  - intros Hs Hk. unfold GetString, Legacy.get_string.
    by rewrite !Str_empty_false.
  - intros v H1 H2. unfold Legacy.get_string, GetString, stored in *.
    rewrite H1, H2. done.
Qed.

Lemma X10_GetString_agrees_with_get_string_witness :
  GetString table_global_k "app" "k" "d"
  = Legacy.get_string (m_configData table_global_k) "app" "k" "d"
  ∧ Legacy.get_string (m_configData table_global_k) "" "k" "d" = "v".
Proof.
  destruct (X10_GetString_agrees_with_get_string table_global_k "app" "k" "d")
    as [H1 _].
  destruct (X10_GetString_agrees_with_get_string table_global_k "" "k" "d")
    as [_ H2].
  split; [apply H1; discriminate | apply (H2 "v"); reflexivity].
Defined.

(** X11.  On every non-empty format name the current [GetPattern] succeeds
    with exactly the pattern the earlier [get_pattern] returns for that
    name. *)
Theorem X11_GetPattern_agrees_with_get_pattern (formatName pattern : string) :
  formatName ≠ "" →
  Formatters.GetPattern formatName pattern
  = (E_SUCCESS, Legacy.get_pattern formatName).
Proof.
  intros Hne. unfold Formatters.GetPattern, Legacy.get_pattern.
  rewrite Str_empty_false by done.
  repeat match goal with
  | |- context [String.eqb formatName ?s] => destruct (String.eqb formatName s)
  end; reflexivity.
Qed.

Lemma X11_GetPattern_agrees_with_get_pattern_witness :
  Formatters.GetPattern "minimal" "" = (E_SUCCESS, Legacy.get_pattern "minimal").
Proof. apply X11_GetPattern_agrees_with_get_pattern. discriminate. Defined.

(** ** SinkFactory: composite and syslog sinks *)

Section Multi.

(** What one factory call does to the counter and the script. *)
Lemma allocate_cases (result : Sink) (w : World) :
  ∃ w', (allocate result w = (Some result, w')
         ∧ g_sinkAllocationCount w' = (g_sinkAllocationCount w + 1)%N
         ∧ (g_sinkAllocationCount w < k_maxSinkAllocations)%N)
        ∨ (allocate result w = (None, w')
           ∧ g_sinkAllocationCount w' = g_sinkAllocationCount w).
Proof.
  rewrite allocate_unfold.
  destruct (N.leb_spec k_maxSinkAllocations (g_sinkAllocationCount w)).
  { exists w. by right. }
  pose proof (next_outcome_count w) as Hc.
  destruct (next_outcome w) as [[] w1]; simpl in *.
  - eexists. left. split_and!; [reflexivity | | done].
    simpl. rewrite Hc. by apply wrap32_succ.
  - exists w1. by right.
  - exists w1. by right.
Qed.

(** With the engine never throwing and room under the cap, a factory call
    succeeds and leaves the script empty. *)
Lemma allocate_ok (result : Sink) (w : World) :
  script w = [] →
  (g_sinkAllocationCount w < k_maxSinkAllocations)%N →
  ∃ w', allocate result w = (Some result, w')
        ∧ script w' = []
        ∧ g_sinkAllocationCount w' = (g_sinkAllocationCount w + 1)%N.
Proof.
  intros Hs Hlt. rewrite allocate_unfold.
  destruct (N.leb_spec k_maxSinkAllocations (g_sinkAllocationCount w));
    [lia|].
  unfold next_outcome. rewrite Hs. simpl.
  eexists. split_and!; [reflexivity | done |].
  simpl. by apply wrap32_succ.
Qed.

Lemma CreateMultiSink_file (logFile : string) (w : World) :
  logFile ≠ "" →
  CreateFileSink logFile false 0 1 w = allocate (basic_file_sink_mt logFile) w.
Proof. intros H. unfold CreateFileSink. by rewrite Str_empty_false. Qed.

End Multi.
Section Try_each.

Lemma try_each_counts (requested : list Sink) :
  ∀ w, g_sinkAllocationCount (try_each requested w).2
       = (g_sinkAllocationCount w
          + N.of_nat (length (try_each requested w).1))%N
       ∧ (try_each requested w).1 `sublist_of` requested.
Proof.
  induction requested as [|s rest IH]; intros w; simpl.
  { split; [lia | done]. }
  destruct (allocate_cases s w) as [w1 [(-> & Hc & _)|(-> & Hc)]];
    specialize (IH w1); destruct (try_each rest w1) as [l w2];
    simpl in *; destruct IH as [IH1 IH2]; rewrite IH1, Hc.
  - split; [lia | by apply sublist_skip].
  - split; [lia | by apply sublist_cons].
Qed.

Lemma try_each_ok (requested : list Sink) :
  ∀ w, script w = [] →
       (g_sinkAllocationCount w + N.of_nat (length requested)
        ≤ k_maxSinkAllocations)%N →
       (try_each requested w).1 = requested
       ∧ script (try_each requested w).2 = [].
Proof.
  induction requested as [|s rest IH]; intros w Hs Hroom; simpl; [done|].
  simpl length in Hroom.
  destruct (allocate_ok s w Hs) as (w1 & -> & Hs1 & Hc1); [lia|].
  destruct (IH w1 Hs1) as [IH1 IH2]; [lia|].
  destruct (try_each rest w1) as [l w2]. simpl in *. by subst.
Qed.

Lemma or_fallback_counts (fallback : Sink) (r : list Sink * World) :
  g_sinkAllocationCount (or_fallback fallback r).2
  = (g_sinkAllocationCount r.2
     + match r.1 with
       | [] => N.of_nat (length (or_fallback fallback r).1)
       | _ => 0
       end)%N
  ∧ match r.1 with
    | [] => (or_fallback fallback r).1 = [fallback]
            ∨ (or_fallback fallback r).1 = []
    | _ => (or_fallback fallback r).1 = r.1
    end.
Proof.
  unfold or_fallback. destruct r as [[|s l] w]; simpl; [|split; [lia|done]].
  destruct (allocate_cases fallback w) as [w1 [(-> & Hc & _)|(-> & Hc)]];
    simpl; rewrite Hc; split; eauto; lia.
Qed.

(** [CreateMultiSink] is [try_each] on what was requested, then the
    fallback. *)
Lemma CreateMultiSink_try_each console logFile syslog (w : World) :
  CreateMultiSink console logFile syslog w
  = or_fallback stdout_color_sink_mt
      (try_each (requested_sinks console logFile syslog) w).
Proof.
  unfold CreateMultiSink, requested_sinks, or_fallback.
  unfold CreateConsoleSink, CreateSyslogSink.
  destruct (Str.empty logFile) eqn:Hempty; simpl negb; cbv iota;
    destruct console, syslog; simpl;
    repeat match goal with
    | |- context [CreateFileSink logFile false 0%N 1%N ?w0] =>
        rewrite (CreateMultiSink_file logFile w0) by (by destruct logFile)
    | |- context [allocate ?s ?w0] =>
        destruct (allocate s w0) as [[?|] ?]; simpl
    end; reflexivity.
Qed.

End Try_each.



Section Initialize_sinks_props.

Lemma CreateFileSink_rotating (filename : string) (maxSize maxFiles : N)
  (w : World) :
  filename ≠ "" →
  CreateFileSink filename true maxSize maxFiles w
  = allocate
      (rotating_file_sink_mt filename
         (rotation_limit 10485760 1073741824 maxSize)
         (rotation_limit 5 100 maxFiles)) w.
Proof.
  intros H. unfold CreateFileSink, rotation_limit.
  rewrite Str_empty_false by done.
  unfold k_maxFileSizeLimit, k_maxFileCountLimit.
  rewrite (N.eqb_sym 0 maxSize), (N.eqb_sym 0 maxFiles).
  change (1024 * 1024 * 1024)%N with 1073741824%N.
  change (10 * 1024 * 1024)%N with 10485760%N.
  f_equal. f_equal.
  - destruct (maxSize =? 0)%N;
      match goal with
      | |- context [(?a <? ?b)%N] => destruct (N.ltb_spec a b)
      end; lia.
  - destruct (maxFiles =? 0)%N;
      match goal with
      | |- context [(?a <? ?b)%N] => destruct (N.ltb_spec a b)
      end; lia.
Qed.

(** [Initialize_sinks] is [try_each] on what the settings ask for, then the
    fallback console sink. *)
Lemma Initialize_sinks_try_each useConsole useColors useFile useSyslog
  logFilePath fileMaxSize fileMaxCount (w : World) :
  Initialize_sinks useConsole useColors useFile useSyslog logFilePath
    fileMaxSize fileMaxCount w
  = or_fallback (if useColors then stdout_color_sink_mt else stdout_sink_mt)
      (try_each
         (Initialize_requested useConsole useColors useFile useSyslog
            logFilePath fileMaxSize fileMaxCount) w).
Proof.
  unfold Initialize_sinks, Initialize_requested, or_fallback.
  unfold CreateConsoleSink, CreateSyslogSink.
  destruct (Str.empty logFilePath) eqn:Hempty;
    destruct useConsole, useFile, useSyslog; simpl;
    repeat match goal with
    | |- context [CreateFileSink logFilePath true ?a ?b ?w0] =>
        rewrite (CreateFileSink_rotating logFilePath a b w0)
          by (by destruct logFilePath)
    | |- context [allocate ?s ?w0] =>
        destruct (allocate s w0) as [[?|] ?]; simpl
    end; reflexivity.
Qed.

End Initialize_sinks_props.

(** X13.  The sink set [Initialize] builds for a new logger is what calling
    the factories on the requested sinks in the order console, file, syslog
    yields (the file sink a rotating one with its limits normalized), each
    kept when it could be built; and, when none was built, what one more
    call for the fallback console sink yields.  It holds at most three
    sinks, so that cutting it to eight never drops one, and the allocation
    counter rises by exactly its length.  With the engine never throwing and
    room for three more sinks, all the requested sinks are returned, and the
    one fallback console sink when nothing was requested.  With the counter
    at its cap nothing is returned and the state is as it was. *)
Theorem X13_Initialize_sink_set
  (useConsole useColors useFile useSyslog : bool) (logFilePath : string)
  (fileMaxSize fileMaxCount : Z) (w : World) :
  let r := Initialize_sinks useConsole useColors useFile useSyslog logFilePath
             fileMaxSize fileMaxCount w in
  let requested := Initialize_requested useConsole useColors useFile
                     useSyslog logFilePath fileMaxSize fileMaxCount in
  let fallback := if useColors then stdout_color_sink_mt
                  else stdout_sink_mt in
  let sinkCount := if (length r.1 <=? k_maxSinks)%nat
                   then length r.1 else k_maxSinks in
  r = or_fallback fallback (try_each requested w)
  ∧ g_sinkAllocationCount r.2
    = (g_sinkAllocationCount w + N.of_nat (length r.1))%N
  ∧ (length r.1 <= 3)%nat
  ∧ take sinkCount r.1 = r.1
  ∧ (r.1 `sublist_of` requested ∨ r.1 = [fallback] ∨ r.1 = [])
  ∧ (script w = [] →
     (g_sinkAllocationCount w + 3 ≤ k_maxSinkAllocations)%N →
     r.1 = match requested with
           | [] => [fallback]
           | l => l
           end)
  ∧ ((k_maxSinkAllocations ≤ g_sinkAllocationCount w)%N → r = ([], w)).
Proof.
  intros r req fb sinkCount. subst r sinkCount.
  rewrite Initialize_sinks_try_each. fold req fb.
  assert (length req <= 3)%nat as Hreq.
  { unfold req, Initialize_requested.
    destruct useConsole, (useFile && negb (Str.empty logFilePath))%bool,
      useSyslog; simpl; lia. }
  destruct (try_each_counts req w) as [Hc Hsub].
  pose proof (sublist_length _ _ Hsub) as Hlen.
  pose proof (or_fallback_counts fb (try_each req w)) as [Hfc Hfr].
  pose proof (try_each_ok req w) as Hok.
  assert ((k_maxSinkAllocations ≤ g_sinkAllocationCount w)%N →
          try_each req w = ([], w)) as Hfull.
  { intros Hcap. clear -Hcap. induction req as [|s req IH]; [done|].
    simpl. by rewrite (allocate_at_cap s w Hcap), IH. }
  destruct (try_each req w) as [l w1] eqn:Ht. simpl in *.
  assert (length (or_fallback fb (l, w1)).1 <= 3)%nat as Hle.
  { destruct l; [destruct Hfr as [->| ->]; simpl; lia|].
    rewrite Hfr. lia. }
  split_and!.
  - reflexivity.
  - destruct l; [rewrite Hfc, Hc; simpl; lia|].
    rewrite Hfc, Hfr, Hc. simpl. lia.
  - exact Hle.
  - unfold k_maxSinks.
    destruct (Nat.leb_spec (length (or_fallback fb (l, w1)).1) 8); [|lia].
    apply firstn_all.
  - destruct l; [destruct Hfr; eauto|]. rewrite Hfr. by left.
  - intros Hs Hroom.
    destruct Hok as [Hl Hs1];
      [done | unfold k_maxSinkAllocations in *; lia|].
    subst l. destruct req as [|s req]; [|exact Hfr].
    unfold or_fallback. simpl.
    destruct (allocate_ok fb w1 Hs1) as (w2 & -> & _);
      [simpl in Hc; unfold k_maxSinkAllocations in *; lia | done].
  - intros Hcap. injection (Hfull Hcap) as -> ->.
    unfold or_fallback. simpl. by rewrite (allocate_at_cap fb w Hcap).
Qed.

Lemma X13_Initialize_sink_set_witness :
  (Initialize_sinks true true true false "/tmp/a/a.log" 0 0 (boot [])).1
  = [stdout_color_sink_mt; rotating_file_sink_mt "/tmp/a/a.log" 10485760 5]
  ∧ (Initialize_sinks false false true false "" 0 0 (boot [])).1
    = [stdout_sink_mt]
  ∧ Initialize_sinks true true true true "/tmp/a/a.log" 0 0
      (set_sinkAllocationCount (fun _ => 64%N) (boot []))
    = ([], set_sinkAllocationCount (fun _ => 64%N) (boot [])).
Proof.
  pose proof (X13_Initialize_sink_set true true true false "/tmp/a/a.log" 0 0
                (boot [])) as H1.
  pose proof (X13_Initialize_sink_set false false true false "" 0 0
                (boot [])) as H2.
  pose proof (X13_Initialize_sink_set true true true true "/tmp/a/a.log" 0 0
                (set_sinkAllocationCount (fun _ => 64%N) (boot []))) as H3.
  cbv zeta in H1, H2, H3.
  destruct H1 as (_ & _ & _ & _ & _ & H1 & _).
  destruct H2 as (_ & _ & _ & _ & _ & H2 & _).
  destruct H3 as (_ & _ & _ & _ & _ & _ & H3).
  split_and!.
  - apply H1; [reflexivity | vm_compute; discriminate].
  - apply H2; [reflexivity | vm_compute; discriminate].
  - apply H3. vm_compute. discriminate.
Defined.

(** X14.  Below the cap and with the engine constructor succeeding,
    [CreateSyslogSink] opens syslog under an identifier that is never empty
    and never longer than 32 characters: vsnlogger for the empty string,
    the first 32 characters of a longer one, the given one otherwise. *)
Theorem X14_CreateSyslogSink_identifier
  (ident : string) (syslogOption syslogFacility : Z) (enableFormatting : bool)
  (w : World) :
  (g_sinkAllocationCount w < k_maxSinkAllocations)%N →
  (next_outcome w).1 = Ok →
  (CreateSyslogSink ident syslogOption syslogFacility enableFormatting w).1
  = Some (syslog_sink_mt (syslog_ident ident) syslogOption syslogFacility
            enableFormatting)
  ∧ syslog_ident ident ≠ ""
  ∧ (String.length (syslog_ident ident) <= 32)%nat
  ∧ (ident = "" → syslog_ident ident = "vsnlogger")
  ∧ (ident ≠ "" → (String.length ident <= 32)%nat →
     syslog_ident ident = ident).
Proof.
  intros Hcap Hok. split_and!.
  - unfold CreateSyslogSink. rewrite allocate_unfold, Hok.
    destruct (N.leb_spec k_maxSinkAllocations (g_sinkAllocationCount w));
      [lia|].
    simpl. unfold syslog_ident. destruct (Str.empty ident); reflexivity.
  - unfold syslog_ident. destruct ident as [|a s]; simpl; [discriminate|].
    destruct (_ <? _)%nat; discriminate.
  - unfold syslog_ident. destruct (Str.empty ident); [simpl; lia|].
    destruct (Nat.ltb_spec 32 (String.length ident)); [|lia].
    apply length_substr_0.
  - by intros ->.
  - intros Hne Hlen. unfold syslog_ident. rewrite Str_empty_false by done.
    by destruct (Nat.ltb_spec 32 (String.length ident)); [lia|].
Qed.

Lemma X14_CreateSyslogSink_identifier_witness :
  (CreateSyslogSink (Str.replicate 40 "x") 0 0 true (boot [])).1
  = Some (syslog_sink_mt (Str.replicate 32 "x") 0 0 true).
Proof.
  destruct (X14_CreateSyslogSink_identifier (Str.replicate 40 "x") 0 0 true
              (boot [])) as (H & _); [vm_compute; reflexivity | reflexivity|].
  rewrite H. reflexivity.
Defined.

(** ** LoggerRegistry: Shutdown and Initialize *)

#[local] Instance serving_insensitive n lg : Insensitive (serving n lg).
Proof. by split; intros ? w H. Qed.

Section Returns.

Context {A : Type} (P : A -> Prop).

Lemma returns_ret (a : A) : P a → returns P (ret a).
Proof. by intros H w. Qed.

Lemma returns_bind {B} (m : M B) (k : B -> M A) :
  (∀ b, returns P (k b)) → returns P (bind m k).
Proof.
  intros Hk w. unfold bind. destruct (m w) as [[e|b] w']; [done|].
  apply Hk.
Qed.

End Returns.

Lemma Initialize_finish_returns appName patternName configuredLevel
  useColors useConsole instance :
  returns (fun r => r = E_SUCCESS)
    (Initialize_finish appName patternName configuredLevel useColors
       useConsole instance).
Proof.
  unfold Initialize_finish.
  destruct (Formatters.GetPattern patternName "") as [patternResult pattern].
  repeat (apply returns_bind; intros ?). by apply returns_ret.
Qed.



(** X16.  [Initialize] returns [E_SUCCESS], [E_INVALID_PARAMETER] or
    [E_UNKNOWN_ERROR] and nothing else.  An empty application name or log
    directory is refused with the state untouched.  Whenever it returns
    [E_INVALID_PARAMETER], at most the configuration has changed (by the
    environment having been merged in): no sink was allocated, no logger
    registered, the default instance is as it was and the engine was not
    called. *)
Theorem X16_Initialize_refusal_creates_nothing
  (getenv : string -> option string) (appName logDir : string)
  (level : E_LogLevel) (w : World) :
  let r := Initialize getenv appName logDir level w in
  (r.1 = E_SUCCESS ∨ r.1 = E_INVALID_PARAMETER ∨ r.1 = E_UNKNOWN_ERROR)
  ∧ (appName = "" ∨ logDir = "" → r = (E_INVALID_PARAMETER, w))
  ∧ (r.1 = E_INVALID_PARAMETER →
     (r.2 = w ∨ r.2 = merged getenv w)
     ∧ g_sinkAllocationCount r.2 = g_sinkAllocationCount w
     ∧ ms_allocationCount r.2 = ms_allocationCount w
     ∧ registry r.2 = registry w
     ∧ ms_defaultInstance r.2 = ms_defaultInstance w
     ∧ calls r.2 = calls w
     ∧ script r.2 = script w).
Proof.
  intros r. subst r. rewrite Initialize_cases.
  destruct (Str.empty appName || Str.empty logDir)%bool eqn:Hemp.
  { simpl. split_and!; eauto 10. }
  assert (¬ (appName = "" ∨ logDir = "")) as Hne.
  { intros [-> | ->]; simpl in Hemp; [done|].
    by rewrite orb_true_r in Hemp. }
  simpl.
  destruct (Initialize_logFilePath _ _) as [p|].
  2: { simpl. split_and!; eauto 10. done. }
  unfold try_result, bind.
  match goal with
  | |- context [Initialize_instance ?a ?b ?c ?d ?e ?f ?g ?h ?w0] =>
      destruct (Initialize_instance a b c d e f g h w0) as [[e'|inst] w1]
  end.
  { simpl. split_and!; eauto; done. }
  match goal with
  | |- context [Initialize_finish ?a ?b ?c ?d ?e ?f ?w0] =>
      pose proof (Initialize_finish_returns a b c d e f w0) as Hr;
      destruct (Initialize_finish a b c d e f w0) as [[e'|r] w2]
  end; simpl in *.
  - split_and!; eauto; done.
  - subst r. split_and!; eauto; done.
Qed.

Lemma X16_Initialize_refusal_creates_nothing_witness :
  Initialize no_env "" "/tmp" E_INFO (boot []) = (E_INVALID_PARAMETER, boot [])
  ∧ registry
      (Initialize no_env "svc" (Str.replicate 250 "d") E_INFO (boot [])).2
    = ∅.
Proof.
  split.
  - apply (X16_Initialize_refusal_creates_nothing no_env "" "/tmp" E_INFO
             (boot [])). by left.
  - apply (X16_Initialize_refusal_creates_nothing no_env "svc"
             (Str.replicate 250 "d") E_INFO (boot [])).
    vm_compute. reflexivity.
Defined.

Section Initialize_more.

Variables (getenv : string -> option string) (appName logDir : string)
  (level : E_LogLevel).

(** When the instance part returns, the logger it settled on is registered
    under [appName] and wrapped as the default instance; it is the one that
    was registered before if there was one, and a new one named [appName]
    otherwise. *)
Lemma Initialize_instance_serves (w : World)
  useConsole useColors useFile useSyslog logFilePath fileMaxSize
  fileMaxCount :
  match Initialize_instance appName useConsole useColors useFile useSyslog
          logFilePath fileMaxSize fileMaxCount w with
  | (inr inst, w') =>
      ∃ lg, inst = mk_Logger (Some lg)
            ∧ serving appName lg w'
            ∧ match registry w !! appName with
              | Some old => lg = old
              | None => name lg = appName
              end
  | (inl _, _) => True
  end.
Proof.
  destruct (registry w !! appName) as [old|] eqn:Hreg.
  { rewrite (Initialize_instance_existing appName old) by done.
    exists old. split_and!; [done | by split | done]. }
  unfold Initialize_instance, bind at 1, get, gets. rewrite Hreg.
  unfold bind at 1 2, lift.
  destruct (Initialize_sinks _ _ _ _ _ _ _ w) as [sinkVec w1].
  unfold bind at 1. destruct (construct w1) as [[e|[]] w2]; [done|].
  unfold bind at 1, register_logger. simpl.
  destruct (registry w2 !! appName) eqn:Hreg2; [done|].
  simpl. eexists. split_and!; try reflexivity.
  split; simpl; [apply lookup_insert_eq | reflexivity].
Qed.

End Initialize_more.

(** X17.  After an [Initialize] that returned [E_SUCCESS] there is a logger
    registered under the application name and the default instance is its
    wrapper.  It is the logger that was registered under that name before
    the call if there was one, and otherwise a new logger carrying the
    application name. *)
Theorem X17_Initialize_success_installs_default
  (getenv : string -> option string) (appName logDir : string)
  (level : E_LogLevel) (w w1 : World) :
  Initialize getenv appName logDir level w = (E_SUCCESS, w1) →
  ∃ lg, registry w1 !! appName = Some lg
        ∧ ms_defaultInstance w1 = Some (mk_Logger (Some lg))
        ∧ match registry w !! appName with
          | Some old => lg = old
          | None => name lg = appName
          end.
Proof.
  rewrite Initialize_cases.
  destruct (_ || _)%bool; [discriminate|]. simpl.
  destruct (Initialize_logFilePath _ _) as [p|]; [|discriminate].
  unfold try_result, bind.
  match goal with
  | |- context [Initialize_instance ?a ?b ?c ?d ?e ?f ?g ?h ?w0] =>
      pose proof (Initialize_instance_serves a w0 b c d e f g h) as Hi;
      destruct (Initialize_instance a b c d e f g h w0) as [[e'|inst] w']
  end; [discriminate|].
  destruct Hi as (lg & -> & Hserv & Hold).
  match goal with
  | |- context [Initialize_finish ?a ?b ?c ?d ?e ?f ?w0] =>
      pose proof (keeps_Initialize_finish (I := serving appName lg)
                    a b c d e f w0 Hserv) as Hf;
      destruct (Initialize_finish a b c d e f w0) as [[e'|r] w'']
  end; [discriminate|].
  intros [= -> ->]. exists lg. destruct Hf as [H1 H2].
  split_and!; try done.
Qed.

Lemma X17_Initialize_success_installs_default_witness :
  ∃ lg, registry (Initialize no_env "svc" "/tmp" E_INFO (boot [])).2 !! "svc"
        = Some lg
        ∧ name lg = "svc".
Proof.
  destruct (X17_Initialize_success_installs_default no_env "svc" "/tmp" E_INFO
              (boot []) (Initialize no_env "svc" "/tmp" E_INFO (boot [])).2)
    as (lg & H1 & _ & H3); [vm_compute; reflexivity|].
  exists lg. split; [exact H1 | exact H3].
Defined.

(** ** LoggerRegistry: when the engine never throws *)

Section Safe.

Variable reg : gmap string logger.

Lemma safe_ret {A} (a : A) : safe reg (ret a).
Proof. intros w H. split; [by exists a | done]. Qed.

Lemma safe_bind {A B} (m : M A) (k : A -> M B) :
  safe reg m → (∀ a, safe reg (k a)) → safe reg (bind m k).
Proof.
  intros Hm Hk w H. unfold bind. destruct (Hm w H) as [[a Ha] Hq].
  destruct (m w) as [[e|a'] w']; simpl in *; [discriminate|].
  by apply Hk.
Qed.

Lemma safe_call (c : Call) : safe reg (call c).
Proof.
  intros w [Hs Hr]. unfold call, next_outcome. rewrite Hs. simpl.
  split; [by exists tt | done].
Qed.

Lemma safe_construct : safe reg construct.
Proof.
  intros w [Hs Hr]. unfold construct, next_outcome. rewrite Hs. simpl.
  split; [by exists tt | done].
Qed.

Lemma safe_lift {A} (f : World -> A * World) :
  keeps (quiet reg) f → safe reg (lift f).
Proof.
  intros Hf w H. unfold lift. specialize (Hf w H).
  destruct (f w) as [a w']. split; [by exists a | done].
Qed.

Lemma safe_set_colors (on : string) (table : list (E_LogLevel * string)) :
  safe reg (set_colors on table).
Proof.
  induction table as [|[lvl code] rest IH]; simpl; [apply safe_ret|].
  apply safe_bind; [apply safe_call | by intros _].
Qed.

Lemma quiet_LogWithLocation self loc lvl fmt args :
  keeps (quiet reg) (LogWithLocation self loc lvl fmt args).
Proof.
  intros w [Hs Hr]. unfold LogWithLocation, try_result.
  destruct (m_logger self); [|done]. destruct fmt; [|done].
  destruct (_ <? _)%nat; [done|].
  unfold bind, call, next_outcome. by rewrite Hs.
Qed.

Lemma safe_Initialize_finish appName patternName configuredLevel useColors
  useConsole instance :
  safe reg (Initialize_finish appName patternName configuredLevel useColors
              useConsole instance).
Proof.
  unfold Initialize_finish.
  destruct (Formatters.GetPattern patternName "") as [patternResult pattern].
  apply safe_bind; [destruct (_ && _)%bool; apply safe_call | intros _].
  apply safe_bind; [apply safe_call | intros _].
  apply safe_bind.
  { destruct (_ && _)%bool; [|apply safe_ret].
    destruct (m_logger instance); [|apply safe_ret].
    destruct (existsb _ _); [apply safe_set_colors | apply safe_ret]. }
  intros _. apply safe_bind; [|intros _; apply safe_ret].
  apply safe_lift, quiet_LogWithLocation.
Qed.

Lemma quiet_allocate (result : Sink) : keeps (quiet reg) (allocate result).
Proof.
  intros w [Hs Hr]. rewrite allocate_unfold.
  destruct (_ <=? _)%N; [done|].
  unfold next_outcome. by rewrite Hs.
Qed.

Lemma quiet_try_each (requested : list Sink) :
  keeps (quiet reg) (try_each requested).
Proof.
  induction requested as [|s rest IH]; intros w H; simpl; [done|].
  pose proof (quiet_allocate s w H) as H1.
  destruct (allocate s w) as [o w1]. specialize (IH w1 H1).
  by destruct (try_each rest w1).
Qed.

Lemma quiet_Initialize_sinks useConsole useColors useFile useSyslog
  logFilePath fileMaxSize fileMaxCount :
  keeps (quiet reg)
    (Initialize_sinks useConsole useColors useFile useSyslog logFilePath
       fileMaxSize fileMaxCount).
Proof.
  intros w H. rewrite Initialize_sinks_try_each.
  pose proof (quiet_try_each
                (Initialize_requested useConsole useColors useFile useSyslog
                   logFilePath fileMaxSize fileMaxCount) w H) as H1.
  unfold or_fallback.
  destruct (try_each _ w) as [[|s l] w1]; simpl in *; [|done].
  match goal with
  | |- context [allocate ?s ?w0] =>
      pose proof (quiet_allocate s w0 H1) as H2;
      destruct (allocate s w0) as [o w2]
  end. done.
Qed.

End Safe.

(** With the engine never throwing, the instance part of [Initialize]
    returns and leaves the engine quiet. *)
Lemma Initialize_instance_quiet (appName : string) (w : World)
  useConsole useColors useFile useSyslog logFilePath fileMaxSize
  fileMaxCount :
  script w = [] →
  ∃ inst w', Initialize_instance appName useConsole useColors useFile
               useSyslog logFilePath fileMaxSize fileMaxCount w
             = (inr inst, w')
             ∧ script w' = [].
Proof.
  intros Hs.
  destruct (registry w !! appName) as [old|] eqn:Hreg.
  { rewrite (Initialize_instance_existing appName old) by done. eauto. }
  unfold Initialize_instance, bind at 1, get, gets. rewrite Hreg.
  unfold bind at 1 2, lift.
  pose proof (quiet_Initialize_sinks (registry w) useConsole useColors useFile
                useSyslog logFilePath fileMaxSize fileMaxCount w
                (conj Hs eq_refl)) as [Hs1 Hr1].
  destruct (Initialize_sinks _ _ _ _ _ _ _ w) as [sinkVec w1].
  simpl in Hs1, Hr1. unfold bind at 1.
  assert (construct w1 = (inr tt, w1)) as ->.
  { unfold construct, next_outcome. by rewrite Hs1. }
  unfold bind at 1, register_logger. simpl. rewrite Hr1, Hreg. simpl.
  eauto.
Qed.

(** The bounds check of [Initialize] passes on a short directory. *)
Lemma Initialize_logFilePath_some (s : Settings) (appName : string) :
  (useFile s = true →
   (String.length (configuredLogDir s) + String.length appName + 6 <= 255)%nat)
  → ∃ p, Initialize_logFilePath s appName = Some p.
Proof.
  intros Hpath. unfold Initialize_logFilePath.
  destruct (useFile s); [|eauto]. specialize (Hpath eq_refl).
  destruct (Nat.ltb_spec 255
              (String.length (configuredLogDir s) + String.length appName
               + 4 + 2)); [lia | eauto].
Qed.

(** With the sink counter at its cap the instance part builds a logger
    without sinks. *)
Lemma Initialize_instance_at_cap (appName : string) (w : World)
  useConsole useColors useFile useSyslog logFilePath fileMaxSize
  fileMaxCount :
  script w = [] →
  (k_maxSinkAllocations ≤ g_sinkAllocationCount w)%N →
  registry w !! appName = None →
  Initialize_instance appName useConsole useColors useFile useSyslog
    logFilePath fileMaxSize fileMaxCount w
  = (inr (mk_Logger (Some (mk_logger appName []))),
     set_defaultInstance (Some (mk_Logger (Some (mk_logger appName []))))
       (set_registry (insert appName (mk_logger appName [])) w)).
Proof.
  intros Hs Hcap Hreg.
  unfold Initialize_instance, bind at 1, get, gets. rewrite Hreg.
  unfold bind at 1 2, lift.
  assert (Initialize_sinks useConsole useColors useFile useSyslog logFilePath
            fileMaxSize fileMaxCount w = ([], w)) as ->.
  { unfold Initialize_sinks, CreateConsoleSink, CreateSyslogSink,
      CreateFileSink.
    destruct useConsole, useFile, useSyslog, (Str.empty logFilePath); simpl;
      rewrite ?(allocate_at_cap _ w) by exact Hcap; reflexivity. }
  unfold bind at 1.
  assert (construct w = (inr tt, w)) as ->.
  { unfold construct, next_outcome. by rewrite Hs. }
  unfold bind at 1, register_logger. simpl. rewrite Hreg. reflexivity.
Qed.

(** X18.  With the engine never throwing, [Initialize] succeeds whenever
    its two validations pass: the application name and the log directory
    are non-empty and, with file output on, the configured directory and
    the application name pass the bounds check.  It does so even with the
    sink counter at its cap. *)
Theorem X18_Initialize_succeeds_with_a_sound_engine
  (getenv : string -> option string) (appName logDir : string)
  (level : E_LogLevel) (w : World) :
  let s := Initialize_settings (config (merged getenv w)) appName logDir
             level in
  script w = [] → appName ≠ "" → logDir ≠ "" →
  (useFile s = true →
   (String.length (configuredLogDir s) + String.length appName + 6 <= 255)%nat)
  →
  (Initialize getenv appName logDir level w).1 = E_SUCCESS.
Proof.
  intros s Hs Ha Hd Hpath. rewrite Initialize_cases.
  rewrite !Str_empty_false by done. cbn [orb]. cbv zeta. fold s.
  destruct (Initialize_logFilePath_some s appName Hpath) as [p ->].
  unfold try_result, bind.
  match goal with
  | |- context [Initialize_instance ?a ?b ?c ?d ?e ?f ?g ?h ?w0] =>
      destruct (Initialize_instance_quiet a w0 b c d e f g h Hs)
        as (inst & w1 & -> & Hsi)
  end.
  match goal with
  | |- context [Initialize_finish ?a ?b ?c ?d ?e ?f ?w0] =>
      pose proof (Initialize_finish_returns a b c d e f w0) as Hr;
      destruct (safe_Initialize_finish (registry w0) a b c d e f w0
                  (conj Hsi eq_refl)) as [[r Hf] _];
      destruct (Initialize_finish a b c d e f w0) as [[e'|r'] w2]
  end; simpl in *; [discriminate | done].
Qed.

Lemma X18_Initialize_succeeds_with_a_sound_engine_witness :
  (Initialize no_env "svc" "/tmp" E_INFO
     (set_sinkAllocationCount (fun _ => 64%N) (boot []))).1 = E_SUCCESS.
Proof.
  apply X18_Initialize_succeeds_with_a_sound_engine;
    [reflexivity | discriminate | discriminate | intros _; vm_compute; lia].
Defined.

(** X19.  With the sink counter at its cap, the engine never throwing and
    no logger yet registered under the application name, an [Initialize]
    that passes its validations still returns [E_SUCCESS]: not even the
    fallback console sink can be allocated, and the logger it registers and
    installs as default has no sink at all. *)
Theorem X19_Initialize_at_the_cap_builds_a_sinkless_logger
  (getenv : string -> option string) (appName logDir : string)
  (level : E_LogLevel) (w : World) :
  let s := Initialize_settings (config (merged getenv w)) appName logDir
             level in
  let r := Initialize getenv appName logDir level w in
  script w = [] → appName ≠ "" → logDir ≠ "" →
  (useFile s = true →
   (String.length (configuredLogDir s) + String.length appName + 6 <= 255)%nat)
  →
  (k_maxSinkAllocations ≤ g_sinkAllocationCount w)%N →
  registry w !! appName = None →
  r.1 = E_SUCCESS
  ∧ registry r.2 !! appName = Some (mk_logger appName [])
  ∧ ms_defaultInstance r.2 = Some (mk_Logger (Some (mk_logger appName []))).
Proof.
  intros s r Hs Ha Hd Hpath Hcap Hreg. subst r.
  rewrite Initialize_cases.
  rewrite !Str_empty_false by done. cbn [orb]. cbv zeta. fold s.
  destruct (Initialize_logFilePath_some s appName Hpath) as [p ->].
  unfold try_result, bind.
  rewrite (Initialize_instance_at_cap appName (merged getenv w))
    by assumption.
  match goal with
  | |- context [Initialize_finish ?a ?b ?c ?d ?e ?f ?w0] =>
      pose proof (Initialize_finish_returns a b c d e f w0) as Hr;
      pose proof (keeps_Initialize_finish
                    (I := serving appName (mk_logger appName []))
                    a b c d e f w0) as Hf;
      destruct (safe_Initialize_finish (registry w0) a b c d e f w0
                  (conj Hs eq_refl)) as [[r Hq] _];
      destruct (Initialize_finish a b c d e f w0) as [[e'|r'] w2]
  end; simpl in Hq; [discriminate|].
  simpl in Hr, Hf |- *. split; [exact Hr|].
  apply Hf. split; simpl; [apply lookup_insert_eq | reflexivity].
Qed.

Lemma X19_Initialize_at_the_cap_builds_a_sinkless_logger_witness :
  registry
    (Initialize no_env "svc" "/tmp" E_INFO
       (set_sinkAllocationCount (fun _ => 64%N) (boot []))).2 !! "svc"
  = Some (mk_logger "svc" []).
Proof.
  apply (X19_Initialize_at_the_cap_builds_a_sinkless_logger no_env "svc"
           "/tmp" E_INFO (set_sinkAllocationCount (fun _ => 64%N) (boot [])));
    [reflexivity | discriminate | discriminate | intros _; vm_compute; lia
    | vm_compute; discriminate | reflexivity].
Defined.

(** ** Logger: the singleton slots *)

Section Ensures.

Context {I : World -> Prop}.

Lemma ensures_keeps {A} (P : A -> Prop) (m : M A) :
  keeps I m → returns P m → ensures I P m.
Proof. intros Hk Hr w H. split; [by apply Hk | apply Hr]. Qed.

Lemma keeps_ensures {A} (P : A -> Prop) (m : M A) :
  ensures I P m → keeps I m.
Proof. intros Hm w H. by apply Hm. Qed.

Lemma ensures_ret {A} (P : A -> Prop) (a : A) : P a → ensures I P (ret a).
Proof. by intros Ha w H. Qed.

Lemma ensures_throw {A} (P : A -> Prop) (e : exn) : ensures I P (throw e).
Proof. by intros w H. Qed.

Lemma ensures_bind {A B} (Q : A -> Prop) (P : B -> Prop) (m : M A)
  (k : A -> M B) :
  ensures I Q m → (∀ a, Q a → ensures I P (k a)) → ensures I P (bind m k).
Proof.
  intros Hm Hk w H. unfold bind. destruct (Hm w H) as [H1 H2].
  destruct (m w) as [[e|a] w']; simpl in *; [done|].
  by apply Hk.
Qed.

Lemma ensures_catch {A} (P : A -> Prop) (m : M A) (h : exn -> M A) :
  ensures I P m → (∀ e, ensures I P (h e)) → ensures I P (catch m h).
Proof.
  intros Hm Hh w H. unfold catch. destruct (Hm w H) as [H1 H2].
  destruct (m w) as [[e|a] w']; simpl in *; [|done].
  by apply Hh.
Qed.

Lemma ensures_gets {A} (P : A -> Prop) (f : World -> A) :
  (∀ w, I w → P (f w)) → ensures I P (gets f).
Proof. intros Hf w H. split; [done | by apply Hf]. Qed.

(** As [ensures_bind], when the continuation is only known on the value
    read from a state in [I]. *)
Lemma ensures_bind_gets {A B} (P : B -> Prop) (f : World -> A)
  (k : A -> M B) :
  (∀ w, I w →
        I (k (f w) w).2
        ∧ match (k (f w) w).1 with inr b => P b | inl _ => True end)
  → ensures I P (bind (gets f) k).
Proof. intros Hk w H. by apply Hk. Qed.

End Ensures.

Section Returns_more.

Context {A : Type} (P : A -> Prop).

Lemma returns_throw (e : exn) : returns P (throw e).
Proof. by intros w. Qed.

Lemma returns_catch (m : M A) (h : exn -> M A) :
  returns P m → (∀ e, returns P (h e)) → returns P (catch m h).
Proof.
  intros Hm Hh w. unfold catch. specialize (Hm w).
  destruct (m w) as [[e|a] w']; [apply Hh | done].
Qed.

End Returns_more.

(** The three constructors never leave a wrapper without a handle. *)
Lemma ctor_handler_returns (n : string) (e : exn) :
  returns (fun d => m_logger d ≠ None) (ctor_handler n e).
Proof.
  destruct e; simpl; try apply returns_throw.
  repeat (apply returns_bind; intros ?). by apply returns_ret.
Qed.

Lemma Logger_name_returns (n : string) :
  returns (fun d => m_logger d ≠ None) (Logger_name n).
Proof.
  unfold Logger_name. apply returns_catch; [|apply ctor_handler_returns].
  apply returns_bind; intros count.
  destruct (_ <=? _)%N; [apply returns_throw|].
  apply returns_bind; intros [l|]; [by apply returns_ret|].
  apply returns_bind; intros [s|]; [|apply returns_throw].
  repeat (apply returns_bind; intros ?). by apply returns_ret.
Qed.

Lemma Logger_existing_returns (l : option logger) :
  returns (fun d => m_logger d ≠ None) (Logger_existing l).
Proof. destruct l; [by apply returns_ret | apply returns_throw]. Qed.

(** What the factories and the registering constructors leave alone. *)
Section Uncounted_keeps.

Context {I : World -> Prop} `{!Insensitive I} `{!Uncounted I}.

Lemma uncounted_allocate (result : Sink) : keeps I (allocate result).
Proof.
  intros w H. unfold allocate. destruct (_ <=? _)%N; [done|].
  pose proof (keeps_construct w H) as H'.
  destruct (construct w) as [[e|[]] w']; simpl in *; [done|].
  by apply unc_sinks.
Qed.

Lemma uncounted_try_each (requested : list Sink) :
  keeps I (try_each requested).
Proof.
  induction requested as [|s rest IH]; intros w H; simpl; [done|].
  pose proof (uncounted_allocate s w H) as H1.
  destruct (allocate s w) as [o w1]. specialize (IH w1 H1).
  by destruct (try_each rest w1).
Qed.

Lemma uncounted_or_fallback (fallback : Sink) (r : list Sink * World) :
  I r.2 → I (or_fallback fallback r).2.
Proof.
  intros H. unfold or_fallback. destruct r as [[|s l] w]; simpl in *; [|done].
  pose proof (uncounted_allocate fallback w H) as H1.
  by destruct (allocate fallback w).
Qed.

Lemma uncounted_CreateFileSink filename rotate maxSize maxFiles :
  keeps I (CreateFileSink filename rotate maxSize maxFiles).
Proof.
  unfold CreateFileSink. destruct (Str.empty filename);
    [by intros w H | apply uncounted_allocate].
Qed.

Lemma uncounted_CreateMultiSink console logFile syslog :
  keeps I (CreateMultiSink console logFile syslog).
Proof.
  intros w H. rewrite CreateMultiSink_try_each.
  by apply uncounted_or_fallback, uncounted_try_each.
Qed.

Lemma uncounted_Initialize_sinks useConsole useColors useFile useSyslog
  logFilePath fileMaxSize fileMaxCount :
  keeps I
    (Initialize_sinks useConsole useColors useFile useSyslog logFilePath
       fileMaxSize fileMaxCount).
Proof.
  intros w H. rewrite Initialize_sinks_try_each.
  by apply uncounted_or_fallback, uncounted_try_each.
Qed.

Lemma uncounted_register_logger l : keeps I (register_logger l).
Proof.
  intros w H. unfold register_logger.
  destruct (registry w !! name l); [done|]. by apply unc_registry.
Qed.

Lemma uncounted_bump :
  keeps I (modify (set_allocationCount (fun n => wrap32 (n + 1)%N))).
Proof. intros w H. by apply unc_loggers. Qed.

Lemma uncounted_ctor_handler n e : keeps I (ctor_handler n e).
Proof.
  destruct e; simpl; try apply keeps_throw.
  apply keeps_bind.
  { unfold stdout_color_mt.
    apply keeps_bind; [apply keeps_construct | intros _].
    apply keeps_bind; [apply uncounted_register_logger | intros _].
    apply keeps_ret. }
  intros l. apply keeps_bind; [apply uncounted_bump | intros _].
  apply keeps_ret.
Qed.

Lemma uncounted_Logger_name n : keeps I (Logger_name n).
Proof.
  unfold Logger_name. apply keeps_catch; [|apply uncounted_ctor_handler].
  apply keeps_bind; [apply keeps_gets | intros count].
  destruct (_ <=? _)%N; [apply keeps_throw|].
  apply keeps_bind; [apply keeps_gets | intros [l|]]; [apply keeps_ret|].
  apply keeps_bind;
    [apply keeps_lift, uncounted_allocate | intros [s|]];
    [|apply keeps_throw].
  apply keeps_bind; [apply keeps_construct | intros _].
  apply keeps_bind; [apply uncounted_register_logger | intros _].
  apply keeps_bind; [apply uncounted_bump | intros _; apply keeps_ret].
Qed.

Lemma uncounted_Logger_name_file n logFilePath :
  keeps I (Logger_name_file n logFilePath).
Proof.
  unfold Logger_name_file. apply keeps_catch; [|apply uncounted_ctor_handler].
  apply keeps_bind; [apply keeps_gets | intros count].
  destruct (_ <=? _)%N; [apply keeps_throw|].
  apply keeps_bind; [apply keeps_gets | intros [l|]]; [apply keeps_ret|].
  apply keeps_bind;
    [apply keeps_lift, uncounted_CreateMultiSink | intros [|s sinksVec]];
    [apply keeps_throw|].
  apply keeps_bind; [apply keeps_construct | intros _].
  apply keeps_bind; [apply uncounted_register_logger | intros _].
  apply keeps_bind; [apply uncounted_bump | intros _; apply keeps_ret].
Qed.

End Uncounted_keeps.

#[local] Instance handles_insensitive : Insensitive handles.
Proof. by split; intros ? w H. Qed.

#[local] Instance handles_uncounted : Uncounted handles.
Proof. by split; intros ? w H. Qed.

Section Handles.

Lemma handles_install (d : Logger) :
  m_logger d ≠ None →
  keeps handles (modify (set_defaultInstance (Some d))).
Proof.
  intros Hd w [H1 H2]. split; simpl; [|exact H2].
  by intros d' [= <-].
Qed.

Lemma handles_Initialize_instance appName useConsole useColors useFile
  useSyslog logFilePath fileMaxSize fileMaxCount :
  keeps handles
    (Initialize_instance appName useConsole useColors useFile useSyslog
       logFilePath fileMaxSize fileMaxCount).
Proof.
  unfold Initialize_instance.
  apply keeps_bind; [apply keeps_gets | intros existing].
  apply (keeps_ensures (fun _ => True)).
  apply (ensures_bind (fun d => m_logger d ≠ None)).
  { destruct existing as [l|].
    { apply ensures_keeps; [apply keeps_ret|].
      apply (Logger_existing_returns (Some l)). }
    apply ensures_keeps.
    - apply keeps_bind;
        [apply keeps_lift, uncounted_Initialize_sinks | intros sinkVec].
      apply keeps_bind; [apply keeps_construct | intros _].
      apply keeps_bind; [apply uncounted_register_logger | intros _].
      apply keeps_ret.
    - repeat (apply returns_bind; intros ?). by apply returns_ret. }
  intros d Hd. apply ensures_keeps; [|by intros w].
  apply keeps_bind; [by apply handles_install | intros _; apply keeps_ret].
Qed.

Lemma handles_Initialize getenv appName logDir level :
  keeps handles (Initialize getenv appName logDir level).
Proof.
  unfold Initialize. apply keeps_try_result.
  destruct (_ || _)%bool; [apply keeps_ret|].
  apply keeps_bind; [apply keeps_lift, keeps_LoadFromEnv | intros _].
  apply keeps_bind; [apply keeps_gets | intros config].
  simpl. destruct (Initialize_logFilePath _ _); [|apply keeps_ret].
  apply keeps_bind; [apply handles_Initialize_instance | intros instance].
  apply keeps_Initialize_finish.
Qed.

(** [GetDefaultLogger] hands out a wrapper with a handle and leaves the
    slots in order. *)
Lemma handles_GetDefaultLogger :
  ensures handles (fun d => m_logger d ≠ None) GetDefaultLogger.
Proof.
  assert (ensures handles (fun d => m_logger d ≠ None)
            (let* l := Logger_name "emergency" in
             exec modify (set_emergencyLogger (Some l)) in
             ret l)%M) as Hemergency.
  { apply (ensures_bind (fun d => m_logger d ≠ None)).
    { apply ensures_keeps;
        [apply uncounted_Logger_name | apply Logger_name_returns]. }
    intros l Hl. apply (ensures_bind (fun _ => True)).
    { apply ensures_keeps; [|by intros w].
      intros w [H1 H2]. split; simpl; [exact H1|]. by intros d' [= <-]. }
    intros _ _. by apply ensures_ret. }
  unfold GetDefaultLogger. apply ensures_bind_gets. intros w H.
  destruct (ms_defaultInstance w) as [d|] eqn:Hd.
  { split; [exact H | exact (proj1 H d Hd)]. }
  revert w H Hd.
  match goal with
  | |- ∀ w, handles w → _ → handles (?m w).2 ∧ _ =>
      assert (ensures handles (fun d => m_logger d ≠ None) m) as Hc;
        [|by intros w H _; apply Hc]
  end.
  apply ensures_catch.
  - apply (ensures_bind (fun d => m_logger d ≠ None)).
    { apply ensures_keeps;
        [apply uncounted_Logger_name | apply Logger_name_returns]. }
    intros d Hd.
    apply (ensures_bind (fun _ => True)).
    { apply ensures_keeps; [by apply handles_install | by intros w]. }
    intros _ _. apply (ensures_bind (fun _ => True)).
    { apply ensures_keeps; [apply keeps_lift, keeps_LogWithLocation|].
      intros w. unfold lift. by destruct (Warn _ _ _ _ w). }
    intros _ _. by apply ensures_ret.
  - intros _. apply ensures_bind_gets. intros w H.
    destruct (emergencyLogger w) as [l|] eqn:He.
    { split; [exact H | exact (proj2 H l He)]. }
    by apply Hemergency.
Qed.

Lemma handles_Shutdown : keeps handles Shutdown.
Proof.
  unfold Shutdown, spdlog_shutdown. apply keeps_try_result.
  apply keeps_bind.
  { apply keeps_bind; [apply keeps_call | intros _].
    apply keeps_modify. intros w H. by apply unc_registry. }
  intros _. apply keeps_bind; [|intros _; apply keeps_ret].
  apply keeps_modify. intros w [H1 H2]. by split.
Qed.

Lemma handles_step (op : Op) (w : World) : handles w → handles (step op w).
Proof.
  intros H. destruct op; simpl.
  - by apply uncounted_allocate.
  - by apply uncounted_CreateFileSink.
  - by apply uncounted_allocate.
  - by apply uncounted_allocate.
  - by apply uncounted_CreateMultiSink.
  - by apply uncounted_Logger_name.
  - by apply uncounted_Logger_name_file.
  - by destruct existingLogger.
  - by apply handles_Initialize.
  - by apply handles_GetDefaultLogger.
  - by apply keeps_LogWithLocation.
  - by apply keeps_SetPattern.
  - by apply keeps_SetLevel.
  - by apply keeps_Flush.
  - exact H.
  - exact H.
  - exact H.
  - by apply handles_Shutdown.
Qed.

Lemma handles_run (ops : list Op) (w : World) :
  handles w → handles (run ops w).
Proof.
  revert w. induction ops as [|op ops IH]; intros w H; [exact H|].
  apply IH, handles_step, H.
Qed.

End Handles.

(** X20.  In every state the operations can reach from process start,
    under any behaviour of the engine, a wrapper returned by
    [GetDefaultLogger] has a native handle, so no logging call made on it
    ever returns [E_NOT_INITIALIZED]. *)
Theorem X20_default_logger_always_has_a_handle
  (script : list Outcome) (ops : list Op) (d : Logger) :
  (GetDefaultLogger (run ops (boot script))).1 = inr d →
  m_logger d ≠ None
  ∧ ∀ loc level fmt args w,
      (LogWithLocation d loc level fmt args w).1 ≠ E_NOT_INITIALIZED.
Proof.
  intros Hd.
  assert (handles (run ops (boot script))) as H.
  { apply handles_run. by split. }
  destruct (handles_GetDefaultLogger _ H) as [_ Hr].
  rewrite Hd in Hr. split; [exact Hr|].
  intros loc level fmt args w. unfold LogWithLocation, try_result.
  destruct (m_logger d) as [l|]; [|done].
  destruct fmt as [fmt|]; [|done].
  destruct (_ <? _)%nat; [done|].
  unfold bind, call. by destruct (next_outcome w) as [[] ?].
Qed.

Lemma X20_default_logger_always_has_a_handle_witness :
  m_logger (mk_Logger (Some (mk_logger "default" [stdout_color_sink_mt])))
  ≠ None.
Proof.
  apply (X20_default_logger_always_has_a_handle [] [OpShutdown]).
  vm_compute. reflexivity.
Defined.

(** ** Logger: the registering constructors *)

Section Constructors.

Variables (c a : N) (reg : gmap string logger).

Lemma wrap32_small (n : N) : (n < 32)%N → wrap32 (n + 1) = (n + 1)%N.
Proof. intros H. unfold wrap32. apply N.mod_small. lia. Qed.

(** An engine constructor touches neither counter nor the registry. *)
Lemma construct_accounted (w : World) :
  accounted c a reg w →
  ∃ w1, accounted c a reg w1
        ∧ (construct w = (inr tt, w1)
           ∨ construct w = (inl spdlog_ex, w1)
           ∨ construct w = (inl std_exception, w1)).
Proof.
  intros H. unfold construct. pose proof (keeps_next_outcome w H) as H1.
  destruct (next_outcome w) as [[] w1]; simpl in *; eauto 6.
Qed.

(** A factory call that returns a sink raised the sink counter by one. *)
Lemma allocate_accounted (result : Sink) (w : World) :
  accounted c a reg w →
  ∃ w1, (allocate result w = (Some result, w1)
         ∧ accounted (c + 1) a reg w1)
        ∨ (allocate result w = (None, w1) ∧ accounted c a reg w1).
Proof.
  intros H. rewrite allocate_unfold.
  destruct (N.leb_spec k_maxSinkAllocations (g_sinkAllocationCount w))
    as [Hroom|Hroom]; [by exists w; right|].
  pose proof (keeps_next_outcome w H) as H1.
  destruct (next_outcome w) as [[] w1]; simpl in *;
    [|by exists w1; right..].
  eexists. left. split; [reflexivity|].
  destruct H as (Hc & _), H1 as (Hc1 & Ha1 & Hr1).
  split_and!; simpl; [|done..].
  rewrite Hc1. apply wrap32_succ. by rewrite <- Hc, <- Hc1 in *.
Qed.

(** Registering a fresh logger and counting it. *)
Lemma register_and_count (l : logger) (w : World) :
  accounted c a reg w → reg !! name l = None → (a < 32)%N →
  ∃ w1, (exec register_logger l in
         exec modify (set_allocationCount (fun n => wrap32 (n + 1)%N)) in
         ret (mk_Logger (Some l)))%M w
        = (inr (mk_Logger (Some l)), w1)
        ∧ accounted c (a + 1) (<[name l := l]> reg) w1.
Proof.
  intros (Hc & Ha & Hr) Hfresh Hcap.
  unfold bind at 1, register_logger. rewrite Hr, Hfresh.
  eexists. split; [reflexivity|].
  split_and!; simpl; [done | | by rewrite Hr].
  rewrite Ha. by apply wrap32_small.
Qed.

End Constructors.

(** X21.  At 32 logger allocations both registering constructors throw
    [std::runtime_error] and change nothing, whether or not a logger of the
    name is registered.  [GetDefaultLogger] with neither singleton slot
    filled then throws as well: its last-resort emergency logger is built
    by the same constructor. *)
Theorem X21_logger_cap_throws (n logFilePath : string) (w : World) :
  (32 ≤ ms_allocationCount w)%N →
  Logger_name n w
  = (inl (runtime_error "Maximum logger instances exceeded"), w)
  ∧ Logger_name_file n logFilePath w
    = (inl (runtime_error "Maximum logger instances exceeded"), w)
  ∧ (ms_defaultInstance w = None → emergencyLogger w = None →
     GetDefaultLogger w
     = (inl (runtime_error "Maximum logger instances exceeded"), w)).
Proof.
  intros Hcap.
  assert (∀ m, Logger_name m w
               = (inl (runtime_error "Maximum logger instances exceeded"), w))
    as Hname.
  { intros m. unfold Logger_name, catch, bind at 1, gets.
    by destruct (N.leb_spec 32 (ms_allocationCount w)); [|lia]. }
  split_and!.
  - apply Hname.
  - unfold Logger_name_file, catch, bind at 1, gets.
    by destruct (N.leb_spec 32 (ms_allocationCount w)); [|lia].
  - intros Hd He. unfold GetDefaultLogger, bind at 1, gets. rewrite Hd.
    unfold catch, bind at 1. rewrite Hname.
    unfold bind at 1, gets. rewrite He.
    unfold bind at 1. by rewrite Hname.
Qed.

Lemma X21_logger_cap_throws_witness :
  Logger_name "late" (set_allocationCount (fun _ => 32%N) (boot []))
  = (inl (runtime_error "Maximum logger instances exceeded"),
     set_allocationCount (fun _ => 32%N) (boot [])).
Proof.
  refine (proj1 (X21_logger_cap_throws "late" "late.log"
                   (set_allocationCount (fun _ => 32%N) (boot [])) _)).
  vm_compute. discriminate.
Defined.

(** X22.  Whenever [Logger(name)] returns, fewer than 32 loggers were
    allocated.  For a registered name it wraps that logger and changes
    nothing.  For a new name, whichever way it got there (its own console
    sink, or the engine's console logger after a [spdlog_ex]), the logger it
    wraps and registers carries the name and exactly one colour console
    sink, and both allocation counters went up by one. *)
Theorem X22_Logger_name_contract (c a : N) (reg : gmap string logger)
  (n : string) (d : Logger) (w w' : World) :
  accounted c a reg w →
  Logger_name n w = (inr d, w') →
  (a < 32)%N
  ∧ match reg !! n with
    | Some l => d = mk_Logger (Some l) ∧ w' = w
    | None =>
        d = mk_Logger (Some (mk_logger n [stdout_color_sink_mt]))
        ∧ accounted (c + 1) (a + 1)
            (<[n := mk_logger n [stdout_color_sink_mt]]> reg) w'
    end.
Proof.
  intros Hacc. pose proof Hacc as (Hc & Ha & Hr).
  unfold Logger_name, catch, bind at 1, gets. rewrite Ha.
  destruct (N.leb_spec 32 a) as [Hcap|Hcap]; [discriminate|].
  intros H. split; [exact Hcap|]. revert H.
  unfold bind at 1, get, gets. rewrite Hr.
  destruct (reg !! n) as [l|] eqn:Hreg; [by intros [= <- <-]|].
  unfold bind at 1, lift, CreateConsoleSink.
  destruct (allocate_accounted c a reg stdout_color_sink_mt w Hacc)
    as [w1 [[-> H1]|[-> H1]]]; [|discriminate].
  unfold bind at 1.
  destruct (construct_accounted _ _ _ w1 H1) as (w2 & H2 & [->|[->| ->]]).
  - destruct (register_and_count _ _ _
                (mk_logger n [stdout_color_sink_mt]) w2 H2 Hreg Hcap)
      as (w3 & -> & H3).
    by intros [= <- <-].
  - unfold ctor_handler, bind at 1, stdout_color_mt, bind at 1.
    destruct (construct_accounted _ _ _ w2 H2) as (w3 & H3 & [->|[->| ->]]);
      [|discriminate..].
    pose proof H3 as (_ & _ & Hr3).
    unfold bind at 1, register_logger. simpl. rewrite Hr3, Hreg.
    unfold bind at 1, modify. intros [= <- <-]. split; [done|].
    destruct H3 as (Hc3 & Ha3 & _).
    split_and!; simpl; [done | | by rewrite Hr3].
    rewrite Ha3. by apply wrap32_small.
  - discriminate.
Qed.

Lemma X22_Logger_name_contract_witness :
  (0 < 32)%N
  ∧ match (∅ : gmap string logger) !! "default" with
    | Some l =>
        (Logger_name "default" (boot [Ok; ThrowSpdlogEx])).1
        = inr (mk_Logger (Some l))
    | None =>
        accounted 1 1
          (<["default" := mk_logger "default" [stdout_color_sink_mt]]> ∅)
          (Logger_name "default" (boot [Ok; ThrowSpdlogEx])).2
    end.
Proof.
  destruct (X22_Logger_name_contract 0 0 ∅ "default"
              (mk_Logger (Some (mk_logger "default" [stdout_color_sink_mt])))
              (boot [Ok; ThrowSpdlogEx])
              (Logger_name "default" (boot [Ok; ThrowSpdlogEx])).2)
    as [Hcap Hnew]; [by split_and! | reflexivity |].
  split; [exact Hcap | exact (proj2 Hnew)].
Defined.

(** ** Logger: GetDefaultLogger *)

#[local] Instance slots_insensitive d e : Insensitive (slots d e).
Proof. by split; intros ? w H. Qed.

#[local] Instance slots_uncounted d e : Uncounted (slots d e).
Proof. by split; intros ? w H. Qed.

(** X23.  [GetDefaultLogger] returns the default instance unchanged when
    there is one.  Otherwise, when it returns, either it has installed what
    it returns as the default instance and left the emergency slot alone, or
    it returns the emergency logger and the default slot is still empty, so
    that the next call tries to build the default logger again. *)
Theorem X23_GetDefaultLogger_slots (d : Logger) (w w' : World) :
  GetDefaultLogger w = (inr d, w') →
  match ms_defaultInstance w with
  | Some d0 => d = d0 ∧ w' = w
  | None =>
      slots (Some d) (emergencyLogger w) w' ∨ slots None (Some d) w'
  end.
Proof.
  unfold GetDefaultLogger, bind at 1, gets.
  destruct (ms_defaultInstance w) as [d0|] eqn:Hd; [by intros [= <- <-]|].
  assert (slots None (emergencyLogger w) w) as Hw by done.
  unfold catch, bind at 1.
  pose proof (uncounted_Logger_name "default" w Hw) as H1.
  destruct (Logger_name "default" w) as [[e|d1] w1]; simpl in H1.
  - unfold bind at 1, gets. destruct H1 as [Hd1 He1].
    destruct (emergencyLogger w1) as [l|] eqn:He; [|clear He1].
    { intros [= <- <-]. by right. }
    unfold bind at 1.
    pose proof (uncounted_Logger_name "emergency" w1 (conj Hd1 He)) as H2.
    destruct (Logger_name "emergency" w1) as [[e2|l] w2]; simpl in H2;
      [discriminate|].
    intros [= <- <-]. right. destruct H2 as [Hd2 _]. by split.
  - unfold bind at 1, modify, bind at 1, lift.
    match goal with
    | |- context [Warn ?a ?b ?c ?e ?w0] =>
        pose proof (keeps_LogWithLocation (I := slots (Some d1)
                                                  (emergencyLogger w))
                      a b E_WARN c e w0) as H2;
        change (Warn a b c e w0) with (LogWithLocation a b E_WARN c e w0);
        destruct (LogWithLocation a b E_WARN c e w0) as [r w2]
    end.
    intros [= <- <-]. left. apply H2. destruct H1 as [_ He1]. by split.
Qed.

Lemma X23_GetDefaultLogger_slots_witness :
  slots (Some (mk_Logger (Some (mk_logger "emergency" [stdout_color_sink_mt]))))
    None (GetDefaultLogger (boot [ThrowStd])).2
  ∨ slots None
      (Some (mk_Logger (Some (mk_logger "emergency" [stdout_color_sink_mt]))))
      (GetDefaultLogger (boot [ThrowStd])).2.
Proof.
  apply (X23_GetDefaultLogger_slots _ (boot [ThrowStd])). reflexivity.
Defined.

(** ** ConfigStore: reading an assignment from a file *)

Section Trimming.

Import Str.

Lemma all_chars_impl (P Q : ascii -> bool) (s : string) :
  (∀ c, P c = true → Q c = true) →
  all_chars P s = true → all_chars Q s = true.
Proof.
  intros HPQ. induction s as [|c s IH]; simpl; [done|].
  rewrite !andb_true_iff. intros [Hc Hs]. split; [by apply HPQ | by apply IH].
Qed.

Lemma blanks_cons (c : ascii) (s : string) :
  blanks (String c s) ↔ is_blank c = true ∧ blanks s.
Proof. unfold blanks. simpl. apply andb_true_iff. Qed.

Lemma blanks_append (a b : string) : blanks a → blanks b → blanks (a +:+ b).
Proof. unfold blanks. intros Ha Hb. by rewrite all_chars_append, Ha, Hb. Qed.

Lemma lacks_append (d : ascii) (a b : string) :
  lacks d a → lacks d b → lacks d (a +:+ b).
Proof. unfold lacks. intros Ha Hb. by rewrite all_chars_append, Ha, Hb. Qed.

Lemma blanks_lacks (d : ascii) (s : string) :
  is_blank d = false → blanks s → lacks d s.
Proof.
  intros Hd. apply all_chars_impl. intros c Hc.
  destruct (Ascii.eqb_spec c d) as [->|]; [congruence | done].
Qed.

Lemma find_last_blanks (q : string) :
  blanks q → find_last_not_of_blank q = None.
Proof.
  induction q as [|c q IH]; [done|].
  rewrite blanks_cons. intros [Hc Hq]. simpl. by rewrite IH, Hc.
Qed.

Lemma find_last_append_r (s q : string) :
  blanks q → find_last_not_of_blank (s +:+ q) = find_last_not_of_blank s.
Proof.
  intros Hq. induction s as [|c s IH]; [by apply find_last_blanks|].
  rewrite append_cons. simpl. by rewrite IH.
Qed.

Lemma find_last_append_l (u v : string) (l : nat) :
  find_last_not_of_blank v = Some l →
  find_last_not_of_blank (u +:+ v) = Some (String.length u + l)%nat.
Proof.
  intros Hv. induction u as [|c u IH]; [done|].
  rewrite append_cons. simpl. by rewrite IH.
Qed.

Lemma find_first_append (s u : string) (f : nat) :
  find_first_not_of_blank s = Some f →
  find_first_not_of_blank (s +:+ u) = Some f.
Proof.
  revert f. induction s as [|c s IH]; intros f; [done|].
  rewrite append_cons. simpl. destruct (is_blank c); [|done].
  destruct (find_first_not_of_blank s) as [g|]; [|done].
  by rewrite (IH g eq_refl).
Qed.

Lemma find_first_blanks_l (p s : string) (f : nat) :
  blanks p → find_first_not_of_blank s = Some f →
  find_first_not_of_blank (p +:+ s) = Some (String.length p + f)%nat.
Proof.
  intros Hp Hs. induction p as [|c p IH]; [done|].
  apply blanks_cons in Hp as [Hc Hp].
  rewrite append_cons. simpl. by rewrite Hc, IH.
Qed.

Lemma substring_prefix (s q : string) :
  substring 0 (String.length s) (s +:+ q) = s.
Proof.
  induction s as [|c s IH]; [by destruct q|].
  rewrite append_cons. simpl. by rewrite IH.
Qed.

Lemma substring_middle (p s q : string) :
  substring (String.length p) (String.length s) (p +:+ s +:+ q) = s.
Proof.
  induction p as [|c p IH]; [exact (substring_prefix s q)|].
  rewrite append_cons. exact IH.
Qed.

Lemma tight_length (s : string) : tight s → (1 <= String.length s)%nat.
Proof. intros [H _]. destruct s; [discriminate | simpl; lia]. Qed.

Lemma tight_first (s : string) :
  tight s → ∃ a m, s = String a m ∧ is_blank a = false.
Proof.
  intros [H _]. destruct s as [|a m]; [discriminate|].
  exists a, m. split; [done|]. simpl in H.
  destruct (is_blank a); [|done].
  by destruct (find_first_not_of_blank m).
Qed.

(** A text that opens tight and closes tight is tight. *)
Lemma tight_append (u v : string) :
  find_first_not_of_blank u = Some O →
  find_last_not_of_blank v = Some (String.length v - 1)%nat →
  (1 <= String.length v)%nat →
  tight (u +:+ v).
Proof.
  intros Hu Hv Hlen. split; [by apply find_first_append|].
  rewrite (find_last_append_l u v _ Hv), length_append. f_equal. lia.
Qed.

(** Trimming blanks off both ends of a padded tight text gives it back. *)
Lemma pad_trim (p s q : string) :
  tight s → blanks p → blanks q →
  ∃ f l, find_first_not_of_blank (p +:+ s +:+ q) = Some f
         ∧ find_last_not_of_blank (p +:+ s +:+ q) = Some l
         ∧ substr (p +:+ s +:+ q) f (l - f + 1) = s.
Proof.
  intros Hs Hp Hq. pose proof (tight_length s Hs) as Hlen.
  destruct Hs as [Hf Hl].
  exists (String.length p), (String.length p + (String.length s - 1))%nat.
  split_and!.
  - rewrite (find_first_blanks_l p (s +:+ q) 0 Hp);
      [f_equal; lia | by apply find_first_append].
  - apply find_last_append_l. by rewrite find_last_append_r.
  - unfold substr.
    replace (String.length p + (String.length s - 1) - String.length p + 1)%nat
      with (String.length s) by lia.
    apply substring_middle.
Qed.

Lemma trimmed_pad (p s q : string) :
  tight s → blanks p → blanks q → trimmed (p +:+ s +:+ q) = Some s.
Proof.
  intros Hs Hp Hq.
  destruct (pad_trim p s q Hs Hp Hq) as (f & l & Hf & Hl & Hsub).
  unfold trimmed. by rewrite Hf, Hl, Hsub.
Qed.

Lemma trimmed_blanks (s : string) : blanks s → trimmed s = None.
Proof.
  intros H. unfold trimmed. rewrite (find_last_blanks s H).
  by destruct (find_first_not_of_blank s).
Qed.

Lemma split_first_append (d : ascii) (k v : string) :
  lacks d k → split_first d (k +:+ String d v) = Some (k, v).
Proof.
  unfold lacks. induction k as [|c k IH]; simpl.
  - intros _. change ("" +:+ String d v) with (String d v). simpl.
    by rewrite Ascii.eqb_refl.
  - rewrite andb_true_iff, negb_true_iff. intros [Hc Hk].
    rewrite ?append_cons. simpl. by rewrite Hc, IH.
Qed.

Lemma unsnoc_append (s : string) (c : ascii) :
  unsnoc (s +:+ String c "") = Some (s, c).
Proof.
  induction s as [|a s IH]; [done|].
  rewrite append_cons. simpl. by rewrite IH.
Qed.

Lemma getlines_line (a rest : string) :
  lacks "010" a → getlines (a +:+ nl +:+ rest) = a :: getlines rest.
Proof.
  unfold lacks. induction a as [|c a IH]; simpl; [done|].
  rewrite andb_true_iff, negb_true_iff. intros [Hc Ha].
  rewrite ?append_cons. simpl. by rewrite Hc, IH.
Qed.

Lemma truncate_small (n : nat) (s : string) :
  (String.length s <= n)%nat → truncate n s = s.
Proof.
  intros H. unfold truncate.
  by destruct (Nat.ltb_spec n (String.length s)); [lia|].
Qed.

Lemma match_sectionRegex_other (a : ascii) (m : string) :
  a ≠ "["%char → match_sectionRegex (String a m) = None.
Proof.
  intros H. destruct a as [[] [] [] [] [] [] [] []]; first [done | reflexivity].
Qed.

Lemma blank_no_mark (c : ascii) :
  is_blank c = true → (Ascii.eqb c "#" || Ascii.eqb c ";")%bool = false.
Proof.
  unfold is_blank. rewrite orb_true_iff.
  intros [H|H]; apply Ascii.eqb_eq in H; by subst.
Qed.

(** The header line of a section. *)
Lemma header_name_bracket (section : string) :
  all_chars regex_dot section = true →
  header_name ("[" +:+ section +:+ "]") = Some section.
Proof.
  intros Hdot.
  assert (tight (String "[" (section +:+ "]"))) as Ht.
  { apply (tight_append "[" (section +:+ "]")); [done | |].
    - rewrite (find_last_append_l section "]" 0 eq_refl), length_append.
      simpl. f_equal. lia.
    - rewrite length_append. simpl. lia. }
  destruct (pad_trim "" _ "" Ht eq_refl eq_refl) as (f & l & Hf & Hl & Hsub).
  change ("" +:+ String "[" (section +:+ "]") +:+ "")
    with (String "[" (section +:+ "]") +:+ "") in Hf, Hl, Hsub.
  rewrite append_nil_r in Hf, Hl, Hsub.
  unfold header_name.
  change ("[" +:+ section +:+ "]") with (String "[" (section +:+ "]")).
  cbn [Str.empty starts_comment orb Ascii.eqb Bool.eqb].
  rewrite Hf, Hl.
  change (default O (Some l)) with l. rewrite Hsub.
  unfold match_sectionRegex. by rewrite unsnoc_append, Hdot.
Qed.

(** A line holding an assignment, once its parts are told apart. *)
Lemma LoadFromFile_line_body (key q V value p trailing cur : string)
  (c : LogConfig) :
  file_key key → blanks q → blanks p → blanks trailing →
  tight ((key +:+ q) +:+ String "=" V) → lacks "=" V →
  default "" (trimmed V) = value →
  LoadFromFile_line (p +:+ ((key +:+ q) +:+ String "=" V) +:+ trailing) cur c
  = let '(entries, m) := index (m_configData c) cur in
    if (k_maxEntriesPerSection <=? N.of_nat (size entries))%N
    then Continue (cur,
           {| m_configData := m; g_sectionCount := g_sectionCount c |})
    else Continue (cur,
           {| m_configData :=
                <[cur := <[truncate k_maxKeyLength key
                           := truncate k_maxValueLength value]> entries]> m;
              g_sectionCount := g_sectionCount c |}).
Proof.
  intros (Hkt & Hke & _ & Hk1) Hq Hp Htr Hbody HV Hval.
  destruct key as [|a m]; [done|]. destruct Hk1 as (Hbr & Hhash & Hsemi).
  set (body := (String a m +:+ q) +:+ String "=" V) in *.
  destruct (pad_trim p body trailing Hbody Hp Htr)
    as (f & l & Hf & Hl & Hsub).
  unfold LoadFromFile_line.
  assert ((Str.empty (p +:+ body +:+ trailing)
           || starts_comment (p +:+ body +:+ trailing))%bool = false) as ->.
  { destruct p as [|c' p'].
    - change ("" +:+ body +:+ trailing)
        with (String a (((m +:+ q) +:+ String "=" V) +:+ trailing)).
      simpl. apply orb_false_iff.
      split; by apply Ascii.eqb_neq.
    - apply blanks_cons in Hp as [Hc' _]. rewrite append_cons. simpl.
      by apply blank_no_mark. }
  rewrite Hf, Hl.
  change (default O (Some l)) with l. rewrite Hsub.
  change body with (String a ((m +:+ q) +:+ String "=" V)) at 1.
  rewrite match_sectionRegex_other by done.
  unfold match_keyValueRegex. subst body.
  rewrite split_first_append
    by (apply lacks_append; [done | by apply blanks_lacks]).
  change (Str.empty (String a m +:+ q)) with false.
  cbn [negb andb]. unfold lacks in HV. rewrite HV.
  change (String a m +:+ q) with ("" +:+ String a m +:+ q).
  rewrite (trimmed_pad "" (String a m) q Hkt eq_refl Hq).
  by rewrite Hval.
Qed.

(** A line holding an assignment: the key, cut to 64 characters, gets the
    value, cut to 256, in the current section unless that is full. *)
Lemma LoadFromFile_line_assignment (key value p q r t cur : string)
  (c : LogConfig) :
  file_key key → file_value value →
  blanks p → blanks q → blanks r → blanks t →
  LoadFromFile_line (p +:+ key +:+ q +:+ "=" +:+ r +:+ value +:+ t) cur c
  = let '(entries, m) := index (m_configData c) cur in
    if (k_maxEntriesPerSection <=? N.of_nat (size entries))%N
    then Continue (cur,
           {| m_configData := m; g_sectionCount := g_sectionCount c |})
    else Continue (cur,
           {| m_configData :=
                <[cur := <[truncate k_maxKeyLength key
                           := truncate k_maxValueLength value]> entries]> m;
              g_sectionCount := g_sectionCount c |}).
Proof.
  intros Hk (Hv & Hve & _) Hp Hq Hr Ht.
  pose proof Hk as (Hkt & _).
  destruct Hv as [->|Hv].
  - rewrite <- (LoadFromFile_line_body key q "" "" p (r +:+ t) cur c);
      try done.
    + f_equal. change ("" +:+ t) with t.
      change ("=" +:+ r +:+ t) with (String "=" ("" +:+ r +:+ t)).
      by rewrite !append_assoc.
    + by apply blanks_append.
    + rewrite append_assoc. apply tight_append; [apply Hkt | |].
      * rewrite (find_last_append_l q "=" 0 eq_refl), length_append.
        simpl. f_equal. lia.
      * rewrite length_append. simpl. lia.
  - pose proof (tight_length value Hv) as Hlen.
    rewrite <- (LoadFromFile_line_body key q (r +:+ value) value p t cur c);
      try done.
    + f_equal.
      change ("=" +:+ r +:+ value +:+ t)
        with (String "=" (r +:+ value +:+ t)).
      rewrite !append_assoc.
      change (String "=" (r +:+ value) +:+ t)
        with (String "=" ((r +:+ value) +:+ t)).
      by rewrite !append_assoc.
    + rewrite append_assoc.
      change (q +:+ String "=" (r +:+ value))
        with (q +:+ "=" +:+ r +:+ value).
      rewrite <- !append_assoc.
      apply tight_append;
        [repeat apply find_first_append; apply Hkt | apply Hv | done].
    + apply lacks_append; [by apply blanks_lacks | done].
    + rewrite <- (append_nil_r value) at 1.
      by rewrite (trimmed_pad r value "" Hv Hr eq_refl).
Qed.

End Trimming.

(** X24.  [LoadFromFile] on a file made of a section header and one
    assignment below it, the key and the value possibly surrounded by
    blanks: when the section counter is below its cap and the section, if
    it exists already, holds fewer than 64 entries, the call succeeds and
    the section holds the value, cut to 256 characters, under the key, cut
    to 64.  A key and value within those lengths are then read back
    unchanged by [GetString]. *)
Theorem X24_LoadFromFile_stores_an_assignment
  (fs : string -> option string)
  (path section key value p q r t dflt : string) (c : LogConfig) :
  path ≠ "" →
  fs path = Some (assignment_text section key value p q r t) →
  Str.all_chars regex_dot section = true →
  file_key key → file_value value →
  blanks p → blanks q → blanks r → blanks t →
  (g_sectionCount c < k_maxSections)%N →
  (∀ e, m_configData c !! section = Some e →
        (N.of_nat (size e) < k_maxEntriesPerSection)%N) →
  (LoadFromFile fs path c).1 = E_SUCCESS
  ∧ stored (LoadFromFile fs path c).2 section (truncate k_maxKeyLength key)
    = Some (truncate k_maxValueLength value)
  ∧ (section ≠ "" → (String.length key <= k_maxKeyLength)%nat →
     (String.length value <= k_maxValueLength)%nat →
     GetString (LoadFromFile fs path c).2 section key dflt = value).
Proof.
  intros Hpath Hfs Hsec Hk Hv Hp Hq Hr Ht Hroom Hentries.
  assert ((LoadFromFile fs path c).1 = E_SUCCESS
          ∧ stored (LoadFromFile fs path c).2 section
              (truncate k_maxKeyLength key)
            = Some (truncate k_maxValueLength value)) as [Hok Hstored].
  { unfold LoadFromFile. rewrite Str_empty_false, Hfs by done.
    unfold assignment_text.
    rewrite getlines_line.
    2:{ change ("[" +:+ section +:+ "]") with (String "[" (section +:+ "]")).
        apply (lacks_append _ "["); [done|].
        apply lacks_append; [|done].
        revert Hsec. apply all_chars_impl. intros ch. unfold regex_dot.
        rewrite !negb_true_iff, orb_false_iff. by intros [-> _]. }
    
    change ((p +:+ key +:+ q +:+ "=" +:+ r +:+ value +:+ t) +:+ nl)
      with ((p +:+ key +:+ q +:+ "=" +:+ r +:+ value +:+ t) +:+ nl +:+ "").
    rewrite getlines_line.
    2:{ destruct Hk as (_ & _ & Hkl & _), Hv as (_ & _ & Hvl).
        apply lacks_append; [by apply blanks_lacks|].
        apply lacks_append; [done|].
        apply lacks_append; [by apply blanks_lacks|].
        apply (lacks_append _ "="); [done|].
        apply lacks_append; [by apply blanks_lacks|].
        apply lacks_append; [done | by apply blanks_lacks]. }
    
    change (getlines "") with (@nil string).
    rewrite LoadFromFile_loop_cons.
    rewrite (LoadFromFile_line_header _ _ section)
      by by apply header_name_bracket.
    
    destruct (N.leb_spec k_maxSections (g_sectionCount c)); [lia|].
    destruct (m_configData c !! section) as [e|] eqn:Hlook.
    - rewrite LoadFromFile_loop_cons, LoadFromFile_line_assignment by done.
      
      unfold index. rewrite Hlook.
      destruct (N.leb_spec k_maxEntriesPerSection (N.of_nat (size e)));
        [specialize (Hentries e eq_refl); lia|].
      
      split; [done|]. unfold stored. cbn [LoadFromFile_loop snd m_configData].
      rewrite lookup_insert_eq. cbn [mbind option_bind]. by rewrite lookup_insert_eq.
    - rewrite LoadFromFile_loop_cons, LoadFromFile_line_assignment by done.
      unfold index. cbn [m_configData]. rewrite lookup_insert_eq.
      rewrite map_size_empty. 
      
      change (k_maxEntriesPerSection <=? N.of_nat 0)%N with false. cbv iota.
      split; [done|]. unfold stored. cbn [LoadFromFile_loop snd m_configData].
      rewrite lookup_insert_eq. cbn [mbind option_bind]. by rewrite lookup_insert_eq. }
  split_and!; [done..|].
  intros Hne Hklen Hvlen.
  rewrite (truncate_small _ key), (truncate_small _ value) in Hstored by done.
  destruct Hk as (Hkt & _). apply tight_length in Hkt.
  apply GetString_found; [done | | done].
  intros ->. simpl in Hkt. lia.
Qed.

Lemma X24_LoadFromFile_stores_an_assignment_witness :
  GetString
    (LoadFromFile
       (one_file (assignment_text "app" "log file" "/var/log/a.log"
                    "  " " " " " ""))
       "vsnlogger.conf" LogConfig_ctor).2
    "app" "log file" "none"
  = "/var/log/a.log".
Proof.
  apply (X24_LoadFromFile_stores_an_assignment
           (one_file (assignment_text "app" "log file" "/var/log/a.log"
                        "  " " " " " ""))
           "vsnlogger.conf" "app" "log file" "/var/log/a.log"
           "  " " " " " "" "none" LogConfig_ctor).
  - discriminate.
  - reflexivity.
  - reflexivity.
  - unfold file_key, tight, lacks. simpl.
    split_and!; first [reflexivity | discriminate].
  - unfold file_value, tight, lacks. simpl.
    split_and!; first [reflexivity | right; by split].
  - reflexivity.
  - reflexivity.
  - reflexivity.
  - reflexivity.
  - reflexivity.
  - intros e He. exfalso. revert He. by vm_compute.
  - discriminate.
  - unfold k_maxKeyLength. simpl. lia.
  - unfold k_maxValueLength. simpl. lia.
Defined.

(** ** Logger: the calls that reach the engine *)

Lemma to_int_small (n : N) : (n < 2 ^ 31)%N → to_int n = Z.of_N n.
Proof.
  intros H. unfold to_int, wrap32. rewrite N.mod_small by lia.
  destruct (Z.ltb_spec (Z.of_N n) (2 ^ 31)); lia.
Qed.

Lemma to_int_large (n : N) :
  (2 ^ 31 ≤ n < 2 ^ 32)%N → to_int n = Z.of_N n - 2 ^ 32.
Proof.
  intros H. unfold to_int, wrap32. rewrite N.mod_small by lia.
  destruct (Z.ltb_spec (Z.of_N n) (2 ^ 31)); lia.
Qed.

(** X25.  A logging call on a wrapper without handle returns
    [E_NOT_INITIALIZED] and changes nothing, whatever the format.  The call
    returns [E_SUCCESS] exactly when the wrapper has a handle, the format is
    not null and at most 256 characters long (256 itself passes) and the
    engine does not throw; the engine has then been called once, with the
    name of the wrapped logger, the level, format and arguments as given,
    and the location with its line number converted to [int]: a line below
    2147483648 arrives as it is, a line from 2147483648 up to 4294967295
    arrives lowered by 4294967296, hence negative.  In every other case the
    engine trace is as before.  The call never touches the configuration,
    the allocation counters, the registry or the singleton slots. *)
Theorem X25_LogWithLocation_outcome (self : Logger) (loc : SourceLocation_t)
  (level : E_LogLevel) (fmt : option string) (args : list string)
  (w : World) :
  let r := LogWithLocation self loc level fmt args w in
  (m_logger self = None → r = (E_NOT_INITIALIZED, w))
  ∧ (r.1 = E_SUCCESS
     ↔ ∃ l f, m_logger self = Some l ∧ fmt = Some f
              ∧ (String.length f <= 256)%nat ∧ (next_outcome w).1 = Ok)
  ∧ (∀ l f, m_logger self = Some l → fmt = Some f → r.1 = E_SUCCESS →
            ∃ ln,
              calls r.2
              = log (name l)
                  (mk_source_loc (m_filename loc) ln (m_function loc))
                  level f args :: calls w
              ∧ ((m_line loc < 2 ^ 31)%N → ln = Z.of_N (m_line loc))
              ∧ ((2 ^ 31 ≤ m_line loc < 2 ^ 32)%N →
                 ln = Z.of_N (m_line loc) - 2 ^ 32))
  ∧ (r.1 ≠ E_SUCCESS → calls r.2 = calls w)
  ∧ config r.2 = config w
  ∧ accounted (g_sinkAllocationCount w) (ms_allocationCount w) (registry w)
      r.2
  ∧ slots (ms_defaultInstance w) (emergencyLogger w) r.2.
Proof.
  intros r. subst r. unfold LogWithLocation, try_result.
  destruct (m_logger self) as [l|].
  2:{ split_and!; try done. split; [done|]. by intros (l & f & [=] & _). }
  destruct fmt as [f|].
  2:{ split_and!; try done. split; [done|]. by intros (l' & f & _ & [=] & _). }
  unfold k_maxMessageLength.
  destruct (Nat.ltb_spec 256 (String.length f)) as [Hlen|Hlen].
  { split_and!; try done. split; [done|].
    intros (l' & f' & _ & [= <-] & Hle & _). lia. }
  unfold bind, call, next_outcome.
  destruct (script w) as [|[] rest]; simpl; split_and!; try done;
    try (intros l' f' [= <-] [= <-] _; eexists;
         split_and!; [reflexivity | apply to_int_small | apply to_int_large]);
    try (split; [by intros _; exists l, f | done]);
    try (split; [done | by intros (? & ? & _ & _ & _ & [=])]).
Qed.

Lemma X25_LogWithLocation_outcome_witness :
  calls
    (LogWithLocation (mk_Logger (Some (mk_logger "svc" [])))
       (mk_loc "main.cpp" 2147483648 "main") E_INFO (Some "up") []
       (boot [])).2
  = [log "svc" (mk_source_loc "main.cpp" (-2147483648) "main") E_INFO "up" []].
Proof.
  destruct (X25_LogWithLocation_outcome
              (mk_Logger (Some (mk_logger "svc" [])))
              (mk_loc "main.cpp" 2147483648 "main") E_INFO (Some "up") []
              (boot []))
    as (_ & _ & Hcall & _).
  destruct (Hcall (mk_logger "svc" []) "up" eq_refl eq_refl eq_refl)
    as (ln & Htrace & _ & Hlarge).
  rewrite Htrace, Hlarge; [reflexivity|].
  simpl. lia.
Defined.

Lemma GetPattern_nonempty (formatName : string) :
  formatName ≠ "" →
  ∃ p, (∀ q, Formatters.GetPattern formatName q = (E_SUCCESS, p))
       ∧ Str.empty p = false.
Proof.
  intros H. unfold Formatters.GetPattern. rewrite Str_empty_false by done.
  repeat destruct (String.eqb formatName _);
    eexists; (split; [intros q|]); reflexivity.
Qed.

(** X26.  [SetPattern] returns [E_INVALID_PARAMETER] exactly for the empty
    name, and then leaves the state alone: the test for an empty pattern
    never fires.  For any other name it hands the engine the pattern
    [GetPattern] gives for that name, and returns [E_SUCCESS], or
    [E_UNKNOWN_ERROR] with the engine trace unchanged when the engine
    throws. *)
Theorem X26_SetPattern_outcome (patternName : string) (w : World) :
  let r := SetPattern patternName w in
  (patternName = "" → r = (E_INVALID_PARAMETER, w))
  ∧ (patternName ≠ "" →
     ∃ p, (∀ q, Formatters.GetPattern patternName q = (E_SUCCESS, p))
          ∧ match (next_outcome w).1 with
            | Ok => r.1 = E_SUCCESS ∧ calls r.2 = set_pattern p :: calls w
            | _ => r.1 = E_UNKNOWN_ERROR ∧ calls r.2 = calls w
            end)
  ∧ (r.1 = E_INVALID_PARAMETER ↔ patternName = "").
Proof.
  intros r.
  assert (patternName ≠ "" →
          ∃ p, (∀ q, Formatters.GetPattern patternName q = (E_SUCCESS, p))
               ∧ match (next_outcome w).1 with
                 | Ok => r.1 = E_SUCCESS
                         ∧ calls r.2 = set_pattern p :: calls w
                 | _ => r.1 = E_UNKNOWN_ERROR ∧ calls r.2 = calls w
                 end) as Hsome.
  { intros Hne. destruct (GetPattern_nonempty patternName Hne) as (p & Hp & Hz).
    exists p. split; [exact Hp|]. subst r. unfold SetPattern, try_result.
    rewrite Hp. simpl. rewrite Hz. unfold bind, call, next_outcome.
    by destruct (script w) as [|[] rest]. }
  split_and!; [by intros -> | exact Hsome |].
  split; [|by intros ->].
  intros Hr. destruct patternName as [|a n]; [done|]. exfalso.
  destruct Hsome as (p & _ & Hcase); [done|].
  destruct ((next_outcome w).1); destruct Hcase as [Hc _]; congruence.
Qed.

Lemma X26_SetPattern_outcome_witness :
  (SetPattern "no such format" (boot [])).1 = E_SUCCESS
  ∧ calls (SetPattern "no such format" (boot [])).2
    = [set_pattern (Formatters.GetPattern "default" "").2].
Proof.
  destruct (X26_SetPattern_outcome "no such format" (boot []))
    as (_ & Hsome & _).
  destruct Hsome as (p & Hp & Hcase); [discriminate|].
  specialize (Hp ""). injection Hp as <-. exact Hcase.
Defined.

(** ** Formatter: additional fields and the other line formats *)

Section Json_fields.

Import Formatters.

Lemma ToJson_fields_closed (fields : list (string * string)) :
  ∀ fieldCount processedFields json,
    ToJson_fields fields fieldCount processedFields json
    = json +:+ json_fields (take (fieldCount - processedFields) fields).
Proof.
  induction fields as [|[k v] rest IH]; intros fieldCount processedFields json.
  { cbn [ToJson_fields]. rewrite take_nil. cbn [json_fields].
    by rewrite append_nil_r. }
  cbn [ToJson_fields].
  destruct (Nat.leb_spec fieldCount processedFields) as [Hle|Hlt].
  { replace (fieldCount - processedFields)%nat with O by lia.
    cbn [take json_fields]. by rewrite append_nil_r. }
  rewrite !JsonEscapeString_expand, IH.
  replace (fieldCount - processedFields)%nat
    with (S (fieldCount - S processedFields)) by lia.
  cbn [take json_fields]. by rewrite !append_assoc.
Qed.

Lemma json_fields_printable (fields : list (string * string)) :
  printable (json_fields fields).
Proof.
  unfold printable. induction fields as [|[k v] rest IH]; [done|].
  pose proof (expand_printable k) as Hk. pose proof (expand_printable v) as Hv.
  unfold printable in Hk, Hv.
  cbn [json_fields]. rewrite !all_chars_append, IH, Hk, Hv. reflexivity.
Qed.

(** What [ToJson_with] writes: the opening part, the additional fields it
    keeps, and the closing brace. *)
Lemma ToJson_with_closed
  (timestamp message level component result : string)
  (fields : list (string * string)) :
  message ≠ "" → level ≠ "" →
  ToJson_with (E_SUCCESS, timestamp) message level component fields result
  = (E_SUCCESS,
     json_open timestamp level component message
     +:+ json_fields (take 32 fields) +:+ "}").
Proof.
  intros Hm Hl. unfold ToJson_with, json_open.
  rewrite !JsonEscapeString_expand, !Str_empty_false by done.
  cbn [orb].
  assert (∀ json,
            match fields with
            | [] => json
            | _ :: _ =>
                ToJson_fields fields
                  (if (length fields <=? 32)%nat then length fields else 32%nat)
                  0 json
            end = json +:+ json_fields (take 32 fields)) as Hfields.
  { intros json. destruct fields as [|f fields];
      [by rewrite append_nil_r|].
    rewrite ToJson_fields_closed, Nat.sub_0_r. do 2 f_equal.
    destruct (Nat.leb_spec (length (f :: fields)) 32); [|done].
    by rewrite !take_ge by lia. }
  destruct (Str.empty component); cbn [negb]; rewrite Hfields;
    f_equal; rewrite !append_assoc; reflexivity.
Qed.

Lemma json_open_printable (timestamp level component message : string) :
  printable timestamp →
  printable (json_open timestamp level component message).
Proof.
  pose proof (expand_printable message) as Pm.
  pose proof (expand_printable level) as Pl.
  pose proof (expand_printable component) as Pc.
  unfold printable, json_open in *. intros Pt.
  destruct (Str.empty component);
    rewrite !all_chars_append, ?Pt, ?Pm, ?Pl, ?Pc; reflexivity.
Qed.

End Json_fields.

(** X27.  With a readable clock and a non-empty message and level,
    [ToJson] with additional fields succeeds and writes the object [ToJson]
    writes without them, with the fields put in before the closing brace:
    each as a comma, the escaped key in quotes, a colon and the escaped
    value in quotes, in iteration order.  Only the first 32 fields are
    written; whatever follows them is dropped without any sign in the
    result code. *)
Theorem X27_ToJson_additional_fields
  (timestamp message level component result : string)
  (fields more : list (string * string)) :
  message ≠ "" → level ≠ "" →
  Formatters.ToJson (E_SUCCESS, timestamp) message level component result
  = (E_SUCCESS, json_open timestamp level component message +:+ "}")
  ∧ Formatters.ToJson_with (E_SUCCESS, timestamp) message level component
      fields result
    = (E_SUCCESS,
       json_open timestamp level component message
       +:+ json_fields (take 32 fields) +:+ "}")
  ∧ ((32 <= length fields)%nat →
     Formatters.ToJson_with (E_SUCCESS, timestamp) message level component
       (fields ++ more)%list result
     = Formatters.ToJson_with (E_SUCCESS, timestamp) message level component
         fields result).
Proof.
  intros Hm Hl. split_and!.
  - unfold Formatters.ToJson. by rewrite ToJson_with_closed.
  - by apply ToJson_with_closed.
  - intros Hlen. rewrite !ToJson_with_closed by done.
    by rewrite take_app_le by lia.
Qed.

Lemma X27_ToJson_additional_fields_witness :
  Formatters.ToJson_with (E_SUCCESS, "T") "m" "info" "" [("k", "v")] ""
  = (E_SUCCESS,
     json_open "T" "info" "" "m" +:+ json_fields [("k", "v")] +:+ "}").
Proof.
  refine (proj1 (proj2 (X27_ToJson_additional_fields "T" "m" "info" "" ""
                          [("k", "v")] [] _ _))); discriminate.
Defined.

(** X28.  When the timestamp holds no control character, neither does
    anything [ToJson] writes, whatever the message, the level, the
    component and the additional fields hold. *)
Theorem X28_ToJson_output_is_printable
  (timestamp message level component result json : string)
  (fields : list (string * string)) :
  printable timestamp →
  Formatters.ToJson_with (E_SUCCESS, timestamp) message level component
    fields result
  = (E_SUCCESS, json) →
  printable json.
Proof.
  intros Pt.
  destruct (decide (message = "")) as [->|Hm]; [discriminate|].
  destruct (decide (level = "")) as [->|Hl].
  { unfold Formatters.ToJson_with. rewrite orb_true_r. discriminate. }
  rewrite ToJson_with_closed by done. intros [= <-].
  pose proof (json_open_printable timestamp level component message Pt)
    as Po.
  pose proof (json_fields_printable (take 32 fields)) as Pf.
  unfold printable in *. by rewrite !all_chars_append, Po, Pf.
Qed.

Lemma X28_ToJson_output_is_printable_witness :
  printable
    (Formatters.ToJson_with (E_SUCCESS, "T") (String "010" "") "info" ""
       [(String "001" "", String "013" "")] "").2.
Proof.
  apply (X28_ToJson_output_is_printable "T" (String "010" "") "info" "" ""
           _ [(String "001" "", String "013" "")]); reflexivity.
Defined.

(** X29.  The three line formatters return the same result code on the
    same input: [E_INVALID_PARAMETER] for an empty message or level, the
    code of the clock when that fails, and [E_SUCCESS] otherwise.  When the
    code is not [E_SUCCESS] none of them touches its out-parameter. *)
Theorem X29_formatters_agree (now : E_Result * string)
  (message level component result : string)
  (fields : list (string * string)) :
  let j := Formatters.ToJson_with now message level component fields result in
  let s := Formatters.ToSyslog now message level component result in
  let c := Formatters.ToConsole now message level component result in
  j.1 = s.1 ∧ c.1 = s.1
  ∧ s.1 = (if (Str.empty message || Str.empty level)%bool
           then E_INVALID_PARAMETER else now.1)
  ∧ (s.1 ≠ E_SUCCESS → j.2 = result ∧ s.2 = result ∧ c.2 = result).
Proof.
  intros j s c. subst j s c.
  destruct now as [code timestamp].
  destruct message as [|a m]; [by split_and!|].
  destruct level as [|b l]; [by split_and!|].
  destruct code;
    try (rewrite ToJson_with_closed by done);
    by split_and!.
Qed.

(** X30.  On success [ToSyslog] writes a priority in angle brackets, the
    timestamp, a tag, a colon and the message as it is, without escaping.
    The priority is one of 2, 3, 4, 6 and 7, and 6 for every level name it
    does not know.  The tag is never empty and never longer than 32
    characters: it is the component, cut to its first 32 characters, or
    vsnlogger when the component is empty. *)
Theorem X30_ToSyslog_line (timestamp message level component result : string) :
  message ≠ "" → level ≠ "" →
  ∃ priority tag,
    Formatters.ToSyslog (E_SUCCESS, timestamp) message level component result
    = (E_SUCCESS,
       "<" +:+ priority +:+ ">" +:+ timestamp +:+ " " +:+ tag +:+ ": "
       +:+ message)
    ∧ priority ∈ ["2"; "3"; "4"; "6"; "7"]
    ∧ (level ∉ ["trace"; "debug"; "info"; "warn"; "error"; "critical"] →
       priority = "6")
    ∧ (1 <= String.length tag <= 32)%nat
    ∧ tag = (if Str.empty component then "vsnlogger"
             else Str.substr component 0 32).
Proof.
  intros Hm Hl. exists (Formatters.syslog_priority level).
  exists (if Str.empty component then "vsnlogger"
          else Str.substr component 0 32).
  split_and!.
  - unfold Formatters.ToSyslog. rewrite !Str_empty_false by done.
    cbn [orb]. f_equal.
    destruct component as [|a c]; cbn [Str.empty negb];
      [by rewrite !append_assoc|].
    assert (∀ n s, (String.length s <= n)%nat → substring 0 n s = s) as Hsub.
    { intros n s. revert n. induction s as [|x s IH]; intros [|n] H;
        simpl in *; try done; try lia. by rewrite IH by lia. }
    destruct (Nat.leb_spec (String.length (String a c)) 32) as [Hle|Hgt];
      rewrite !append_assoc; [|done].
    unfold Str.substr. by rewrite Hsub.
  - unfold Formatters.syslog_priority.
    repeat destruct (String.eqb level _); cbn [orb];
      repeat first [apply list_elem_of_here | apply list_elem_of_further].
  - intros Hnot. unfold Formatters.syslog_priority.
    repeat match goal with
    | |- context [String.eqb level ?x] =>
        destruct (String.eqb_spec level x) as [->|_];
          [exfalso; apply Hnot;
           repeat first [apply list_elem_of_here
                        | apply list_elem_of_further]|]
    end.
    reflexivity.
  - destruct component as [|a c]; simpl; lia.
  - destruct component as [|a c]; [simpl; lia|].
    change (Str.empty (String a c)) with false. cbv iota.
    apply length_substr_0.
  - reflexivity.
Qed.

Lemma X30_ToSyslog_line_witness :
  ∃ priority tag,
    Formatters.ToSyslog (E_SUCCESS, "T") "m" "ERROR" "" ""
    = (E_SUCCESS,
       "<" +:+ priority +:+ ">" +:+ "T" +:+ " " +:+ tag +:+ ": " +:+ "m")
    ∧ priority = "6" ∧ tag = "vsnlogger".
Proof.
  destruct (X30_ToSyslog_line "T" "m" "ERROR" "" "")
    as (priority & tag & Hline & _ & Hunknown & _ & Htag);
    [discriminate | discriminate |].
  exists priority, tag. split_and!; [exact Hline | | exact Htag].
  apply Hunknown. intros H.
  repeat (apply elem_of_cons in H as [H|H]; [discriminate|]).
  by apply elem_of_nil in H.
Defined.
